(** * k8s-simulator backend: the sandbox lifecycle manager

    A shallow embedding of the Express server that provisions short-lived
    Kubernetes sandboxes.  The repository holds two revisions of the server:

    - [src/backend/src/server.js], which drives clusters with [kind]
      (module [KindServer]);
    - [src/unnamed/part_000], which drives clusters with [k3d]
      (module [K3dServer]).

    Both have the process-wide maps [sandboxes] and [creationLocks], the
    cron job [cleanupExpiredSandboxes], two middlewares and three routes.

    JavaScript's [async] functions are embedded as terms of a free monad
    [Task]: every [await] on the outside world is a suspension point, and
    the synchronous code between two suspension points runs atomically, as
    it does on Node's single thread.  Calls to the outside world ([execa],
    [fs]) are answered by an abstract [Driver]; exceptions are explicit
    completions.  Writes to the console are left out, except for what the
    evaluation of their arguments can throw. *)

From Stdlib Require Import String Ascii List ZArith Lia Bool DecimalString.
From Stdlib Require QArith.
Import ListNotations.
Local Open Scope string_scope.
Local Open Scope Z_scope.

(* ================================================================== *)
(** * JavaScript strings and values *)

Module Js.

Definition newline : string := String "010"%char EmptyString.

(** [s.includes(searchString)] *)
Fixpoint includes (s searchString : string) : bool :=
  if String.prefix searchString s then true
  else match s with
       | EmptyString => false
       | String _ rest => includes rest searchString
       end.

(** [s.split(separator)] for a one-character separator: the pieces
    between the separators, empty pieces included. *)
Fixpoint split (s : string) (separator : ascii) : list string :=
  match s with
  | EmptyString => [EmptyString]
  | String c rest =>
      if Ascii.eqb c separator then EmptyString :: split rest separator
      else match split rest separator with
           | piece :: pieces => String c piece :: pieces
           | [] => [String c EmptyString]
           end
  end.

(** Template-literal conversion [`${v}`] of a string or [undefined]. *)
Definition text (v : option string) : string :=
  match v with
  | Some s => s
  | None => "undefined"
  end.

(** Truthiness of a value that is a string or [undefined]:
    [undefined] and the empty string are falsy. *)
Definition truthy (v : option string) : bool :=
  match v with
  | None => false
  | Some s => negb (String.eqb s "")
  end.

(** The values that flow through the exec route. *)
Inductive Value : Type :=
| Undefined
| Str (s : string).

(** How a JavaScript computation completes. *)
Inductive Completion (A : Type) : Type :=
| Normal (a : A)
| Throw (message : string).
Arguments Normal {A} a.
Arguments Throw {A} message.

(** The member access [v.stdout] on such a value.  A string primitive has
    no property of that name, own or inherited, so the access yields
    [undefined]; on [undefined] the access is a [TypeError]. *)
Definition member_stdout (v : Value) : Completion Value :=
  match v with
  | Str _ => Normal Undefined
  | Undefined =>
      Throw "Cannot read properties of undefined (reading 'stdout')"
  end.

(** JSON documents sent by [res.json].  [JSON.stringify] leaves out a
    property whose value is [undefined]. *)
Definition Json := list (string * string).

Definition property (name : string) (v : Value) : list (string * string) :=
  match v with
  | Str s => [(name, s)]
  | Undefined => []
  end.

Fixpoint field (name : string) (doc : Json) : option string :=
  match doc with
  | [] => None
  | (k, v) :: rest => if String.eqb k name then Some v else field name rest
  end.

(** What a request can bring in [req.body] and in the members of it: a
    value parsed from JSON, or [undefined] ([Absent]) where nothing was
    parsed.  A number is given by its value; an object has one member per
    name. *)
#[warnings="-register-all"]
Inductive Data : Type :=
| Absent
| Null
| Boolean (b : bool)
| Number (n : QArith_base.Q)
| Text (s : string)
| Array (items : list Data)
| Object (members : list (string * Data)).

Fixpoint member (name : string) (members : list (string * Data)) : Data :=
  match members with
  | [] => Absent
  | (k, v) :: rest => if String.eqb k name then v else member name rest
  end.

Definition has_member (name : string) (members : list (string * Data))
  : bool :=
  existsb (fun m => String.eqb (fst m) name) members.

(** [const { name } = source]: reading a property of [undefined] or of
    [null] is a [TypeError]; a primitive and an array have no property of
    such a name. *)
Definition destructure (name source : string) (v : Data) : Completion Data :=
  match v with
  | Absent =>
      Throw ("Cannot destructure property '" ++ name ++ "' of '" ++ source
             ++ "' as it is undefined.")
  | Null =>
      Throw ("Cannot destructure property '" ++ name ++ "' of '" ++ source
             ++ "' as it is null.")
  | Object members => Normal (member name members)
  | _ => Normal Absent
  end.

(** Truthiness: [undefined], [null], [false], zero and the empty string
    are falsy, every array and object is truthy. *)
Definition to_boolean (v : Data) : bool :=
  match v with
  | Absent | Null => false
  | Boolean b => b
  | Number n => negb (QArith_base.Qeq_bool n (QArith_base.Qmake 0 1))
  | Text s => negb (String.eqb s "")
  | Array _ | Object _ => true
  end.

(** [v.split(separator)]: only a string has the method. *)
Definition split_of (name : string) (v : Data) (separator : ascii)
  : Completion (list string) :=
  match v with
  | Text s => Normal (split s separator)
  | Absent => Throw "Cannot read properties of undefined (reading 'split')"
  | Null => Throw "Cannot read properties of null (reading 'split')"
  | _ => Throw (name ++ ".split is not a function")
  end.

(** Whether the template literal [`${v}`] can be evaluated.  An object
    parsed from JSON with a member [toString] of its own has no way to a
    primitive, and the conversion is a [TypeError]; an array converts its
    items, [null] and [undefined] apart. *)
Fixpoint interpolates (v : Data) : bool :=
  match v with
  | Object members => negb (has_member "toString" members)
  | Array items => forallb interpolates items
  | _ => true
  end.

Definition interpolate (v : Data) : Completion unit :=
  if interpolates v then Normal tt
  else Throw "Cannot convert object to primitive value".

(** The member [name: v] of a sent document; the server sends none but
    strings, and [JSON.stringify] leaves out what is [undefined]. *)
Definition echo (name : string) (v : Data) : list (string * string) :=
  match v with
  | Text s => [(name, s)]
  | _ => []
  end.

End Js.


(* ================================================================== *)
(** * [Map]: insertion-ordered, one entry per key *)

Module JsMap.

Definition t (V : Type) : Type := list (string * V).

Definition empty {V : Type} : t V := [].

Fixpoint get {V : Type} (m : t V) (key : string) : option V :=
  match m with
  | [] => None
  | (k, v) :: rest => if String.eqb k key then Some v else get rest key
  end.

(** [m.set(key, value)]: an existing entry keeps its place, a new one goes
    last. *)
Fixpoint set {V : Type} (m : t V) (key : string) (value : V) : t V :=
  match m with
  | [] => [(key, value)]
  | (k, v) :: rest =>
      if String.eqb k key then (k, value) :: rest
      else (k, v) :: set rest key value
  end.

(** [m.delete(key)]; on a map with one entry per key this removes that
    entry. *)
Fixpoint delete {V : Type} (m : t V) (key : string) : t V :=
  match m with
  | [] => []
  | (k, v) :: rest =>
      if String.eqb k key then delete rest key
      else (k, v) :: delete rest key
  end.

(** [m.entries()], in insertion order. *)
Definition entries {V : Type} (m : t V) : list (string * V) := m.

End JsMap.

(* ================================================================== *)
(** * Asynchronous tasks *)

(** What the server awaits from the outside world. *)
Inductive Call : Type :=
| Execa (file : string) (args : list string)
| WriteFile (path data : string)
| Unlink (path : string).

(** How the awaited promise settles: [execa] fulfils with a result whose
    [stdout] is given, or rejects with an error whose [message] is given. *)
Inductive Settled : Type :=
| Fulfilled (stdout : string)
| Rejected (message : string).

(** A task is the code of an [async] function (or of a middleware chain):
    a tree of its suspension points and of its accesses to the process-wide
    state.  Reading the clock and drawing an identifier are synchronous but
    answered by the environment, and so is [Connected]: whether the client
    of the request still holds its connection open. *)
Inductive Task (A : Type) : Type :=
| Ret (a : A)
| Await (call : Call) (k : Settled -> Task A)
| Sleep (ms : Z) (k : Task A)
| DateNow (k : Z -> Task A)
| GenerateId (k : string -> Task A)
| SandboxesEntries (k : list (string * Z) -> Task A)
| SandboxesSet (sandboxId : string) (createdAt : Z) (k : Task A)
| SandboxesDelete (sandboxId : string) (k : Task A)
| LocksGet (clientIp : string) (k : option bool -> Task A)
| LocksSet (clientIp : string) (value : bool) (k : Task A)
| LocksDelete (clientIp : string) (k : Task A)
| Connected (k : bool -> Task A).

Arguments Ret {A} a.
Arguments Await {A} call k.
Arguments Sleep {A} ms k.
Arguments DateNow {A} k.
Arguments GenerateId {A} k.
Arguments SandboxesEntries {A} k.
Arguments SandboxesSet {A} sandboxId createdAt k.
Arguments SandboxesDelete {A} sandboxId k.
Arguments LocksGet {A} clientIp k.
Arguments LocksSet {A} clientIp value k.
Arguments LocksDelete {A} clientIp k.
Arguments Connected {A} k.

Fixpoint bind {A B : Type} (t : Task A) (f : A -> Task B) : Task B :=
  match t with
  | Ret a => f a
  | Await call k => Await call (fun r => bind (k r) f)
  | Sleep ms k => Sleep ms (bind k f)
  | DateNow k => DateNow (fun now => bind (k now) f)
  | GenerateId k => GenerateId (fun id => bind (k id) f)
  | SandboxesEntries k => SandboxesEntries (fun es => bind (k es) f)
  | SandboxesSet id at_ k => SandboxesSet id at_ (bind k f)
  | SandboxesDelete id k => SandboxesDelete id (bind k f)
  | LocksGet ip k => LocksGet ip (fun v => bind (k v) f)
  | LocksSet ip v k => LocksSet ip v (bind k f)
  | LocksDelete ip k => LocksDelete ip (bind k f)
  | Connected k => Connected (fun open => bind (k open) f)
  end.

Notation "x <- t ;; k" := (bind t (fun x => k))
  (at level 100, t at next level, right associativity).

(** An [async] function: a task that completes normally or throws. *)
Definition Async (A : Type) : Type := Task (Js.Completion A).

Definition resolve {A : Type} (a : A) : Async A := Ret (Js.Normal a).

Definition throw {A : Type} (message : string) : Async A :=
  Ret (Js.Throw message).

(** Sequencing inside a [try] block: a throw skips what follows. *)
Definition and_then {A B : Type} (t : Async A) (f : A -> Async B) : Async B :=
  c <- t ;;
  match c with
  | Js.Normal a => f a
  | Js.Throw message => throw message
  end.

Notation "x <-- t ;; k" := (and_then t (fun x => k))
  (at level 100, t at next level, right associativity).

(** [try { body } catch (error) { handler(error.message) }] *)
Definition try_catch {A : Type} (body : Async A) (handler : string -> Async A)
  : Async A :=
  c <- body ;;
  match c with
  | Js.Normal a => resolve a
  | Js.Throw message => handler message
  end.

(** [await execa(...)], [await fs.writeFile(...)], [await fs.unlink(...)] *)
Definition await (call : Call) : Async string :=
  Await call (fun r =>
    match r with
    | Fulfilled stdout => resolve stdout
    | Rejected message => throw message
    end).

(** [await new Promise((resolve) => setTimeout(resolve, ms))] *)
Definition sleep (ms : Z) : Async unit := Sleep ms (resolve tt).

(** [for (const x of xs) { await body(x) }] *)
Fixpoint for_of {X : Type} (xs : list X) (body : X -> Task unit) : Task unit :=
  match xs with
  | [] => Ret tt
  | x :: rest => _ <- body x ;; for_of rest body
  end.

(** The task of a request whose client has closed the connection: what is
    left of it runs on, and finds the connection closed. *)
Fixpoint disconnect {A : Type} (t : Task A) : Task A :=
  match t with
  | Ret a => Ret a
  | Await call k => Await call (fun r => disconnect (k r))
  | Sleep ms k => Sleep ms (disconnect k)
  | DateNow k => DateNow (fun now => disconnect (k now))
  | GenerateId k => GenerateId (fun id => disconnect (k id))
  | SandboxesEntries k => SandboxesEntries (fun es => disconnect (k es))
  | SandboxesSet id at_ k => SandboxesSet id at_ (disconnect k)
  | SandboxesDelete id k => SandboxesDelete id (disconnect k)
  | LocksGet ip k => LocksGet ip (fun v => disconnect (k v))
  | LocksSet ip v k => LocksSet ip v (disconnect k)
  | LocksDelete ip k => LocksDelete ip (disconnect k)
  | Connected k => disconnect (k false)
  end.

(* ================================================================== *)
(** * Requests and responses *)

(** A request as the server reads it: [req.ip], [req.cookies.sandboxId]
    and [req.body].  The body is what [express.json()] parsed, and
    [undefined] when it parsed nothing and supplied no object of its own. *)
Record Request : Type := {
  ip : string;
  cookies_sandboxId : option string;
  body : Js.Data
}.

(** The body of a request that posts [{ command }], and [{}] when it posts
    no command. *)
Definition posted (command : option string) : Js.Data :=
  Js.Object
    match command with
    | Some text => [("command", Js.Text text)]
    | None => []
    end.

Inductive CookieOp : Type :=
| SetCookie (name value : string) (maxAge : Z)
| ClearCookie (name : string).

(** The response object [res] of one request: status code, [Set-Cookie]
    headers in the order they were added, the listeners registered for its
    [finish] event, and the JSON document once it was sent. *)
Record Res : Type := {
  statusCode : Z;
  setCookies : list CookieOp;
  finishListeners : list (Task unit);
  sent : option Js.Json
}.

Definition new_res : Res :=
  {| statusCode := 200; setCookies := []; finishListeners := []; sent := None |}.

Definition status (res : Res) (code : Z) : Res :=
  {| statusCode := code; setCookies := setCookies res;
     finishListeners := finishListeners res; sent := sent res |}.

Definition json (res : Res) (doc : Js.Json) : Res :=
  {| statusCode := statusCode res; setCookies := setCookies res;
     finishListeners := finishListeners res; sent := Some doc |}.

Definition cookie (res : Res) (name value : string) (maxAge : Z) : Res :=
  {| statusCode := statusCode res;
     setCookies := setCookies res ++ [SetCookie name value maxAge];
     finishListeners := finishListeners res; sent := sent res |}.

Definition clearCookie (res : Res) (name : string) : Res :=
  {| statusCode := statusCode res;
     setCookies := setCookies res ++ [ClearCookie name];
     finishListeners := finishListeners res; sent := sent res |}.

Definition on_finish (res : Res) (listener : Task unit) : Res :=
  {| statusCode := statusCode res; setCookies := setCookies res;
     finishListeners := finishListeners res ++ [listener]; sent := sent res |}.

(** What a middleware does with a request: hand it on ([next()]) or answer
    it itself. *)
Inductive Verdict : Type :=
| Next (res : Res)
| Answered (res : Res).

(** The response is ended.  Handed to a connection that is open it emits
    [finish] and its listeners run, in the model in the turn in which the
    handler answers.  A response that is ended after the client closed the
    connection is dropped and never emits [finish]. *)
Definition emit_finish (res : Res) : Task Res :=
  Connected (fun open =>
    if open then
      _ <- for_of (finishListeners res) (fun listener => listener) ;;
      Ret res
    else Ret res).

(** [router.METHOD(path, middleware, handler)] *)
Definition route (middleware : Request -> Res -> Task Verdict)
  (handler : Request -> Res -> Task Res) (req : Request) : Task Res :=
  v <- middleware req new_res ;;
  res <- match v with
         | Next res => handler req res
         | Answered res => Ret res
         end ;;
  emit_finish res.

(** [`${n}`] for an integer. *)
Definition decimal (n : Z) : string :=
  DecimalString.NilZero.string_of_int (Z.to_int n).

(* ================================================================== *)
(** * The server of [src/unnamed/part_000] (k3d) *)

Module K3dServer.

Definition SANDBOX_LIFETIME_MS : Z := 60 * 60 * 1000.

Definition createCluster (sandboxId : string) : Async bool :=
  try_catch
    (_ <-- await (Execa "k3d"
                    ["cluster"; "create"; sandboxId; "--api-port"; "6443";
                     "--k3s-arg"; "--disable=traefik@server:0"; "--wait"]) ;;
     _ <-- sleep 10000 ;;
     _ <-- await (Execa "kubectl"
                    ["--context"; "k3d-" ++ sandboxId; "wait";
                     "--for=condition=Ready"; "nodes"; "--all";
                     "--timeout=30s"]) ;;
     DateNow (fun now =>
     SandboxesSet sandboxId now
     (resolve true)))
    (fun message => throw ("Failed to create cluster: " ++ message)).

Definition deleteCluster (sandboxId : string) : Async unit :=
  try_catch
    (_ <-- await (Execa "k3d" ["cluster"; "delete"; sandboxId]) ;;
     SandboxesDelete sandboxId
     (resolve tt))
    (fun message => throw ("Failed to delete cluster: " ++ message)).

(** The loop visits the entries the registry holds when it starts.  Its
    body removes no entry but the one it visits, so a run that is not
    interleaved with other tasks visits what the live iterator of the [Map]
    visits. *)
Definition cleanupExpiredSandboxes : Task unit :=
  DateNow (fun now =>
  SandboxesEntries (fun entries =>
  for_of entries (fun '(sandboxId, createdAt) =>
    if now - createdAt >? SANDBOX_LIFETIME_MS then
      _ <- try_catch
             (_ <-- deleteCluster sandboxId ;;
              SandboxesDelete sandboxId
              (resolve tt))
             (fun _ => resolve tt) ;;
      Ret tt
    else Ret tt))).

Definition preventConcurrentRequests (req : Request) (res : Res)
  : Task Verdict :=
  let clientIp := ip req in
  LocksGet clientIp (fun held =>
  match held with
  | Some true =>
      Ret (Answered
        (json (status res 429)
           [("error",
             "A sandbox is already being created for this IP. Please wait.")]))
  | _ =>
      LocksSet clientIp true
      (Ret (Next (on_finish res (LocksDelete clientIp (Ret tt)))))
  end).

(** [catch] is the [catch] block, entered when the listing is rejected
    and when the [try] block throws for want of a matching line. *)
Definition validateSandbox (req : Request) (res : Res) : Task Verdict :=
  let sandboxId := cookies_sandboxId req in
  if negb (Js.truthy sandboxId) then
    Ret (Answered
      (json (status res 401)
         [("error", "Sandbox not found. Create a new sandbox first.")]))
  else
    let catch :=
      let res := clearCookie res "sandboxId" in
      SandboxesDelete (Js.text sandboxId)
      (Ret (Answered
        (json (status res 404) [("error", "Sandbox not found or expired.")])))
    in
    Await (Execa "k3d" ["cluster"; "list"]) (fun result =>
    match result with
    | Fulfilled stdout =>
        let clusters :=
          filter (fun line => Js.includes line (Js.text sandboxId))
                 (Js.split stdout "010"%char) in
        if (length clusters =? 0)%nat then catch
        else Ret (Next res)
    | Rejected _ => catch
    end).

(** [executeKubectlCommand]: inside its [try] it first writes the command
    to the console in a template literal, then splits it. *)
Definition executeKubectlCommand (sandboxId : option string)
  (command : Js.Data) : Async Js.Value :=
  try_catch
    (_ <-- Ret (Js.interpolate command) ;;
     args <-- Ret (Js.split_of "command" command " "%char) ;;
     stdout <-- await (Execa "kubectl"
                         ("--context" :: ("k3d-" ++ Js.text sandboxId)
                            :: args)) ;;
     resolve (Js.Str stdout))
    (fun message => throw ("Error executing command: " ++ message)).

Definition expiresIn : string :=
  decimal (SANDBOX_LIFETIME_MS / 1000 / 60) ++ " minutes".

(** The handler of [router.post('/sandbox', ...)] from
    [const sandboxId = 'sb-' + generateId()] on, where every path that does
    not reuse a sandbox arrives; [res] is the response as those paths left
    it. *)
Definition provision (res : Res) : Task Res :=
  GenerateId (fun generated =>
  let sandboxId := "sb-" ++ generated in
  c <- createCluster sandboxId ;;
  match c with
  | Js.Normal _ =>
      let res := cookie res "sandboxId" sandboxId SANDBOX_LIFETIME_MS in
      Ret (json res
             [("message", "Sandbox created successfully");
              ("sandboxId", sandboxId);
              ("expiresIn", expiresIn)])
  | Js.Throw message =>
      Ret (json (status res 500) [("error", message)])
  end).

(** The handler of [router.post('/sandbox', ...)]. *)
Definition post_sandbox (req : Request) (res : Res) : Task Res :=
  let existingSandboxId := cookies_sandboxId req in
  if Js.truthy existingSandboxId then
    Await (Execa "k3d" ["cluster"; "list"]) (fun result =>
    match result with
    | Fulfilled stdout =>
        let clusters :=
          filter (fun line => Js.includes line (Js.text existingSandboxId))
                 (Js.split stdout "010"%char) in
        if (0 <? length clusters)%nat then
          Ret (json res
                 [("message", "Using existing sandbox");
                  ("sandboxId", Js.text existingSandboxId);
                  ("expiresIn", expiresIn)])
        else provision res
    | Rejected _ =>
        let res := clearCookie res "sandboxId" in
        SandboxesDelete (Js.text existingSandboxId)
        (provision res)
    end)
  else provision res.

(** The handler of [router.post('/sandbox/exec', ...)].  Its body is one
    [try] block that begins with [const { command } = req.body]: what
    throws there or in [executeKubectlCommand] is answered 500 by the
    [catch]. *)
Definition post_sandbox_exec (req : Request) (res : Res) : Task Res :=
  match Js.destructure "command" "req.body" (body req) with
  | Js.Normal command =>
      let sandboxId := cookies_sandboxId req in
      if negb (Js.to_boolean command) then
        Ret (json (status res 400) [("error", "Command not provided")])
      else
        c <- executeKubectlCommand sandboxId command ;;
        match c with
        | Js.Normal output =>
            Ret (json res
                   ([("message", "Command executed successfully")]
                    ++ Js.echo "command" command
                    ++ Js.property "output" output)%list)
        | Js.Throw message =>
            Ret (json (status res 500) [("error", message)])
        end
  | Js.Throw message =>
      Ret (json (status res 500) [("error", message)])
  end.

(** The handler of [router.delete('/sandbox', ...)]. *)
Definition delete_sandbox (req : Request) (res : Res) : Task Res :=
  let sandboxId := cookies_sandboxId req in
  c <- deleteCluster (Js.text sandboxId) ;;
  match c with
  | Js.Normal _ =>
      let res := clearCookie res "sandboxId" in
      Ret (json res [("message", "Sandbox deleted successfully")])
  | Js.Throw message =>
      Ret (json (status res 500) [("error", message)])
  end.

Definition POST_sandbox : Request -> Task Res :=
  route preventConcurrentRequests post_sandbox.

Definition POST_sandbox_exec : Request -> Task Res :=
  route validateSandbox post_sandbox_exec.

Definition DELETE_sandbox : Request -> Task Res :=
  route validateSandbox delete_sandbox.

End K3dServer.

(* ================================================================== *)
(** * The server of [src/backend/src/server.js] (kind) *)

Module KindServer.

Definition SANDBOX_LIFETIME_MS : Z := 60 * 60 * 1000.

Definition config_of (sandboxId : string) : string :=
  String.concat Js.newline
    [""; "kind: Cluster"; "apiVersion: kind.x-k8s.io/v1alpha4";
     "name: " ++ sandboxId; "nodes:"; "- role: control-plane";
     "  extraPortMappings:"; "  - containerPort: 80"; "    hostPort: 0";
     "    protocol: TCP"; ""].

Definition createCluster (sandboxId : string) : Async bool :=
  try_catch
    (let config := config_of sandboxId in
     let configPath := "/tmp/" ++ sandboxId ++ "-config.yaml" in
     _ <-- await (WriteFile configPath config) ;;
     _ <-- await (Execa "kind" ["create"; "cluster"; "--config"; configPath]) ;;
     _ <-- await (Unlink configPath) ;;
     DateNow (fun now =>
     SandboxesSet sandboxId now
     (resolve true)))
    (fun message => throw ("Failed to create cluster: " ++ message)).

Definition deleteCluster (sandboxId : string) : Async unit :=
  try_catch
    (_ <-- await (Execa "kind" ["delete"; "cluster"; "--name"; sandboxId]) ;;
     SandboxesDelete sandboxId
     (resolve tt))
    (fun message => throw ("Failed to delete cluster: " ++ message)).

(** The loop visits the entries the registry holds when it starts.  Its
    body removes no entry but the one it visits, so a run that is not
    interleaved with other tasks visits what the live iterator of the [Map]
    visits. *)
Definition cleanupExpiredSandboxes : Task unit :=
  DateNow (fun now =>
  SandboxesEntries (fun entries =>
  for_of entries (fun '(sandboxId, createdAt) =>
    if now - createdAt >? SANDBOX_LIFETIME_MS then
      _ <- try_catch
             (_ <-- deleteCluster sandboxId ;;
              SandboxesDelete sandboxId
              (resolve tt))
             (fun _ => resolve tt) ;;
      Ret tt
    else Ret tt))).

Definition preventConcurrentRequests (req : Request) (res : Res)
  : Task Verdict :=
  let clientIp := ip req in
  LocksGet clientIp (fun held =>
  match held with
  | Some true =>
      Ret (Answered
        (json (status res 429)
           [("error",
             "A sandbox is already being created for this IP. Please wait.")]))
  | _ =>
      LocksSet clientIp true
      (Ret (Next (on_finish res (LocksDelete clientIp (Ret tt)))))
  end).

Definition validateSandbox (req : Request) (res : Res) : Task Verdict :=
  let sandboxId := cookies_sandboxId req in
  if negb (Js.truthy sandboxId) then
    Ret (Answered
      (json (status res 401)
         [("error", "Sandbox not found. Create a new sandbox first.")]))
  else
    Await (Execa "k3d" ["cluster"; "list"; Js.text sandboxId]) (fun result =>
    match result with
    | Fulfilled _ => Ret (Next res)
    | Rejected _ =>
        let res := clearCookie res "sandboxId" in
        SandboxesDelete (Js.text sandboxId)
        (Ret (Answered
          (json (status res 404)
             [("error", "Sandbox not found or expired.")])))
    end).

(** [executeKubectlCommand]: the command is split before the [try]. *)
Definition executeKubectlCommand (sandboxId : option string)
  (command : Js.Data) : Async Js.Value :=
  args <-- Ret (Js.split_of "command" command " "%char) ;;
  try_catch
    (stdout <-- await (Execa "kubectl"
                         ("--context" :: ("kind-" ++ Js.text sandboxId)
                            :: args)) ;;
     resolve (Js.Str stdout))
    (fun message => throw ("Error executing command: " ++ message)).

Definition expiresIn : string :=
  decimal (SANDBOX_LIFETIME_MS / 1000 / 60) ++ " minutes".

(** The handler of [router.post('/sandbox', ...)] from
    [const sandboxId = 'sb-' + generateId()] on, where every path that does
    not reuse a sandbox arrives; [res] is the response as those paths left
    it. *)
Definition provision (res : Res) : Task Res :=
  GenerateId (fun generated =>
  let sandboxId := "sb-" ++ generated in
  c <- createCluster sandboxId ;;
  match c with
  | Js.Normal _ =>
      let res := cookie res "sandboxId" sandboxId SANDBOX_LIFETIME_MS in
      Ret (json res
             [("message", "Sandbox created successfully");
              ("sandboxId", sandboxId);
              ("expiresIn", expiresIn)])
  | Js.Throw message =>
      Ret (json (status res 500) [("error", message)])
  end).

(** The handler of [router.post('/sandbox', ...)]. *)
Definition post_sandbox (req : Request) (res : Res) : Task Res :=
  let existingSandboxId := cookies_sandboxId req in
  if Js.truthy existingSandboxId then
    Await (Execa "k3d" ["cluster"; "list"; Js.text existingSandboxId])
    (fun result =>
    match result with
    | Fulfilled _ =>
        Ret (json res
               [("message", "Using existing sandbox");
                ("sandboxId", Js.text existingSandboxId);
                ("expiresIn", expiresIn)])
    | Rejected _ =>
        let res := clearCookie res "sandboxId" in
        SandboxesDelete (Js.text existingSandboxId)
        (provision res)
    end)
  else provision res.

(** The handler of [router.post('/sandbox/exec', ...)]: one [try] block
    that begins with [const { command } = req.body] and whose [catch]
    answers 500; [result] is what [executeKubectlCommand] returned, and the
    document sent reads [result.stdout]. *)
Definition post_sandbox_exec (req : Request) (res : Res) : Task Res :=
  match Js.destructure "command" "req.body" (body req) with
  | Js.Normal command =>
      let sandboxId := cookies_sandboxId req in
      if negb (Js.to_boolean command) then
        Ret (json (status res 400) [("error", "Command not provided")])
      else
        c <- executeKubectlCommand sandboxId command ;;
        match c with
        | Js.Normal result =>
            match Js.member_stdout result with
            | Js.Normal output =>
                Ret (json res
                       ([("message", "Command executed successfully")]
                        ++ Js.echo "command" command
                        ++ Js.property "output" output)%list)
            | Js.Throw message =>
                Ret (json (status res 500) [("error", message)])
            end
        | Js.Throw message =>
            Ret (json (status res 500) [("error", message)])
        end
  | Js.Throw message =>
      Ret (json (status res 500) [("error", message)])
  end.

(** The handler of [router.delete('/sandbox', ...)]. *)
Definition delete_sandbox (req : Request) (res : Res) : Task Res :=
  let sandboxId := cookies_sandboxId req in
  c <- deleteCluster (Js.text sandboxId) ;;
  match c with
  | Js.Normal _ =>
      let res := clearCookie res "sandboxId" in
      Ret (json res [("message", "Sandbox deleted successfully")])
  | Js.Throw message =>
      Ret (json (status res 500) [("error", message)])
  end.

Definition POST_sandbox : Request -> Task Res :=
  route preventConcurrentRequests post_sandbox.

Definition POST_sandbox_exec : Request -> Task Res :=
  route validateSandbox post_sandbox_exec.

Definition DELETE_sandbox : Request -> Task Res :=
  route validateSandbox delete_sandbox.

End KindServer.

(* ================================================================== *)
(** * Running tasks against the outside world *)

(** The outside world: it settles the awaited calls, tells the time
    ([Date.now()]) and draws identifiers ([generateId()]). *)
Class Driver (World : Type) : Type := {
  settle : Call -> World -> Settled * World;
  date_now : World -> Z * World;
  generate_id : World -> string * World
}.

(** The Node process: the two process-wide maps, the world it talks to,
    and the calls it has awaited so far with how each settled. *)
Record Process (World : Type) : Type := {
  sandboxes : JsMap.t Z;
  creationLocks : JsMap.t bool;
  world : World;
  calls : list (Call * Settled)
}.
Arguments sandboxes {World} p.
Arguments creationLocks {World} p.
Arguments world {World} p.
Arguments calls {World} p.

Section Running.
Context {World : Type} `{Driver World}.

Definition boot (w : World) : Process World :=
  {| sandboxes := JsMap.empty; creationLocks := JsMap.empty;
     world := w; calls := [] |}.

Definition with_sandboxes (p : Process World) (m : JsMap.t Z) : Process World :=
  {| sandboxes := m; creationLocks := creationLocks p;
     world := world p; calls := calls p |}.

Definition with_locks (p : Process World) (m : JsMap.t bool) : Process World :=
  {| sandboxes := sandboxes p; creationLocks := m;
     world := world p; calls := calls p |}.

Definition with_world (p : Process World) (w : World) : Process World :=
  {| sandboxes := sandboxes p; creationLocks := creationLocks p;
     world := w; calls := calls p |}.

Definition awaited (p : Process World) (call : Call) : Settled * Process World :=
  let (r, w) := settle call (world p) in
  (r, {| sandboxes := sandboxes p; creationLocks := creationLocks p;
         world := w; calls := calls p ++ [(call, r)] |}).

(** Run a task to completion, with nothing else interleaved and the
    client connected throughout. *)
Fixpoint run {A : Type} (t : Task A) (p : Process World) : A * Process World :=
  match t with
  | Ret a => (a, p)
  | Await call k => let (r, p') := awaited p call in run (k r) p'
  | Sleep _ k => run k p
  | DateNow k =>
      let (now, w) := date_now (world p) in run (k now) (with_world p w)
  | GenerateId k =>
      let (id, w) := generate_id (world p) in run (k id) (with_world p w)
  | SandboxesEntries k => run (k (JsMap.entries (sandboxes p))) p
  | SandboxesSet id createdAt k =>
      run k (with_sandboxes p (JsMap.set (sandboxes p) id createdAt))
  | SandboxesDelete id k =>
      run k (with_sandboxes p (JsMap.delete (sandboxes p) id))
  | LocksGet clientIp k => run (k (JsMap.get (creationLocks p) clientIp)) p
  | LocksSet clientIp v k =>
      run k (with_locks p (JsMap.set (creationLocks p) clientIp v))
  | LocksDelete clientIp k =>
      run k (with_locks p (JsMap.delete (creationLocks p) clientIp))
  | Connected k => run (k true) p
  end.

End Running.

(* ================================================================== *)
(** * Two concrete worlds *)

(** A scripted world answers the calls, clock readings and identifier
    draws from three queues, whatever is asked. *)
Record Script : Type := {
  answers : list Settled;
  times : list Z;
  identifiers : list string
}.

#[export] Instance ScriptDriver : Driver Script := {
  settle _ w :=
    match answers w with
    | r :: rest =>
        (r, {| answers := rest; times := times w;
               identifiers := identifiers w |})
    | [] => (Rejected "spawn ENOENT", w)
    end;
  date_now w :=
    match times w with
    | now :: rest =>
        (now, {| answers := answers w; times := rest;
                 identifiers := identifiers w |})
    | [] => (0, w)
    end;
  generate_id w :=
    match identifiers w with
    | id :: rest =>
        (id, {| answers := answers w; times := times w;
                identifiers := rest |})
    | [] => ("0000000000", w)
    end
}.

(** A simulated host with the three command-line tools and a file system.
    [kind] and [k3d] each keep their own clusters; [kubectl] reaches a
    cluster through the context that the tool which made it registered
    ([kind-NAME], [k3d-NAME]). *)
Record Host : Type := {
  kind_clusters : list string;
  k3d_clusters : list string;
  files : JsMap.t string;
  time : Z;
  nanoid : list string
}.

Definition known (name : string) (names : list string) : bool :=
  existsb (String.eqb name) names.

Definition forget (name : string) (names : list string) : list string :=
  filter (fun n => negb (String.eqb n name)) names.

(** The table that [k3d cluster list] prints. *)
Definition k3d_table (names : list string) : string :=
  String.concat Js.newline
    ("NAME   SERVERS   AGENTS   LOADBALANCER"
     :: map (fun n => n ++ "   1/1       0/0      true") names).

(** The [name:] of a kind configuration document. *)
Definition config_name (config : string) : option string :=
  match filter (String.prefix "name: ") (Js.split config "010"%char) with
  | line :: _ => Some (substring 6 (String.length line - 6) line)
  | [] => None
  end.

Definition context_cluster (tool context : string) : option string :=
  if String.prefix (tool ++ "-") context
  then Some (substring (String.length tool + 1)
               (String.length context - (String.length tool + 1)) context)
  else None.

Definition host_kind (args : list string) (h : Host) : Settled * Host :=
  match args with
  | ["create"; "cluster"; "--config"; path] =>
      match JsMap.get (files h) path with
      | None => (Rejected "ERROR: failed to read config", h)
      | Some config =>
          match config_name config with
          | None => (Rejected "ERROR: invalid config", h)
          | Some name =>
              if known name (kind_clusters h)
              then (Rejected "ERROR: node(s) already exist for a cluster", h)
              else (Fulfilled "",
                    {| kind_clusters := kind_clusters h ++ [name];
                       k3d_clusters := k3d_clusters h; files := files h;
                       time := time h; nanoid := nanoid h |})
          end
      end
  | ["delete"; "cluster"; "--name"; name] =>
      (Fulfilled "",
       {| kind_clusters := forget name (kind_clusters h);
          k3d_clusters := k3d_clusters h; files := files h;
          time := time h; nanoid := nanoid h |})
  | _ => (Rejected "ERROR: unknown command", h)
  end.

Definition host_k3d (args : list string) (h : Host) : Settled * Host :=
  match args with
  | ["cluster"; "list"] => (Fulfilled (k3d_table (k3d_clusters h)), h)
  | ["cluster"; "list"; name] =>
      if known name (k3d_clusters h)
      then (Fulfilled (k3d_table [name]), h)
      else (Rejected "FATA No nodes found for given cluster", h)
  | "cluster" :: "create" :: name :: _ =>
      if known name (k3d_clusters h)
      then (Rejected "FATA a cluster with that name already exists", h)
      else (Fulfilled "",
            {| kind_clusters := kind_clusters h;
               k3d_clusters := k3d_clusters h ++ [name]; files := files h;
               time := time h; nanoid := nanoid h |})
  | ["cluster"; "delete"; name] =>
      (Fulfilled "",
       {| kind_clusters := kind_clusters h;
          k3d_clusters := forget name (k3d_clusters h); files := files h;
          time := time h; nanoid := nanoid h |})
  | _ => (Rejected "FATA unknown command", h)
  end.

Definition host_kubectl (args : list string) (h : Host) : Settled * Host :=
  match args with
  | "--context" :: context :: _ =>
      let reachable :=
        match context_cluster "k3d" context, context_cluster "kind" context with
        | Some name, _ => known name (k3d_clusters h)
        | None, Some name => known name (kind_clusters h)
        | None, None => false
        end in
      if reachable
      then (Fulfilled "No resources found in default namespace.", h)
      else (Rejected "error: context does not exist", h)
  | _ => (Rejected "error: no context", h)
  end.

#[export] Instance HostDriver : Driver Host := {
  settle call h :=
    match call with
    | Execa file args =>
        if String.eqb file "kind" then host_kind args h
        else if String.eqb file "k3d" then host_k3d args h
        else if String.eqb file "kubectl" then host_kubectl args h
        else (Rejected "spawn ENOENT", h)
    | WriteFile path data =>
        (Fulfilled "",
         {| kind_clusters := kind_clusters h; k3d_clusters := k3d_clusters h;
            files := JsMap.set (files h) path data;
            time := time h; nanoid := nanoid h |})
    | Unlink path =>
        match JsMap.get (files h) path with
        | Some _ =>
            (Fulfilled "",
             {| kind_clusters := kind_clusters h;
                k3d_clusters := k3d_clusters h;
                files := JsMap.delete (files h) path;
                time := time h; nanoid := nanoid h |})
        | None => (Rejected "ENOENT: no such file or directory", h)
        end
    end;
  date_now h := (time h, h);
  generate_id h :=
    match nanoid h with
    | id :: rest =>
        (id, {| kind_clusters := kind_clusters h;
                k3d_clusters := k3d_clusters h; files := files h;
                time := time h; nanoid := rest |})
    | [] => ("0000000000", h)
    end
}.

Definition fresh_host (ids : list string) : Host :=
  {| kind_clusters := []; k3d_clusters := []; files := JsMap.empty;
     time := 0; nanoid := ids |}.

(* ================================================================== *)
(** * Reading the record of awaited calls *)

(** The calls that reach the Cluster Driver (the command-line tools), as
    opposed to the file system. *)
Definition driver_call (call : Call) : bool :=
  match call with
  | Execa _ _ => true
  | _ => false
  end.

(** The driver's cluster-creation calls, of either tool. *)
Definition creation_call (call : Call) : bool :=
  match call with
  | Execa file ("cluster" :: "create" :: _) => String.eqb file "k3d"
  | Execa file ("create" :: "cluster" :: _) => String.eqb file "kind"
  | _ => false
  end.

(** The driver's deletion call for one cluster, of either tool. *)
Definition deletion_call (sandboxId : string) (call : Call) : bool :=
  match call with
  | Execa file ["cluster"; "delete"; name] =>
      String.eqb file "k3d" && String.eqb name sandboxId
  | Execa file ["delete"; "cluster"; "--name"; name] =>
      String.eqb file "kind" && String.eqb name sandboxId
  | _ => false
  end.

(** The driver's execute-in-context calls. *)
Definition exec_call (call : Call) : bool :=
  match call with
  | Execa file ("--context" :: _) => String.eqb file "kubectl"
  | _ => false
  end.

(** The tool a call is addressed to. *)
Definition tool (call : Call) : string :=
  match call with
  | Execa file _ => file
  | WriteFile _ _ => "fs"
  | Unlink _ => "fs"
  end.

Definition count {X : Type} (f : X -> bool) (l : list X) : nat :=
  length (filter f l).

(** The calls a process awaited after an earlier moment of its life. *)
Definition since {World : Type} (before after : Process World)
  : list (Call * Settled) :=
  skipn (length (calls before)) (calls after).

(** What the client holds after applying the [Set-Cookie] headers of a
    response to the cookie it sent. *)
Fixpoint client_cookie (held : option string) (ops : list CookieOp)
  : option string :=
  match ops with
  | [] => held
  | SetCookie _ value _ :: rest => client_cookie (Some value) rest
  | ClearCookie _ :: rest => client_cookie None rest
  end.

(** A property of the JSON document a response carried. *)
Definition answer_field (name : string) (res : Res) : option string :=
  match sent res with
  | Some doc => Js.field name doc
  | None => None
  end.

(* ================================================================== *)
(** * Concurrent requests

    Node runs one task at a time and switches tasks only where a task
    awaits.  A server state holds the process and the requests that are
    suspended on an awaited call or timer; an event either delivers a new
    request, which runs until it first suspends or answers, or settles what
    one suspended request awaits, which runs it to its next suspension or
    to its answer.  A client may close its connection while its request is
    suspended.  A last event stands for everything else that shares the
    process and the host: the cron job and the world outside may change
    the registry and the world between two events. *)

Inductive Endpoint : Type :=
| PostSandbox
| PostSandboxExec
| DeleteSandbox.

Inductive Suspended (A : Type) : Type :=
| OnCall (call : Call) (k : Settled -> Task A)
| OnTimer (ms : Z) (k : Task A).
Arguments OnCall {A} call k.
Arguments OnTimer {A} ms k.

Record Pending : Type := {
  endpoint : Endpoint;
  request : Request;
  suspended : Suspended Res
}.

Record Server (World : Type) : Type := {
  process : Process World;
  inflight : list Pending;
  outbox : list (Endpoint * Request * Res)
}.
Arguments process {World} s.
Arguments inflight {World} s.
Arguments outbox {World} s.

Inductive Event (World : Type) : Type :=
| Arrive (e : Endpoint) (req : Request)
| Settle (n : nat)
| Close (n : nat)
| Elsewhere (registry : JsMap.t Z -> JsMap.t Z) (outside : World -> World).
Arguments Arrive {World} e req.
Arguments Settle {World} n.
Arguments Close {World} n.

(** The connection of a suspended request is closed. *)
Definition hang_up {A : Type} (s : Suspended A) : Suspended A :=
  match s with
  | OnCall call k => OnCall call (fun r => disconnect (k r))
  | OnTimer ms k => OnTimer ms (disconnect k)
  end.
Arguments Elsewhere {World} registry outside.

Fixpoint remove_nth {X : Type} (n : nat) (l : list X) : list X :=
  match l, n with
  | [], _ => []
  | _ :: rest, O => rest
  | x :: rest, S n' => x :: remove_nth n' rest
  end.

Fixpoint replace_nth {X : Type} (n : nat) (y : X) (l : list X) : list X :=
  match l, n with
  | [], _ => []
  | _ :: rest, O => y :: rest
  | x :: rest, S n' => x :: replace_nth n' y rest
  end.

Section Serving.
Context {World : Type} `{Driver World}.

(** Run a task up to its next suspension point.  The connection is open
    unless the task was disconnected. *)
Fixpoint advance {A : Type} (t : Task A) (p : Process World)
  : (A + Suspended A) * Process World :=
  match t with
  | Ret a => (inl a, p)
  | Await call k => (inr (OnCall call k), p)
  | Sleep ms k => (inr (OnTimer ms k), p)
  | DateNow k =>
      let (now, w) := date_now (world p) in advance (k now) (with_world p w)
  | GenerateId k =>
      let (id, w) := generate_id (world p) in advance (k id) (with_world p w)
  | SandboxesEntries k => advance (k (JsMap.entries (sandboxes p))) p
  | SandboxesSet id createdAt k =>
      advance k (with_sandboxes p (JsMap.set (sandboxes p) id createdAt))
  | SandboxesDelete id k =>
      advance k (with_sandboxes p (JsMap.delete (sandboxes p) id))
  | LocksGet clientIp k =>
      advance (k (JsMap.get (creationLocks p) clientIp)) p
  | LocksSet clientIp v k =>
      advance k (with_locks p (JsMap.set (creationLocks p) clientIp v))
  | LocksDelete clientIp k =>
      advance k (with_locks p (JsMap.delete (creationLocks p) clientIp))
  | Connected k => advance (k true) p
  end.

(** What a suspended task awaits settles. *)
Definition wake {A : Type} (s : Suspended A) (p : Process World)
  : Task A * Process World :=
  match s with
  | OnCall call k => let (r, p') := awaited p call in (k r, p')
  | OnTimer _ k => (k, p)
  end.

Variable routes : Endpoint -> Request -> Task Res.

Definition step (ev : Event World) (s : Server World) : Server World :=
  match ev with
  | Arrive e req =>
      match advance (routes e req) (process s) with
      | (inl res, p) =>
          {| process := p; inflight := inflight s;
             outbox := outbox s ++ [(e, req, res)] |}
      | (inr susp, p) =>
          {| process := p;
             inflight := inflight s ++
               [{| endpoint := e; request := req; suspended := susp |}];
             outbox := outbox s |}
      end
  | Settle n =>
      match nth_error (inflight s) n with
      | None => s
      | Some pending =>
          let (t, p) := wake (suspended pending) (process s) in
          match advance t p with
          | (inl res, p') =>
              {| process := p'; inflight := remove_nth n (inflight s);
                 outbox := outbox s ++
                   [(endpoint pending, request pending, res)] |}
          | (inr susp, p') =>
              {| process := p';
                 inflight := replace_nth n
                   {| endpoint := endpoint pending;
                      request := request pending; suspended := susp |}
                   (inflight s);
                 outbox := outbox s |}
          end
      end
  | Close n =>
      match nth_error (inflight s) n with
      | None => s
      | Some pending =>
          {| process := process s;
             inflight := replace_nth n
               {| endpoint := endpoint pending; request := request pending;
                  suspended := hang_up (suspended pending) |}
               (inflight s);
             outbox := outbox s |}
      end
  | Elsewhere registry outside =>
      {| process :=
           {| sandboxes := registry (sandboxes (process s));
              creationLocks := creationLocks (process s);
              world := outside (world (process s));
              calls := calls (process s) |};
         inflight := inflight s; outbox := outbox s |}
  end.

Definition steps (evs : list (Event World)) (s : Server World)
  : Server World :=
  fold_left (fun s ev => step ev s) evs s.

Definition listening (w : World) : Server World :=
  {| process := boot w; inflight := []; outbox := [] |}.

End Serving.

Definition k3d_router (e : Endpoint) : Request -> Task Res :=
  match e with
  | PostSandbox => K3dServer.POST_sandbox
  | PostSandboxExec => K3dServer.POST_sandbox_exec
  | DeleteSandbox => K3dServer.DELETE_sandbox
  end.

Definition kind_router (e : Endpoint) : Request -> Task Res :=
  match e with
  | PostSandbox => KindServer.POST_sandbox
  | PostSandboxExec => KindServer.POST_sandbox_exec
  | DeleteSandbox => KindServer.DELETE_sandbox
  end.

(** A suspended request is a creation request of the client. *)
Definition is_creation (clientIp : string) (pending : Pending) : bool :=
  match endpoint pending with
  | PostSandbox => String.eqb (ip (request pending)) clientIp
  | _ => false
  end.

(** The creation requests of one client that are in flight. *)
Definition creating (clientIp : string) (l : list Pending) : nat :=
  count (is_creation clientIp) l.

(** A task that never touches [creationLocks], suspends at most [n] times
    and returns only values satisfying [P]. *)
Inductive LockFree {A : Type} (P : A -> Prop) : nat -> Task A -> Prop :=
| LockFree_Ret n a : P a -> LockFree P n (Ret a)
| LockFree_Await n call k :
    (forall r, LockFree P n (k r)) -> LockFree P (S n) (Await call k)
| LockFree_Sleep n ms k : LockFree P n k -> LockFree P (S n) (Sleep ms k)
| LockFree_DateNow n k :
    (forall now, LockFree P n (k now)) -> LockFree P n (DateNow k)
| LockFree_GenerateId n k :
    (forall id, LockFree P n (k id)) -> LockFree P n (GenerateId k)
| LockFree_SandboxesEntries n k :
    (forall es, LockFree P n (k es)) -> LockFree P n (SandboxesEntries k)
| LockFree_SandboxesSet n id createdAt k :
    LockFree P n k -> LockFree P n (SandboxesSet id createdAt k)
| LockFree_SandboxesDelete n id k :
    LockFree P n k -> LockFree P n (SandboxesDelete id k)
| LockFree_Connected n k :
    (forall open, LockFree P n (k open)) -> LockFree P n (Connected k).

(** A task that holds the creation lock of [clientIp]: it suspends at most
    [n] times and touches no lock on the way; as its last act it ends the
    response, and then deletes that lock, and only that one, if the
    connection is open, and no lock at all if it is closed. *)
Inductive Releasing (clientIp : string) : nat -> Task Res -> Prop :=
| Releasing_now n k res :
    k true = LocksDelete clientIp (Ret res) -> k false = Ret res ->
    Releasing clientIp n (Connected k)
| Releasing_Await n call k :
    (forall r, Releasing clientIp n (k r)) ->
    Releasing clientIp (S n) (Await call k)
| Releasing_Sleep n ms k :
    Releasing clientIp n k -> Releasing clientIp (S n) (Sleep ms k)
| Releasing_DateNow n k :
    (forall now, Releasing clientIp n (k now)) ->
    Releasing clientIp n (DateNow k)
| Releasing_GenerateId n k :
    (forall id, Releasing clientIp n (k id)) ->
    Releasing clientIp n (GenerateId k)
| Releasing_SandboxesEntries n k :
    (forall es, Releasing clientIp n (k es)) ->
    Releasing clientIp n (SandboxesEntries k)
| Releasing_SandboxesSet n id createdAt k :
    Releasing clientIp n k -> Releasing clientIp n (SandboxesSet id createdAt k)
| Releasing_SandboxesDelete n id k :
    Releasing clientIp n k -> Releasing clientIp n (SandboxesDelete id k)
| Releasing_Connected n k :
    (forall open, Releasing clientIp n (k open)) ->
    Releasing clientIp n (Connected k).

(** A task that leaves the creation lock of [clientIp] held, when it runs
    in a process in which that lock is held: it may read it, and may set
    and delete the locks of other clients. *)
Inductive Keeps (clientIp : string) {A : Type} : Task A -> Prop :=
| Keeps_Ret a : Keeps clientIp (Ret a)
| Keeps_Await call k :
    (forall r, Keeps clientIp (k r)) -> Keeps clientIp (Await call k)
| Keeps_Sleep ms k : Keeps clientIp k -> Keeps clientIp (Sleep ms k)
| Keeps_DateNow k :
    (forall now, Keeps clientIp (k now)) -> Keeps clientIp (DateNow k)
| Keeps_GenerateId k :
    (forall id, Keeps clientIp (k id)) -> Keeps clientIp (GenerateId k)
| Keeps_SandboxesEntries k :
    (forall es, Keeps clientIp (k es)) -> Keeps clientIp (SandboxesEntries k)
| Keeps_SandboxesSet id createdAt k :
    Keeps clientIp k -> Keeps clientIp (SandboxesSet id createdAt k)
| Keeps_SandboxesDelete id k :
    Keeps clientIp k -> Keeps clientIp (SandboxesDelete id k)
| Keeps_LocksGet_own k :
    Keeps clientIp (k (Some true)) -> Keeps clientIp (LocksGet clientIp k)
| Keeps_LocksGet other k :
    (forall held, Keeps clientIp (k held)) -> Keeps clientIp (LocksGet other k)
| Keeps_LocksSet other v k :
    other <> clientIp -> Keeps clientIp k -> Keeps clientIp (LocksSet other v k)
| Keeps_LocksDelete other k :
    other <> clientIp -> Keeps clientIp k ->
    Keeps clientIp (LocksDelete other k)
| Keeps_Connected k :
    (forall open, Keeps clientIp (k open)) -> Keeps clientIp (Connected k).

(** The shape of a guarded route: it reads the client's lock; if the lock
    is held it answers at once with status 429, else it takes the lock and
    goes on as a task that releases it. *)
Inductive Admission (clientIp : string) (n : nat) : Task Res -> Prop :=
| Admission_intro k :
    (exists res,
       k (Some true) = emit_finish res /\ finishListeners res = [] /\
       statusCode res = 429) ->
    (forall held, held <> Some true ->
       exists t, k held = LocksSet clientIp true t /\ Releasing clientIp n t) ->
    Admission clientIp n (LocksGet clientIp k).

(** How the suspended requests stand with respect to the locks. *)
Definition suspended_task {A : Type} (Q : nat -> Task A -> Prop) (n : nat)
  (s : Suspended A) : Prop :=
  match s with
  | OnCall _ k => forall r, Q n (k r)
  | OnTimer _ k => Q n k
  end.

Definition well_suspended (bound : nat) (pending : Pending) : Prop :=
  match endpoint pending with
  | PostSandbox =>
      exists n, (n < bound)%nat /\
        suspended_task (Releasing (ip (request pending))) n (suspended pending)
  | _ =>
      exists n, suspended_task (LockFree (fun _ => True)) n (suspended pending)
  end.

(** The admission invariant: per client, either no creation is in flight
    and no lock is held, or exactly one is in flight and the lock is held. *)
Definition admission_invariant {World : Type} (bound : nat) (s : Server World)
  : Prop :=
  Forall (well_suspended bound) (inflight s) /\
  forall clientIp,
    (creating clientIp (inflight s) = 0%nat /\
     JsMap.get (creationLocks (process s)) clientIp = None) \/
    (creating clientIp (inflight s) = 1%nat /\
     JsMap.get (creationLocks (process s)) clientIp = Some true).

(** The events in which no client closes its connection. *)
Definition stays_connected {World : Type} (ev : Event World) : bool :=
  match ev with
  | Close _ => false
  | _ => true
  end.

(** The client is locked out: its lock is held, and no request in flight
    is going to release it. *)
Definition locked_out {World : Type} (clientIp : string) (s : Server World)
  : Prop :=
  JsMap.get (creationLocks (process s)) clientIp = Some true /\
  Forall
    (fun pending =>
       suspended_task (fun _ => Keeps clientIp) 0 (suspended pending))
    (inflight s).

(* ================================================================== *)
(** * The two revisions side by side *)

Inductive Revision : Type :=
| Kind   (* src/backend/src/server.js *)
| K3d.   (* src/unnamed/part_000 *)

Definition router (r : Revision) : Endpoint -> Request -> Task Res :=
  match r with
  | Kind => kind_router
  | K3d => k3d_router
  end.

Definition validateSandbox (r : Revision) : Request -> Res -> Task Verdict :=
  match r with
  | Kind => KindServer.validateSandbox
  | K3d => K3dServer.validateSandbox
  end.

Definition createCluster (r : Revision) : string -> Async bool :=
  match r with
  | Kind => KindServer.createCluster
  | K3d => K3dServer.createCluster
  end.

Definition provision (r : Revision) : Res -> Task Res :=
  match r with
  | Kind => KindServer.provision
  | K3d => K3dServer.provision
  end.

Definition cleanupExpiredSandboxes (r : Revision) : Task unit :=
  match r with
  | Kind => KindServer.cleanupExpiredSandboxes
  | K3d => K3dServer.cleanupExpiredSandboxes
  end.

Definition SANDBOX_LIFETIME_MS : Z := 60 * 60 * 1000.

(** The call by which each revision asks the driver whether a sandbox
    exists, and the call by which it deletes a cluster. *)
Definition list_call (r : Revision) (sandboxId : string) : Call :=
  match r with
  | Kind => Execa "k3d" ["cluster"; "list"; sandboxId]
  | K3d => Execa "k3d" ["cluster"; "list"]
  end.

Definition delete_call (r : Revision) (sandboxId : string) : Call :=
  match r with
  | Kind => Execa "kind" ["delete"; "cluster"; "--name"; sandboxId]
  | K3d => Execa "k3d" ["cluster"; "delete"; sandboxId]
  end.

(** A request that carries the session cookie [sandboxId]. *)
Definition bearer (clientIp sandboxId : string) (command : option string)
  : Request :=
  {| ip := clientIp; cookies_sandboxId := Some sandboxId;
     body := posted command |}.

(** The command text that a request brings: a string that is not empty,
    under [command] in a body that was parsed. *)
Definition command_text (req : Request) : option string :=
  match Js.destructure "command" "req.body" (body req) with
  | Js.Normal (Js.Text text) => if String.eqb text "" then None else Some text
  | _ => None
  end.

(** [validate(sandboxId)] returns live in world [w]: the middleware
    [validateSandbox] hands the request on. *)
Definition validates_live {World : Type} `{Driver World} (r : Revision)
  (sandboxId : string) (w : World) : Prop :=
  exists res p,
    run (validateSandbox r (bearer "" sandboxId None) new_res) (boot w)
    = (Next res, p).

(** Some line of the listing contains the identifier. *)
Definition listed (sandboxId stdout : string) : bool :=
  existsb (fun line => Js.includes line sandboxId)
          (Js.split stdout "010"%char).

Definition expired (now : Z) (entry : string * Z) : bool :=
  now - snd entry >? SANDBOX_LIFETIME_MS.

Definition unique_keys {V : Type} (m : JsMap.t V) : Prop :=
  NoDup (map fst m).

Definition lock_held {World : Type} (p : Process World) (clientIp : string)
  : Prop :=
  JsMap.get (creationLocks p) clientIp = Some true.

(** The answer of the create route when it reuses the sandbox of the
    cookie: the response of a request that passed the admission guard, with
    the document of the reuse branch. *)
Definition reused (clientIp sandboxId : string) : Res :=
  json (on_finish new_res (LocksDelete clientIp (Ret tt)))
    [("message", "Using existing sandbox");
     ("sandboxId", sandboxId);
     ("expiresIn", "60 minutes")].

(** The listing calls, by which the server asks whether a sandbox
    exists. *)
Definition listing_call (call : Call) : bool :=
  match call with
  | Execa file ("cluster" :: "list" :: _) => String.eqb file "k3d"
  | _ => false
  end.

Definition fulfilled (c : Call * Settled) : bool :=
  match snd c with
  | Fulfilled _ => true
  | Rejected _ => false
  end.

(** What the reuse check of the create route leaves behind before a new
    sandbox is provisioned: the call it awaited, if any, and the registry.
    Without a cookie nothing is asked; a listing that fails removes the
    cookie's entry from the registry; a listing of the k3d revision that
    succeeds without showing the sandbox changes nothing. *)
Inductive Prechecked (r : Revision) (req : Request) (m : JsMap.t Z)
  : list (Call * Settled) -> JsMap.t Z -> Prop :=
| Prechecked_no_cookie :
    Js.truthy (cookies_sandboxId req) = false ->
    Prechecked r req m [] m
| Prechecked_rejected id message :
    cookies_sandboxId req = Some id -> id <> "" ->
    Prechecked r req m [(list_call r id, Rejected message)] (JsMap.delete m id)
| Prechecked_unlisted id stdout :
    cookies_sandboxId req = Some id -> id <> "" ->
    r = K3d -> listed id stdout = false ->
    Prechecked r req m [(list_call r id, Fulfilled stdout)] m.

(** The three ways in which a create request that passed the admission
    guard ends: it reuses the sandbox of its cookie, it provisions a new
    one, or provisioning fails. *)
Inductive CreateOutcome {World : Type} (r : Revision) (req : Request)
  (p : Process World) (res : Res) (p' : Process World) : Prop :=
| Reused id stdout :
    cookies_sandboxId req = Some id -> id <> "" ->
    (r = K3d -> listed id stdout = true) ->
    calls p' = (calls p ++ [(list_call r id, Fulfilled stdout)])%list ->
    sandboxes p' = sandboxes p ->
    statusCode res = 200 ->
    setCookies res = [] ->
    answer_field "message" res = Some "Using existing sandbox" ->
    answer_field "sandboxId" res = Some id ->
    CreateOutcome r req p res p'
| Created pre registry generated now made :
    Prechecked r req (sandboxes p) pre registry ->
    calls p' = (calls p ++ pre ++ made)%list ->
    forallb fulfilled made = true ->
    count (fun c => creation_call (fst c)) made = 1%nat ->
    (forall c k, In c made -> deletion_call k (fst c) = false) ->
    sandboxes p' = JsMap.set registry ("sb-" ++ generated) now ->
    statusCode res = 200 ->
    client_cookie (cookies_sandboxId req) (setCookies res)
      = Some ("sb-" ++ generated) ->
    answer_field "message" res = Some "Sandbox created successfully" ->
    answer_field "sandboxId" res = Some ("sb-" ++ generated) ->
    CreateOutcome r req p res p'
| Failed pre registry made call message :
    Prechecked r req (sandboxes p) pre registry ->
    calls p' = (calls p ++ pre ++ made ++ [(call, Rejected message)])%list ->
    forallb fulfilled made = true ->
    listing_call call = false ->
    (forall c k, In c (made ++ [(call, Rejected message)]) ->
                 deletion_call k (fst c) = false) ->
    sandboxes p' = registry ->
    statusCode res = 500 ->
    answer_field "error" res = Some ("Failed to create cluster: " ++ message) ->
    CreateOutcome r req p res p'.

(** What one turn of the sweeper's loop does with an entry: nothing when
    the entry has not exceeded the lifetime; else it awaits the driver's
    deletion call and removes the entry if that call is fulfilled. *)
Definition sweeps_entry {World : Type} `{Driver World} (r : Revision) (now : Z)
  (body : string * Z -> Task unit) : Prop :=
  forall (e : string * Z) (q : Process World),
    let q' := snd (run (body e) q) in
    if expired now e then
      exists outcome,
        creationLocks q' = creationLocks q /\
        calls q' = (calls q ++ [(delete_call r (fst e), outcome)])%list /\
        sandboxes q' = match outcome with
                       | Fulfilled _ => JsMap.delete (sandboxes q) (fst e)
                       | Rejected _ => sandboxes q
                       end
    else q' = q.

(** The [kubectl] context under which each revision reaches a sandbox, and
    the call by which it executes a command there. *)
Definition context_of (r : Revision) (sandboxId : string) : string :=
  match r with
  | Kind => "kind-" ++ sandboxId
  | K3d => "k3d-" ++ sandboxId
  end.

Definition kubectl_call (r : Revision) (sandboxId command : string) : Call :=
  Execa "kubectl"
    ("--context" :: context_of r sandboxId :: Js.split command " "%char).

Definition deleteCluster (r : Revision) : string -> Async unit :=
  match r with
  | Kind => KindServer.deleteCluster
  | K3d => K3dServer.deleteCluster
  end.

Definition post_sandbox_exec (r : Revision) : Request -> Res -> Task Res :=
  match r with
  | Kind => KindServer.post_sandbox_exec
  | K3d => K3dServer.post_sandbox_exec
  end.

Definition delete_sandbox (r : Revision) : Request -> Res -> Task Res :=
  match r with
  | Kind => KindServer.delete_sandbox
  | K3d => K3dServer.delete_sandbox
  end.

(** [t] occurs in [s]. *)
Definition occurs_in (t s : string) : Prop :=
  exists before after, s = before ++ t ++ after.

(** The characters of a string. *)
Fixpoint characters (s : string) : list ascii :=
  match s with
  | EmptyString => []
  | String c rest => c :: characters rest
  end.

(** The answer of [validateSandbox] for a sandbox it found dead, and the
    answers of the routes without cookie and of a failed handler. *)
Definition not_found (res : Res) : Res :=
  json (status (clearCookie res "sandboxId") 404)
    [("error", "Sandbox not found or expired.")].

(** The file in which the kind revision hands the cluster configuration to
    [kind]. *)
Definition configPath (sandboxId : string) : string :=
  "/tmp/" ++ sandboxId ++ "-config.yaml".

(* ================================================================== *)
(** * Facts about maps and lists *)

Lemma get_set_same {V : Type} (m : JsMap.t V) key value :
  JsMap.get (JsMap.set m key value) key = Some value.
Proof.
  induction m as [|[k v] rest IH]; simpl.
  - now rewrite String.eqb_refl.
  - destruct (String.eqb k key) eqn:E; simpl; rewrite E; auto.
Qed.

Lemma get_set_other {V : Type} (m : JsMap.t V) key key' value :
  key' <> key -> JsMap.get (JsMap.set m key value) key' = JsMap.get m key'.
Proof.
  intros Hne. induction m as [|[k v] rest IH]; simpl.
  - destruct (String.eqb_spec key key'); congruence.
  - destruct (String.eqb_spec k key); simpl.
    + subst. destruct (String.eqb_spec key key'); congruence.
    + now rewrite IH.
Qed.

Lemma get_delete_same {V : Type} (m : JsMap.t V) key :
  JsMap.get (JsMap.delete m key) key = None.
Proof.
  induction m as [|[k v] rest IH]; simpl; auto.
  destruct (String.eqb k key) eqn:E; simpl; try rewrite E; auto.
Qed.

Lemma get_delete_other {V : Type} (m : JsMap.t V) key key' :
  key' <> key -> JsMap.get (JsMap.delete m key) key' = JsMap.get m key'.
Proof.
  intros Hne. induction m as [|[k v] rest IH]; simpl; auto.
  destruct (String.eqb_spec k key); simpl.
  - subst. destruct (String.eqb_spec key key'); congruence.
  - now rewrite IH.
Qed.

Lemma get_delete_None {V : Type} (m : JsMap.t V) key key' :
  JsMap.get m key' = None -> JsMap.get (JsMap.delete m key) key' = None.
Proof.
  intros Hnone. destruct (String.eqb_spec key' key) as [->|Hne].
  - apply get_delete_same.
  - now rewrite get_delete_other.
Qed.

Lemma delete_delete {V : Type} (m : JsMap.t V) key :
  JsMap.delete (JsMap.delete m key) key = JsMap.delete m key.
Proof.
  induction m as [|[k v] rest IH]; simpl; auto.
  destruct (String.eqb k key) eqn:E; simpl; try rewrite E; congruence.
Qed.

Lemma get_present {V : Type} (m : JsMap.t V) key value :
  unique_keys m -> In (key, value) m -> JsMap.get m key = Some value.
Proof.
  unfold unique_keys.
  induction m as [|[k v] rest IH]; simpl; [tauto|].
  intros Hnd [Heq|Hin]; inversion Hnd as [|? ? Hk Hrest]; subst.
  - inversion Heq; subst. now rewrite String.eqb_refl.
  - destruct (String.eqb_spec k key) as [->|Hne]; auto.
    exfalso. apply Hk. change key with (fst (key, value)). now apply in_map.
Qed.

Lemma set_keys {V : Type} (m : JsMap.t V) key value :
  map fst (JsMap.set m key value)
  = if existsb (String.eqb key) (map fst m) then map fst m
    else (map fst m ++ [key])%list.
Proof.
  induction m as [|[k v] rest IH]; cbn; auto.
  rewrite (String.eqb_sym key k).
  destruct (String.eqb k key); cbn; auto.
  rewrite IH. destruct (existsb _ _); reflexivity.
Qed.

Lemma set_unique {V : Type} (m : JsMap.t V) key value :
  unique_keys m -> unique_keys (JsMap.set m key value).
Proof.
  unfold unique_keys. rewrite set_keys.
  destruct (existsb (String.eqb key) (map fst m)) eqn:E; auto.
  intros Hnd. apply NoDup_app; auto.
  - constructor; [intros []|constructor].
  - intros k Hin [<-|[]].
    assert (existsb (String.eqb key) (map fst m) = true); [|congruence].
    apply existsb_exists. exists key. split; auto. apply String.eqb_refl.
Qed.

Lemma delete_unique {V : Type} (m : JsMap.t V) key :
  unique_keys m -> unique_keys (JsMap.delete m key).
Proof.
  unfold unique_keys. induction m as [|[k v] rest IH]; cbn; auto.
  intros Hnd. inversion Hnd as [|? ? Hk Hrest]; subst.
  destruct (String.eqb k key); cbn; auto.
  constructor; auto. intros Hin. apply Hk.
  clear - Hin. induction rest as [|[k' v'] rest IH]; cbn in *; auto.
  destruct (String.eqb k' key); cbn in *; tauto.
Qed.

Lemma skipn_app_exact {X : Type} (l l' : list X) :
  skipn (length l) (l ++ l') = l'.
Proof. induction l; simpl; auto. Qed.

(* ================================================================== *)
(** * The embedding at work *)

Example split_command :
  Js.split "get pods  -A" " "%char = ["get"; "pods"; ""; "-A"].
Proof. reflexivity. Qed.

Example split_empty : Js.split "" " "%char = [""].
Proof. reflexivity. Qed.

Example includes_line :
  Js.includes "sb-abc1234567   1/1       0/0      true" "sb-abc1234567" = true
  /\ Js.includes "NAME   SERVERS   AGENTS   LOADBALANCER" "sb-abc1234567" = false.
Proof. split; reflexivity. Qed.

Example expiresIn_text :
  K3dServer.expiresIn = "60 minutes" /\ KindServer.expiresIn = "60 minutes".
Proof. split; reflexivity. Qed.

Example map_keeps_insertion_order :
  JsMap.set (JsMap.set (JsMap.set JsMap.empty "a" 1) "b" 2) "a" 3
  = [("a", 3); ("b", 2)].
Proof. reflexivity. Qed.

(** A sandbox of the k3d revision from creation to deletion on the
    simulated host: create, execute, reuse, delete, and the cookie is dead. *)
Example k3d_lifecycle :
  let client :=
    {| ip := "10.0.0.7"; cookies_sandboxId := None; body := posted None |} in
  let token command := bearer "10.0.0.7" "sb-abc1234567" command in
  let '(created, p1) :=
    run (K3dServer.POST_sandbox client) (boot (fresh_host ["abc1234567"])) in
  let '(executed, p2) :=
    run (K3dServer.POST_sandbox_exec (token (Some "get pods"))) p1 in
  let '(again, p3) := run (K3dServer.POST_sandbox (token None)) p2 in
  let '(deleted, p4) := run (K3dServer.DELETE_sandbox (token None)) p3 in
  let '(gone, p5) :=
    run (K3dServer.POST_sandbox_exec (token (Some "get pods"))) p4 in
  map statusCode [created; executed; again; deleted; gone]
    = [200; 200; 200; 200; 404] /\
  answer_field "sandboxId" again = Some "sb-abc1234567" /\
  sandboxes p3 = [("sb-abc1234567", 0)] /\
  sandboxes p5 = [] /\
  k3d_clusters (world p5) = [] /\
  creationLocks p5 = [].
Proof. vm_compute. repeat split; reflexivity. Qed.

(* ================================================================== *)
(** * Validation *)

Lemma filter_nonempty {X : Type} (f : X -> bool) (l : list X) :
  (length (filter f l) =? 0)%nat = negb (existsb f l).
Proof.
  induction l as [|x rest IH]; simpl; auto.
  destruct (f x); simpl; auto.
Qed.

Lemma filter_positive {X : Type} (f : X -> bool) (l : list X) :
  (0 <? length (filter f l))%nat = existsb f l.
Proof.
  induction l as [|x rest IH]; simpl; auto.
  destruct (f x); simpl; auto.
Qed.

Lemma truthy_Some id : id <> "" -> Js.truthy (Some id) = true.
Proof.
  intros Hne. simpl. destruct (String.eqb_spec id ""); simpl; congruence.
Qed.

Lemma to_boolean_Text command :
  command <> "" -> Js.to_boolean (Js.Text command) = true.
Proof.
  intros Hne. simpl. destruct (String.eqb_spec command ""); simpl; congruence.
Qed.

(** The command of a posted body. *)
Lemma destructure_posted command :
  Js.destructure "command" "req.body" (posted command)
  = Js.Normal match command with
              | Some text => Js.Text text
              | None => Js.Absent
              end.
Proof. destruct command; reflexivity. Qed.

(** In the k3d revision a sandbox validates as live exactly when the
    driver's listing succeeds and one of its lines contains the
    identifier. *)
Lemma k3d_validates_live_iff {World : Type} `{Driver World} (w : World) id :
  id <> "" ->
  validates_live K3d id w <->
  exists stdout w',
    settle (Execa "k3d" ["cluster"; "list"]) w = (Fulfilled stdout, w') /\
    listed id stdout = true.
Proof.
  intros Hne. unfold validates_live, listed. simpl.
  unfold K3dServer.validateSandbox. simpl cookies_sandboxId.
  rewrite (truthy_Some id Hne). simpl. unfold awaited. simpl.
  destruct (settle (Execa "k3d" ["cluster"; "list"]) w) as [[stdout|msg] w'].
  - rewrite filter_nonempty.
    destruct (existsb _ _) eqn:E; simpl.
    + split; eauto.
    + split.
      * intros (res & p & Hrun). discriminate.
      * intros (out & w2 & Heq & Hl). inversion Heq; subst. congruence.
  - simpl. split.
    + intros (res & p & Hrun). discriminate.
    + intros (out & w2 & Heq & _). discriminate.
Qed.

(** In the kind revision a sandbox validates as live exactly when
    [k3d cluster list ID] succeeds. *)
Lemma kind_validates_live_iff {World : Type} `{Driver World} (w : World) id :
  id <> "" ->
  validates_live Kind id w <->
  exists stdout w',
    settle (Execa "k3d" ["cluster"; "list"; id]) w = (Fulfilled stdout, w').
Proof.
  intros Hne. unfold validates_live. simpl.
  unfold KindServer.validateSandbox. simpl cookies_sandboxId.
  rewrite (truthy_Some id Hne). simpl. unfold awaited. simpl.
  destruct (settle (Execa "k3d" ["cluster"; "list"; id]) w) as [[stdout|msg] w'];
    simpl.
  - split; eauto.
  - split.
    + intros (res & p & Hrun). discriminate.
    + intros (out & w2 & Heq). discriminate.
Qed.

(** Normalise the record of calls of a finished run. *)
Ltac since_simpl :=
  unfold since; cbn [calls snd fst with_sandboxes with_locks with_world];
  repeat rewrite <- app_assoc; cbn [app];
  first [rewrite skipn_app_exact | rewrite skipn_all | idtac].

(** Settle the call the run awaits next, in both ways. *)
Ltac next_call :=
  unfold awaited; cbn [world with_sandboxes with_locks with_world];
  match goal with
  | |- context [settle ?c ?w] =>
      let o := fresh "stdout" in
      let m := fresh "message" in
      let w' := fresh "w" in
      let E := fresh "Hsettle" in
      destruct (settle c w) as [[o|m] w'] eqn:E; simpl
  end.

Ltac next_clock :=
  cbn [world with_sandboxes with_locks with_world];
  match goal with
  | |- context [date_now ?w] =>
      let now := fresh "now" in
      let w' := fresh "w" in
      let E := fresh "Hnow" in
      destruct (date_now w) as [now w'] eqn:E; simpl
  end.

(** The kind revision creates and deletes clusters with [kind] but asks
    [k3d] whether they exist. *)
Lemma kind_revision_asks_another_tool {World : Type} `{Driver World}
  (p : Process World) (id : string) (req : Request) (res : Res) :
  Forall (fun c => tool (fst c) <> "k3d")
         (since p (snd (run (KindServer.createCluster id) p))) /\
  Forall (fun c => tool (fst c) <> "k3d")
         (since p (snd (run (KindServer.deleteCluster id) p))) /\
  Forall (fun c => tool (fst c) = "k3d")
         (since p (snd (run (KindServer.validateSandbox req res) p))).
Proof.
  repeat split.
  - unfold KindServer.createCluster. simpl.
    do 3 (next_call; [|since_simpl; repeat constructor; discriminate]).
    next_clock. since_simpl; repeat constructor; discriminate.
  - unfold KindServer.deleteCluster. simpl.
    next_call; since_simpl; repeat constructor; discriminate.
  - unfold KindServer.validateSandbox.
    destruct (negb _); simpl.
    + since_simpl. constructor.
    + next_call; since_simpl; repeat constructor.
Qed.

(** C1 (evaluation at the failing input).  On a host where [kind] and
    [k3d] keep their own clusters, the kind revision creates the sandbox
    [sb-abc1234567] with [kind], answers 200 and hands out the cookie; the
    validation of that very cookie then asks [k3d], which has no such
    cluster, and answers 404 -- whereas the k3d revision, on the same host,
    validates the sandbox it created. *)
Theorem C1_kind_revision_validates_against_other_driver :
  let client :=
    {| ip := "10.0.0.7"; cookies_sandboxId := None; body := posted None |} in
  let host := fresh_host ["abc1234567"] in
  let kind_created := run (KindServer.POST_sandbox client) (boot host) in
  let k3d_created := run (K3dServer.POST_sandbox client) (boot host) in
  (statusCode (fst kind_created) = 200 /\
   answer_field "sandboxId" (fst kind_created) = Some "sb-abc1234567" /\
   kind_clusters (world (snd kind_created)) = ["sb-abc1234567"] /\
   exists res p,
     run (KindServer.validateSandbox
            (bearer "10.0.0.7" "sb-abc1234567" None) new_res)
         (snd kind_created) = (Answered res, p) /\
     statusCode res = 404) /\
  (statusCode (fst k3d_created) = 200 /\
   answer_field "sandboxId" (fst k3d_created) = Some "sb-abc1234567" /\
   k3d_clusters (world (snd k3d_created)) = ["sb-abc1234567"] /\
   exists res p,
     run (K3dServer.validateSandbox
            (bearer "10.0.0.7" "sb-abc1234567" None) new_res)
         (snd k3d_created) = (Next res, p)).
Proof.
  cbv zeta. split.
  - repeat split; try reflexivity.
    eexists. eexists. split; [vm_compute; reflexivity | reflexivity].
  - repeat split; try reflexivity.
    eexists. eexists. vm_compute. reflexivity.
Qed.

(* ================================================================== *)
(** * Reuse of a live sandbox *)

(** A create request whose cookie names a sandbox that validates as live
    asks the driver for its listing and nothing else, answers with that
    sandbox, and leaves the registry as it was. *)
Lemma reuse_once {World : Type} `{Driver World} (r : Revision)
  (p : Process World) (clientIp id : string) (command : option string) :
  id <> "" ->
  ~ lock_held p clientIp ->
  validates_live r id (world p) ->
  exists stdout w' res,
    settle (list_call r id) (world p) = (Fulfilled stdout, w') /\
    run (router r PostSandbox (bearer clientIp id command)) p =
      (res,
       {| sandboxes := sandboxes p;
          creationLocks :=
            JsMap.delete (JsMap.set (creationLocks p) clientIp true) clientIp;
          world := w';
          calls := calls p ++ [(list_call r id, Fulfilled stdout)] |}) /\
    res = reused clientIp id /\
    statusCode res = 200 /\
    setCookies res = [] /\
    answer_field "message" res = Some "Using existing sandbox" /\
    answer_field "sandboxId" res = Some id.
Proof.
  intros Hne Hfree Hlive.
  assert (Hget : forall (X : Type) (a b : X),
             match JsMap.get (creationLocks p) clientIp with
             | Some true => a
             | _ => b
             end = b).
  { intros X a b. unfold lock_held in Hfree.
    destruct (JsMap.get (creationLocks p) clientIp) as [[|]|]; congruence. }
  destruct r.
  - apply kind_validates_live_iff in Hlive; auto.
    destruct Hlive as (stdout & w' & Hsettle).
    exists stdout, w', (reused clientIp id). split; [exact Hsettle|].
    cbn [router kind_router]. unfold KindServer.POST_sandbox, route,
      KindServer.preventConcurrentRequests, KindServer.post_sandbox.
    cbn [bearer ip cookies_sandboxId]. rewrite (truthy_Some id Hne).
    cbn [bind run]. rewrite Hget. cbn [bind run Js.text].
    unfold awaited. cbn [with_locks world list_call] in *.
    rewrite Hsettle. cbn.
    repeat split; reflexivity.
  - apply k3d_validates_live_iff in Hlive; auto.
    destruct Hlive as (stdout & w' & Hsettle & Hlisted).
    exists stdout, w', (reused clientIp id). split; [exact Hsettle|].
    cbn [router k3d_router]. unfold K3dServer.POST_sandbox, route,
      K3dServer.preventConcurrentRequests, K3dServer.post_sandbox.
    cbn [bearer ip cookies_sandboxId]. rewrite (truthy_Some id Hne).
    cbn [bind run]. rewrite Hget. cbn [bind run Js.text].
    unfold awaited. cbn [with_locks world list_call] in *.
    rewrite Hsettle. rewrite filter_positive.
    unfold listed in Hlisted. rewrite Hlisted. cbn.
    repeat split; reflexivity.
Qed.

(* ================================================================== *)
(** * Running the create route *)

Lemma run_bind {World : Type} `{Driver World} {A B : Type}
  (t : Task A) (f : A -> Task B) (p : Process World) :
  run (bind t f) p = let (a, p') := run t p in run (f a) p'.
Proof.
  revert p. induction t as
    [a|call k IH|ms k IH|k IH|k IH|k IH|id at_ k IH|id k IH|ip k IH
    |ip v k IH|ip k IH|k IH]; intros p; cbn [bind run]; auto.
  - destruct (awaited p call) as [r p']. apply IH.
  - destruct (date_now (world p)) as [now w]. apply IH.
  - destruct (generate_id (world p)) as [id w]. apply IH.
Qed.

(** Whatever task runs, the registry keeps one entry per key. *)
Lemma run_unique_keys {World : Type} `{Driver World} {A : Type}
  (t : Task A) (p : Process World) :
  unique_keys (sandboxes p) -> unique_keys (sandboxes (snd (run t p))).
Proof.
  revert p. induction t as
    [a|call k IH|ms k IH|k IH|k IH|k IH|id at_ k IH|id k IH|ip k IH
    |ip v k IH|ip k IH|k IH]; intros p Hu; cbn [run]; auto.
  - unfold awaited. destruct (settle call (world p)) as [r w]. now apply IH.
  - destruct (date_now (world p)) as [now w]. now apply IH.
  - destruct (generate_id (world p)) as [id w]. now apply IH.
  - apply IH. now apply set_unique.
  - apply IH. now apply delete_unique.
Qed.

Lemma calls2 {X : Type} (l : list X) (a b : X) :
  ((l ++ [a]) ++ [b] = l ++ [a; b])%list.
Proof. now rewrite <- app_assoc. Qed.

Lemma calls3 {X : Type} (l : list X) (a b c : X) :
  (((l ++ [a]) ++ [b]) ++ [c] = l ++ [a; b; c])%list.
Proof. now rewrite <- !app_assoc. Qed.

Lemma snoc0 {X : Type} (l : list X) (x : X) : (l ++ [x] = l ++ [] ++ [x])%list.
Proof. reflexivity. Qed.

Lemma snoc1 {X : Type} (l : list X) (a x : X) :
  (l ++ [a; x] = l ++ [a] ++ [x])%list.
Proof. reflexivity. Qed.

Lemma snoc2 {X : Type} (l : list X) (a b x : X) :
  (l ++ [a; b; x] = l ++ [a; b] ++ [x])%list.
Proof. reflexivity. Qed.

(** Bring the record of calls of a finished run into the form
    [calls p ++ [c1; ...; cn]]. *)
Ltac calls_flat :=
  cbn [calls sandboxes creationLocks world snd fst
       with_sandboxes with_locks with_world];
  first [ etransitivity; [apply calls3|]
        | etransitivity; [apply calls2|]
        | idtac ].

Ltac snoc := first [apply snoc0 | apply snoc1 | apply snoc2].

Ltac no_deletion :=
  let c := fresh "c" in
  let k := fresh "k" in
  let Hin := fresh "Hin" in
  intros c k Hin; cbn [In List.app] in Hin;
  repeat (destruct Hin as [Hin|Hin]; [subst c; reflexivity|]);
  destruct Hin.

Ltac failed_here :=
  split; [reflexivity|]; right; do 3 eexists;
  split; [reflexivity|];
  split; [calls_flat; snoc|];
  split; [reflexivity|]; split; [reflexivity|];
  split; [no_deletion|reflexivity].

(** [createCluster] either fulfils every step and then registers the
    sandbox, or stops at the first step that fails, registers nothing and
    throws. *)
Lemma createCluster_outcome {World : Type} `{Driver World} (r : Revision)
  (id : string) (p : Process World) :
  let out := run (createCluster r id) p in
  creationLocks (snd out) = creationLocks p /\
  ((exists made now,
      fst out = Js.Normal true /\
      calls (snd out) = (calls p ++ made)%list /\
      forallb fulfilled made = true /\
      count (fun c => creation_call (fst c)) made = 1%nat /\
      (forall c k, In c made -> deletion_call k (fst c) = false) /\
      sandboxes (snd out) = JsMap.set (sandboxes p) id now) \/
   (exists made call message,
      fst out = Js.Throw ("Failed to create cluster: " ++ message) /\
      calls (snd out) = (calls p ++ made ++ [(call, Rejected message)])%list /\
      forallb fulfilled made = true /\
      listing_call call = false /\
      (forall c k, In c (made ++ [(call, Rejected message)]) ->
                   deletion_call k (fst c) = false) /\
      sandboxes (snd out) = sandboxes p)).
Proof.
  destruct r; cbn [createCluster].
  - unfold KindServer.createCluster. simpl.
    next_call; [|failed_here].
    next_call; [|failed_here].
    next_call; [|failed_here].
    next_clock.
    split; [reflexivity|]. left. do 2 eexists.
    split; [reflexivity|].
    split; [calls_flat; reflexivity|].
    split; [reflexivity|]. split; [reflexivity|].
    split; [no_deletion|reflexivity].
  - unfold K3dServer.createCluster. simpl.
    next_call; [|failed_here].
    next_call; [|failed_here].
    next_clock.
    split; [reflexivity|]. left. do 2 eexists.
    split; [reflexivity|].
    split; [calls_flat; reflexivity|].
    split; [reflexivity|]. split; [reflexivity|].
    split; [no_deletion|reflexivity].
Qed.

(** Provisioning a new sandbox: the response and the registry after it. *)
Lemma provision_outcome {World : Type} `{Driver World} (r : Revision)
  (res : Res) (p : Process World) :
  let out := run (provision r res) p in
  creationLocks (snd out) = creationLocks p /\
  finishListeners (fst out) = finishListeners res /\
  ((exists generated now made,
      calls (snd out) = (calls p ++ made)%list /\
      forallb fulfilled made = true /\
      count (fun c => creation_call (fst c)) made = 1%nat /\
      (forall c k, In c made -> deletion_call k (fst c) = false) /\
      sandboxes (snd out) = JsMap.set (sandboxes p) ("sb-" ++ generated) now /\
      statusCode (fst out) = statusCode res /\
      setCookies (fst out) =
        (setCookies res ++
         [SetCookie "sandboxId" ("sb-" ++ generated) SANDBOX_LIFETIME_MS])%list /\
      answer_field "message" (fst out) = Some "Sandbox created successfully" /\
      answer_field "sandboxId" (fst out) = Some ("sb-" ++ generated)) \/
   (exists made call message,
      calls (snd out) = (calls p ++ made ++ [(call, Rejected message)])%list /\
      forallb fulfilled made = true /\
      listing_call call = false /\
      (forall c k, In c (made ++ [(call, Rejected message)]) ->
                   deletion_call k (fst c) = false) /\
      sandboxes (snd out) = sandboxes p /\
      statusCode (fst out) = 500 /\
      setCookies (fst out) = setCookies res /\
      answer_field "error" (fst out)
        = Some ("Failed to create cluster: " ++ message))).
Proof.
  assert (Hgen : forall (create : string -> Async bool) ok,
    (forall id, create id = createCluster r id) ->
    let out := run (GenerateId (fun generated =>
                 c <- create ("sb-" ++ generated) ;;
                 match c with
                 | Js.Normal _ => Ret (ok ("sb-" ++ generated))
                 | Js.Throw message =>
                     Ret (json (status res 500) [("error", message)])
                 end)) p in
    creationLocks (snd out) = creationLocks p /\
    ((exists generated now made,
        fst out = ok ("sb-" ++ generated) /\
        calls (snd out) = (calls p ++ made)%list /\
        forallb fulfilled made = true /\
        count (fun c => creation_call (fst c)) made = 1%nat /\
        (forall c k, In c made -> deletion_call k (fst c) = false) /\
        sandboxes (snd out)
          = JsMap.set (sandboxes p) ("sb-" ++ generated) now) \/
     (exists made call message,
        fst out = json (status res 500)
                    [("error", "Failed to create cluster: " ++ message)] /\
        calls (snd out)
          = (calls p ++ made ++ [(call, Rejected message)])%list /\
        forallb fulfilled made = true /\
        listing_call call = false /\
        (forall c k, In c (made ++ [(call, Rejected message)]) ->
                     deletion_call k (fst c) = false) /\
        sandboxes (snd out) = sandboxes p))).
  { intros create ok Hcreate. cbn [run].
    destruct (generate_id (world p)) as [generated w].
    rewrite run_bind, Hcreate.
    pose proof (createCluster_outcome r ("sb-" ++ generated) (with_world p w))
      as [Hlocks Hcases].
    destruct (run (createCluster r ("sb-" ++ generated)) (with_world p w))
      as [c q]. cbn [fst snd] in *.
    destruct Hcases as
      [(made & now & -> & Hcalls & Hok & Hone & Hnodel & Hreg)
      |(made & call & message & -> & Hcalls & Hok & Hcall & Hnodel & Hreg)];
      cbn [run fst snd]; (split; [exact Hlocks|]).
    - left. exists generated, now, made. auto 7.
    - right. exists made, call, message. auto 7. }
  destruct r; cbn [provision].
  - unfold KindServer.provision.
    destruct (Hgen KindServer.createCluster
                (fun id => json (cookie res "sandboxId" id
                                   KindServer.SANDBOX_LIFETIME_MS)
                             [("message", "Sandbox created successfully");
                              ("sandboxId", id);
                              ("expiresIn", KindServer.expiresIn)])
                (fun _ => eq_refl)) as [Hlocks Hcases].
    split; [exact Hlocks|].
    destruct Hcases as
      [(generated & now & made & Hres & Hcalls & Hok & Hone & Hnodel & Hreg)
      |(made & call & message & Hres & Hcalls & Hok & Hcall & Hnodel & Hreg)];
      rewrite Hres; (split; [reflexivity|]).
    + left. exists generated, now, made. repeat split; auto.
    + right. exists made, call, message. repeat split; auto.
  - unfold K3dServer.provision.
    destruct (Hgen K3dServer.createCluster
                (fun id => json (cookie res "sandboxId" id
                                   K3dServer.SANDBOX_LIFETIME_MS)
                             [("message", "Sandbox created successfully");
                              ("sandboxId", id);
                              ("expiresIn", K3dServer.expiresIn)])
                (fun _ => eq_refl)) as [Hlocks Hcases].
    split; [exact Hlocks|].
    destruct Hcases as
      [(generated & now & made & Hres & Hcalls & Hok & Hone & Hnodel & Hreg)
      |(made & call & message & Hres & Hcalls & Hok & Hcall & Hnodel & Hreg)];
      rewrite Hres; (split; [reflexivity|]).
    + left. exists generated, now, made. repeat split; auto.
    + right. exists made, call, message. repeat split; auto.
Qed.

Lemma lock_free_get {World : Type} (p : Process World) clientIp :
  ~ lock_held p clientIp ->
  forall (X : Type) (a b : X),
    match JsMap.get (creationLocks p) clientIp with
    | Some true => a
    | _ => b
    end = b.
Proof.
  unfold lock_held. intros Hfree X a b.
  destruct (JsMap.get (creationLocks p) clientIp) as [[|]|]; congruence.
Qed.

Lemma truthy_cases (v : option string) :
  (exists id, v = Some id /\ id <> "" /\ Js.truthy v = true /\ Js.text v = id)
  \/ Js.truthy v = false.
Proof.
  destruct v as [id|]; [|now right].
  destruct (String.eqb_spec id "") as [->|Hne].
  - now right.
  - left. exists id. repeat split; auto. now apply truthy_Some.
Qed.

(** When the guard lets a create request pass, the route ends in one of the
    three ways of [CreateOutcome], and the client's lock is gone. *)
Lemma post_sandbox_outcome {World : Type} `{Driver World} (r : Revision)
  (req : Request) (p : Process World) :
  ~ lock_held p (ip req) ->
  let out := run (router r PostSandbox req) p in
  creationLocks (snd out)
    = JsMap.delete (JsMap.set (creationLocks p) (ip req) true) (ip req) /\
  CreateOutcome r req p (fst out) (snd out).
Proof.
  intros Hfree.
  (* every path that provisions *)
  assert (Hprov : forall res0 (p0 : Process World) pre registry,
    finishListeners res0 = [LocksDelete (ip req) (Ret tt)] ->
    statusCode res0 = 200 ->
    client_cookie (cookies_sandboxId req) (setCookies res0) = None
      \/ setCookies res0 = [] ->
    creationLocks p0 = JsMap.set (creationLocks p) (ip req) true ->
    calls p0 = (calls p ++ pre)%list ->
    sandboxes p0 = registry ->
    Prechecked r req (sandboxes p) pre registry ->
    let out := run (res <- provision r res0 ;; emit_finish res) p0 in
    creationLocks (snd out)
      = JsMap.delete (JsMap.set (creationLocks p) (ip req) true) (ip req) /\
    CreateOutcome r req p (fst out) (snd out)).
  { intros res0 p0 pre registry Hlisten Hstatus Hcookie Hlocks Hcalls Hreg Hpre.
    rewrite run_bind.
    pose proof (provision_outcome r res0 p0) as (Hl & Hf & Hcases).
    destruct (run (provision r res0) p0) as [res' p']. cbn [fst snd] in *.
    unfold emit_finish. rewrite Hf, Hlisten. cbn [for_of bind run fst snd].
    cbn [creationLocks with_locks]. rewrite Hl, Hlocks.
    split; [reflexivity|].
    destruct Hcases as
      [(generated & now & made & Hc & Hok & Hone & Hnodel & Hs & Hst & Hck
          & Hm & Hid)
      |(made & call & message & Hc & Hok & Hcall & Hnodel & Hs & Hst & Hck
          & Herr)].
    - eapply Created with (pre := pre) (made := made); eauto;
        cbn [calls sandboxes with_locks].
      + rewrite Hc, Hcalls. now rewrite <- app_assoc.
      + rewrite Hs, Hreg. reflexivity.
      + congruence.
      + rewrite Hck. destruct Hcookie as [Hnone| ->].
        * clear - Hnone.
          revert Hnone. generalize (cookies_sandboxId req).
          induction (setCookies res0) as [|[n v a|n] ops IH];
            intros held Hnone; cbn in *; auto.
        * reflexivity.
    - eapply Failed with (pre := pre) (made := made); eauto;
        cbn [calls sandboxes with_locks].
      + rewrite Hc, Hcalls. now rewrite <- app_assoc.
      + congruence. }
  pose proof (lock_free_get p (ip req) Hfree) as Hget.
  destruct (truthy_cases (cookies_sandboxId req))
    as [(id & Hcookie & Hne & Htruthy & Htext)|Hfalsy].
  - destruct r; cbn [router kind_router k3d_router].
    + unfold KindServer.POST_sandbox, route,
        KindServer.preventConcurrentRequests, KindServer.post_sandbox.
      rewrite Htruthy, Htext. cbn [bind run]. rewrite Hget. cbn [bind run].
      unfold awaited. cbn [world with_locks].
      destruct (settle _ (world p)) as [[stdout|message] w].
      * cbn. split; [reflexivity|].
        eapply Reused with (id := id) (stdout := stdout); eauto; try reflexivity.
        discriminate.
      * cbn [bind run]. 
        apply (Hprov _ _ [(list_call Kind id, Rejected message)]
                 (JsMap.delete (sandboxes p) id)); try reflexivity.
        -- left. cbn. reflexivity.
        -- now apply Prechecked_rejected.
    + unfold K3dServer.POST_sandbox, route,
        K3dServer.preventConcurrentRequests, K3dServer.post_sandbox.
      rewrite Htruthy, Htext. cbn [bind run]. rewrite Hget. cbn [bind run].
      unfold awaited. cbn [world with_locks].
      destruct (settle _ (world p)) as [[stdout|message] w].
      * rewrite filter_positive. fold (listed id stdout).
        destruct (listed id stdout) eqn:Hlisted.
        -- cbn. split; [reflexivity|].
           eapply Reused with (id := id) (stdout := stdout); eauto;
             reflexivity.
        -- apply (Hprov _ _ [(list_call K3d id, Fulfilled stdout)]
                    (sandboxes p)); try reflexivity.
           ++ right. reflexivity.
           ++ now apply Prechecked_unlisted.
      * cbn [bind run].
        apply (Hprov _ _ [(list_call K3d id, Rejected message)]
                 (JsMap.delete (sandboxes p) id)); try reflexivity.
        -- left. cbn. reflexivity.
        -- now apply Prechecked_rejected.
  - destruct r; cbn [router kind_router k3d_router].
    + unfold KindServer.POST_sandbox, route,
        KindServer.preventConcurrentRequests, KindServer.post_sandbox.
      rewrite Hfalsy. cbn [bind run]. rewrite Hget. cbn [bind run].
      apply (Hprov _ _ [] (sandboxes p)); try reflexivity.
      * right. reflexivity.
      * cbn. now rewrite app_nil_r.
      * now apply Prechecked_no_cookie.
    + unfold K3dServer.POST_sandbox, route,
        K3dServer.preventConcurrentRequests, K3dServer.post_sandbox.
      rewrite Hfalsy. cbn [bind run]. rewrite Hget. cbn [bind run].
      apply (Hprov _ _ [] (sandboxes p)); try reflexivity.
      * right. reflexivity.
      * cbn. now rewrite app_nil_r.
      * now apply Prechecked_no_cookie.
Qed.

Lemma count_app {X : Type} (f : X -> bool) (l l' : list X) :
  count f (l ++ l') = (count f l + count f l')%nat.
Proof. unfold count. now rewrite filter_app, length_app. Qed.

Lemma since_calls {World : Type} (p p' : Process World) l :
  calls p' = (calls p ++ l)%list -> since p p' = l.
Proof. unfold since. intros ->. apply skipn_app_exact. Qed.

Lemma list_call_not_creation r id : creation_call (list_call r id) = false.
Proof. destruct r; reflexivity. Qed.

Lemma released {World : Type} (p : Process World) clientIp :
  ~ JsMap.get (JsMap.delete (JsMap.set (creationLocks p) clientIp true)
                 clientIp) clientIp = Some true.
Proof. rewrite get_delete_same. discriminate. Qed.

Lemma Prechecked_no_creation r req m pre m' :
  Prechecked r req m pre m' ->
  count (fun c => creation_call (fst c)) pre = 0%nat.
Proof.
  intros []; cbn; auto; unfold count; cbn [filter fst];
    rewrite list_call_not_creation; reflexivity.
Qed.

(** C2.  Reuse idempotence, for both revisions.

    First part: a create call without a token that succeeds hands out a
    token for the sandbox it made; a second create call with that token,
    the sandbox validating as live, answers with the same sandbox id, and
    over the two calls the driver was asked to create exactly once.

    Second part: when the token is bound to a sandbox that validates as
    live at both calls, both calls answer 200 with the token's sandbox id,
    leave the token as it is, and add no creation call to the record of
    driver calls, so the creation that made the sandbox stays the only
    one. *)
Theorem C2_reuse_idempotence {World : Type} `{Driver World} (r : Revision)
  (p : Process World) (clientIp : string) (command : option string) :
  ~ lock_held p clientIp ->
  (forall res1 p1,
     run (router r PostSandbox
            {| ip := clientIp; cookies_sandboxId := None;
               body := posted command |}) p = (res1, p1) ->
     statusCode res1 = 200 ->
     exists id,
       client_cookie None (setCookies res1) = Some id /\
       answer_field "sandboxId" res1 = Some id /\
       (validates_live r id (world p1) ->
        let second := run (router r PostSandbox (bearer clientIp id command)) p1 in
        statusCode (fst second) = 200 /\
        answer_field "sandboxId" (fst second) = Some id /\
        count (fun c => creation_call (fst c)) (since p (snd second)) = 1%nat))
  /\
  (forall id,
     id <> "" ->
     let first := run (router r PostSandbox (bearer clientIp id command)) p in
     let second :=
       run (router r PostSandbox (bearer clientIp id command)) (snd first) in
     validates_live r id (world p) ->
     validates_live r id (world (snd first)) ->
     (statusCode (fst first) = 200 /\ statusCode (fst second) = 200) /\
     (answer_field "sandboxId" (fst first) = Some id /\
      answer_field "sandboxId" (fst second) = Some id) /\
     client_cookie (Some id) (setCookies (fst first)) = Some id /\
     count (fun c => creation_call (fst c)) (since p (snd second)) = 0%nat /\
     count (fun c => creation_call (fst c)) (calls (snd second))
       = count (fun c => creation_call (fst c)) (calls p)).
Proof.
  intros Hfree. split.
  - intros res1 p1 Hrun Hok.
    pose proof (post_sandbox_outcome r
      {| ip := clientIp; cookies_sandboxId := None; body := posted command |}
      p Hfree) as [Hlocks Hout].
    rewrite Hrun in Hlocks, Hout. cbn [fst snd ip] in *.
    destruct Hout as
      [id stdout Hcookie
      |pre registry generated now made Hpre Hcalls Hfulfilled Hone Hnodel
         Hreg Hst Hck Hmsg Hid
      |pre registry made call message Hpre Hcalls Hfulfilled Hcall Hnodel
         Hreg Hst].
    + discriminate.
    + exists ("sb-" ++ generated). cbn [cookies_sandboxId] in Hck.
      split; [exact Hck|]. split; [exact Hid|].
      intros Hlive.
      assert (Hfree1 : ~ lock_held p1 clientIp).
      { unfold lock_held. rewrite Hlocks. apply released. }
      destruct (reuse_once r p1 clientIp ("sb-" ++ generated) command)
        as (stdout & w' & res2 & _ & Hrun2 & _ & Hst2 & _ & _ & Hid2);
        auto; [discriminate|].
      rewrite Hrun2. cbn [fst snd].
      split; [exact Hst2|]. split; [exact Hid2|].
      erewrite since_calls.
      2: { cbn [calls]. rewrite Hcalls. rewrite <- !app_assoc. reflexivity. }
      rewrite !count_app. rewrite (Prechecked_no_creation _ _ _ _ _ Hpre).
      rewrite Hone. unfold count. cbn [filter fst].
      rewrite list_call_not_creation. reflexivity.
    + congruence.
  - intros id Hne first second Hlive1 Hlive2. subst first second.
    destruct (reuse_once r p clientIp id command Hne Hfree Hlive1)
      as (out1 & w1 & res1 & _ & Hrun1 & _ & Hst1 & Hck1 & _ & Hid1).
    rewrite Hrun1 in *. cbn [fst snd world] in *.
    match type of Hrun1 with _ = (_, ?q) => set (p1 := q) in * end.
    assert (Hfree1 : ~ lock_held p1 clientIp) by apply released.
    destruct (reuse_once r p1 clientIp id command Hne Hfree1 Hlive2)
      as (out2 & w2 & res2 & _ & Hrun2 & _ & Hst2 & _ & _ & Hid2).
    rewrite Hrun2. cbn [fst snd].
    repeat split; auto.
    + now rewrite Hck1.
    + erewrite since_calls.
      2: { cbn [calls p1]. rewrite <- !app_assoc. reflexivity. }
      unfold count. cbn [filter fst app].
      rewrite list_call_not_creation. reflexivity.
    + cbn [calls p1]. rewrite !count_app. unfold count. cbn [filter fst].
      rewrite list_call_not_creation. cbn. lia.
Qed.

Lemma C2_reuse_idempotence_witness :
  let client :=
    {| ip := "10.0.0.7"; cookies_sandboxId := None; body := posted None |} in
  let w1 :=
    {| answers := [Fulfilled ""; Fulfilled ""; Fulfilled "sb-abc1234567"];
       times := [0]; identifiers := ["abc1234567"] |} in
  let w2 :=
    {| answers := [Fulfilled "sb-abc1234567"; Fulfilled "sb-abc1234567"];
       times := []; identifiers := [] |} in
  let created := run (router K3d PostSandbox client) (boot w1) in
  let again :=
    run (router K3d PostSandbox (bearer "10.0.0.7" "sb-abc1234567" None))
        (snd created) in
  let first :=
    run (router K3d PostSandbox (bearer "10.0.0.7" "sb-abc1234567" None))
        (boot w2) in
  let second :=
    run (router K3d PostSandbox (bearer "10.0.0.7" "sb-abc1234567" None))
        (snd first) in
  (statusCode (fst again) = 200 /\
   answer_field "sandboxId" (fst again) = Some "sb-abc1234567" /\
   count (fun c => creation_call (fst c)) (since (boot w1) (snd again))
     = 1%nat) /\
  ((statusCode (fst first) = 200 /\ statusCode (fst second) = 200) /\
   (answer_field "sandboxId" (fst first) = Some "sb-abc1234567" /\
    answer_field "sandboxId" (fst second) = Some "sb-abc1234567") /\
   client_cookie (Some "sb-abc1234567") (setCookies (fst first))
     = Some "sb-abc1234567" /\
   count (fun c => creation_call (fst c)) (since (boot w2) (snd second))
     = 0%nat /\
   count (fun c => creation_call (fst c)) (calls (snd second))
     = count (fun c => creation_call (fst c)) (calls (boot w2))).
Proof.
  intros client w1 w2 created again first second.
  assert (Hfree : forall w : Script, ~ lock_held (boot w) "10.0.0.7")
    by (intros w; unfold lock_held; simpl; discriminate).
  split.
  - destruct (proj1 (C2_reuse_idempotence K3d (boot w1) "10.0.0.7" None
                       (Hfree w1))
                (fst created) (snd created) (surjective_pairing created)
                eq_refl)
      as (id & Hcookie & _ & Hreuse).
    vm_compute in Hcookie. injection Hcookie as Hid. subst id.
    apply Hreuse. do 2 eexists. vm_compute. reflexivity.
  - apply (proj2 (C2_reuse_idempotence K3d (boot w2) "10.0.0.7" None
                    (Hfree w2)) "sb-abc1234567").
    + discriminate.
    + do 2 eexists. vm_compute. reflexivity.
    + do 2 eexists. vm_compute. reflexivity.
Defined.

(* ================================================================== *)
(** * The expiry sweeper *)

Lemma delete_call_injective r k k' :
  delete_call r k = delete_call r k' -> k = k'.
Proof. destruct r; cbn; intros Heq; now injection Heq. Qed.

Lemma deletion_call_delete_call r id k :
  deletion_call id (delete_call r k) = String.eqb k id.
Proof. destruct r; reflexivity. Qed.

Lemma sweep_body_spec {World : Type} `{Driver World} (r : Revision) (now : Z) :
  exists body,
    (forall (p : Process World),
       fst (date_now (world p)) = now ->
       run (cleanupExpiredSandboxes r) p
       = run (for_of (JsMap.entries (sandboxes p)) body)
             (with_world p (snd (date_now (world p))))) /\
    sweeps_entry r now body.
Proof.
  destruct r.
  - eexists. split.
    + intros p Hnow. unfold cleanupExpiredSandboxes,
        KindServer.cleanupExpiredSandboxes. cbn [run].
      destruct (date_now (world p)) as [now' w]. cbn [fst snd] in *.
      subst now'. reflexivity.
    + intros [k c] q. unfold expired. cbn [snd fst].
      change KindServer.SANDBOX_LIFETIME_MS with SANDBOX_LIFETIME_MS.
      destruct (now - c >? SANDBOX_LIFETIME_MS); [|reflexivity].
      unfold KindServer.deleteCluster. simpl. unfold awaited.
      destruct (settle _ (world q)) as [[out|message] w]; simpl.
      * exists (Fulfilled out). repeat split.
        now rewrite delete_delete.
      * exists (Rejected message). repeat split.
  - eexists. split.
    + intros p Hnow. unfold cleanupExpiredSandboxes,
        K3dServer.cleanupExpiredSandboxes. cbn [run].
      destruct (date_now (world p)) as [now' w]. cbn [fst snd] in *.
      subst now'. reflexivity.
    + intros [k c] q. unfold expired. cbn [snd fst].
      change K3dServer.SANDBOX_LIFETIME_MS with SANDBOX_LIFETIME_MS.
      destruct (now - c >? SANDBOX_LIFETIME_MS); [|reflexivity].
      unfold K3dServer.deleteCluster. simpl. unfold awaited.
      destruct (settle _ (world q)) as [[out|message] w]; simpl.
      * exists (Fulfilled out). repeat split.
        now rewrite delete_delete.
      * exists (Rejected message). repeat split.
Qed.

(** The whole loop: the calls it awaits are the deletion calls of the
    expired entries, in the order of the registry; an entry whose deletion
    call was fulfilled is gone; an entry for which no deletion call was
    fulfilled is as it was; no entry appears. *)
Lemma sweep_loop {World : Type} `{Driver World} (r : Revision) (now : Z)
  (body : string * Z -> Task unit) :
  sweeps_entry r now body ->
  forall (es : list (string * Z)) (q : Process World),
    let q' := snd (run (for_of es body) q) in
    exists l,
      calls q' = (calls q ++ l)%list /\
      map fst l = map (fun e => delete_call r (fst e)) (filter (expired now) es) /\
      creationLocks q' = creationLocks q /\
      (forall k, JsMap.get (sandboxes q) k = None ->
                 JsMap.get (sandboxes q') k = None) /\
      (forall k, (forall o, ~ In (delete_call r k, Fulfilled o) l) ->
                 JsMap.get (sandboxes q') k = JsMap.get (sandboxes q) k) /\
      (forall k o, In (delete_call r k, Fulfilled o) l ->
                   JsMap.get (sandboxes q') k = None).
Proof.
  intros Hbody es. induction es as [|e es IH]; intros q; cbn [for_of run snd].
  - exists []. rewrite app_nil_r. repeat split; auto.
    intros k o [].
  - rewrite run_bind. pose proof (Hbody e q) as Hstep.
    destruct (run (body e) q) as [u q1]. cbn [snd] in Hstep.
    specialize (IH q1).
    destruct IH as (l & Hcalls & Hmap & Hlocks & Hmono & Hkeep & Hgone).
    cbn [filter]. destruct (expired now e).
    + destruct Hstep as (outcome & Hl1 & Hc1 & Hs1).
      exists ((delete_call r (fst e), outcome) :: l).
      assert (Hmono1 : forall k, JsMap.get (sandboxes q) k = None ->
                                 JsMap.get (sandboxes q1) k = None).
      { intros k Hk. rewrite Hs1. destruct outcome; auto.
        now apply get_delete_None. }
      repeat split.
      * rewrite Hcalls, Hc1. now rewrite <- app_assoc.
      * cbn [map fst]. now rewrite Hmap.
      * congruence.
      * auto.
      * intros k Hnone. rewrite Hkeep.
        -- rewrite Hs1. destruct outcome as [out|message]; auto.
           apply get_delete_other. intros ->.
           apply (Hnone out). now left.
        -- intros o Hin. apply (Hnone o). now right.
      * intros k o [Heq|Hin].
        -- injection Heq as Hk Ho. apply delete_call_injective in Hk.
           subst. apply Hmono. rewrite Hs1. apply get_delete_same.
        -- eauto.
    + rewrite Hstep in *. exists l. repeat split; auto.
Qed.

Lemma In_fst_unique {X Y : Type} (l : list (X * Y)) a x y :
  NoDup (map fst l) -> In (a, x) l -> In (a, y) l -> x = y.
Proof.
  induction l as [|[b z] l IH]; cbn; [tauto|].
  intros Hnd [Hx|Hx] [Hy|Hy]; inversion Hnd as [|? ? Hb Hrest]; subst.
  - congruence.
  - injection Hx as -> ->. exfalso. apply Hb.
    change a with (fst (a, y)). now apply in_map.
  - injection Hy as -> ->. exfalso. apply Hb.
    change a with (fst (a, x)). now apply in_map.
  - auto.
Qed.

Lemma NoDup_filter {X Y : Type} (f : X -> bool) (g : X -> Y) (l : list X) :
  NoDup (map g l) -> NoDup (map g (filter f l)).
Proof.
  induction l as [|x l IH]; cbn; auto.
  intros Hnd. inversion Hnd as [|? ? Hx Hrest]; subst.
  destruct (f x); cbn; auto.
  constructor; auto.
  intros Hin. apply Hx. apply in_map_iff in Hin.
  destruct Hin as (y & Hy & Hin). apply filter_In in Hin.
  rewrite <- Hy. apply in_map. tauto.
Qed.

Lemma NoDup_map_injective {X Y : Type} (g : X -> Y) (l : list X) :
  (forall x x', g x = g x' -> x = x') -> NoDup l -> NoDup (map g l).
Proof.
  intros Hinj. induction 1 as [|x l Hx Hnd IH]; cbn; constructor; auto.
  intros Hin. apply in_map_iff in Hin. destruct Hin as (y & Hy & Hin).
  apply Hinj in Hy. now subst.
Qed.

Lemma get_In {V : Type} (m : JsMap.t V) key value :
  JsMap.get m key = Some value -> In (key, value) m.
Proof.
  induction m as [|[k v] rest IH]; cbn; [discriminate|].
  destruct (String.eqb_spec k key).
  - intros [= ->]. subst. now left.
  - intros Hget. right. auto.
Qed.

Lemma gtb_gt (a b : Z) : (a >? b) = true <-> a > b.
Proof. rewrite Z.gtb_ltb, Z.ltb_lt. lia. Qed.

(** One run of the sweeper, seen from one entry of a registry with one
    entry per key. *)
Lemma sweep_entry {World : Type} `{Driver World} (r : Revision)
  (p : Process World) :
  unique_keys (sandboxes p) ->
  let now := fst (date_now (world p)) in
  let p' := snd (run (cleanupExpiredSandboxes r) p) in
  creationLocks p' = creationLocks p /\
  (forall k, JsMap.get (sandboxes p) k = None ->
             JsMap.get (sandboxes p') k = None) /\
  (forall c, In c (since p p') ->
     exists k T, JsMap.get (sandboxes p) k = Some T /\
                 now - T > SANDBOX_LIFETIME_MS /\
                 fst c = delete_call r k) /\
  (forall k T, JsMap.get (sandboxes p) k = Some T ->
     now - T > SANDBOX_LIFETIME_MS ->
     exists outcome,
       In (delete_call r k, outcome) (since p p') /\
       match outcome with
       | Fulfilled _ => JsMap.get (sandboxes p') k = None
       | Rejected _ => JsMap.get (sandboxes p') k = Some T
       end) /\
  (forall k T, JsMap.get (sandboxes p) k = Some T ->
     now - T <= SANDBOX_LIFETIME_MS ->
     JsMap.get (sandboxes p') k = Some T).
Proof.
  intros Huniq now p'.
  destruct (sweep_body_spec (World := World) r now) as (body & Hrun & Hbody).
  subst p'. rewrite (Hrun p eq_refl).
  destruct (sweep_loop r now body Hbody (JsMap.entries (sandboxes p))
              (with_world p (snd (date_now (world p)))))
    as (l & Hcalls & Hmap & Hlocks & Hmono & Hkeep & Hgone).
  cbn [calls sandboxes creationLocks with_world] in *.
  rewrite (since_calls _ _ _ Hcalls).
  set (p' := snd (run _ _)) in *.
  assert (Hcalled : forall c, In c l ->
            exists k T, JsMap.get (sandboxes p) k = Some T /\
                        now - T > SANDBOX_LIFETIME_MS /\
                        fst c = delete_call r k).
  { intros c Hin. apply (in_map fst) in Hin. rewrite Hmap in Hin.
    apply in_map_iff in Hin. destruct Hin as ([k T] & Heq & Hin).
    apply filter_In in Hin. destruct Hin as [Hin Hexp].
    exists k, T. repeat split; auto.
    - now apply get_present.
    - unfold expired in Hexp. cbn [snd] in Hexp. now apply gtb_gt. }
  assert (Hnd : NoDup (map fst l)).
  { rewrite Hmap. apply NoDup_filter.
    rewrite <- (map_map fst (delete_call r)).
    apply NoDup_map_injective; auto.
    intros k k'. apply delete_call_injective. }
  repeat split; auto.
  - intros k T Hget Hexp.
    assert (Hin : In (delete_call r k) (map fst l)).
    { rewrite Hmap.
      apply (in_map (fun e => delete_call r (fst e)) _ (k, T)).
      apply filter_In. split; [now apply get_In|].
      unfold expired. cbn [snd]. now apply gtb_gt. }
    apply in_map_iff in Hin. destruct Hin as ([c outcome] & Hc & Hin).
    cbn [fst] in Hc. subst c. exists outcome. split; auto.
    destruct outcome as [out|message].
    + eauto.
    + rewrite Hkeep; auto. intros o Ho.
      pose proof (In_fst_unique _ _ _ _ Hnd Hin Ho). discriminate.
  - intros k T Hget Hyoung. rewrite Hkeep; auto.
    intros o Ho. destruct (Hcalled _ Ho) as (k' & T' & Hget' & Hexp & Hc).
    cbn [fst] in Hc. apply delete_call_injective in Hc. subst k'.
    rewrite Hget in Hget'. injection Hget' as <-. lia.
Qed.

(** C3 (counterexample).  A sandbox created at T = 0 with the lifetime of
    3,600,000 ms, and a sweeper run at now = T + L exactly: the claim has
    the sweeper delete it, but the run asks the driver nothing and leaves
    the entry in the registry, in both revisions, although the driver would
    have fulfilled the deletion. *)
Lemma C3_sweeper_expiry_counterexample :
  let T := 0 in
  let now := 3600000 in
  let w := {| answers := [Fulfilled ""]; times := [now]; identifiers := [] |} in
  let p := with_sandboxes (boot w) [("sb-abc1234567", T)] in
  now >= T + SANDBOX_LIFETIME_MS /\
  (forall r,
     JsMap.get (sandboxes (snd (run (cleanupExpiredSandboxes r) p)))
       "sb-abc1234567" = Some T /\
     calls (snd (run (cleanupExpiredSandboxes r) p)) = []).
Proof.
  cbv zeta. split.
  - vm_compute. discriminate.
  - intros []; split; reflexivity.
Qed.

(** C3 (amended).  A sandbox registered at time T, in a registry with one
    entry per key, and one run of the sweeper that reads the clock at
    [now]:

    - if [now > T + L] the run asks the driver to delete the sandbox; when
      that call is fulfilled the entry is gone after the run, and when it
      is rejected the entry stays as it was;
    - if [now <= T + L] the run leaves the entry as it was and asks the
      driver for no deletion of that sandbox. *)
Theorem C3_sweeper_expiry {World : Type} `{Driver World} (r : Revision)
  (p : Process World) (id : string) (T : Z) :
  unique_keys (sandboxes p) ->
  JsMap.get (sandboxes p) id = Some T ->
  let now := fst (date_now (world p)) in
  let p' := snd (run (cleanupExpiredSandboxes r) p) in
  (now > T + SANDBOX_LIFETIME_MS ->
   exists outcome,
     In (delete_call r id, outcome) (since p p') /\
     match outcome with
     | Fulfilled _ => JsMap.get (sandboxes p') id = None
     | Rejected _ => JsMap.get (sandboxes p') id = Some T
     end) /\
  (now <= T + SANDBOX_LIFETIME_MS ->
   JsMap.get (sandboxes p') id = Some T /\
   forall c, In c (since p p') -> deletion_call id (fst c) = false).
Proof.
  intros Huniq Hget now p'.
  destruct (sweep_entry r p Huniq) as (_ & _ & Hcalled & Hold & Hyoung).
  fold now p' in Hcalled, Hold, Hyoung. split.
  - intros Hexp. apply (Hold id T Hget). lia.
  - intros Hnot. split.
    + apply (Hyoung id T Hget). lia.
    + intros c Hin. destruct (Hcalled c Hin) as (k & T' & Hget' & Hexp & ->).
      rewrite deletion_call_delete_call.
      destruct (String.eqb_spec k id) as [->|]; auto.
      rewrite Hget in Hget'. injection Hget' as <-. lia.
Qed.

Lemma C3_sweeper_expiry_witness :
  let registry := [("sb-abc1234567", 0)] in
  let late :=
    with_sandboxes
      (boot {| answers := [Fulfilled ""]; times := [3700000];
               identifiers := [] |}) registry in
  let early :=
    with_sandboxes
      (boot {| answers := [Fulfilled ""]; times := [3600000];
               identifiers := [] |}) registry in
  (exists outcome,
     In (delete_call K3d "sb-abc1234567", outcome)
        (since late (snd (run (cleanupExpiredSandboxes K3d) late))) /\
     match outcome with
     | Fulfilled _ =>
         JsMap.get (sandboxes (snd (run (cleanupExpiredSandboxes K3d) late)))
           "sb-abc1234567" = None
     | Rejected _ =>
         JsMap.get (sandboxes (snd (run (cleanupExpiredSandboxes K3d) late)))
           "sb-abc1234567" = Some 0
     end) /\
  (JsMap.get (sandboxes (snd (run (cleanupExpiredSandboxes K3d) early)))
     "sb-abc1234567" = Some 0 /\
   forall c,
     In c (since early (snd (run (cleanupExpiredSandboxes K3d) early))) ->
     deletion_call "sb-abc1234567" (fst c) = false).
Proof.
  intros registry late early.
  assert (Huniq : unique_keys registry).
  { unfold unique_keys, registry. cbn. constructor; [intros []|constructor]. }
  split.
  - apply (proj1 (C3_sweeper_expiry K3d late "sb-abc1234567" 0
                    Huniq eq_refl)).
    vm_compute. reflexivity.
  - apply (proj2 (C3_sweeper_expiry K3d early "sb-abc1234567" 0
                    Huniq eq_refl)).
    vm_compute. discriminate.
Defined.

(* ================================================================== *)
(** * Failed creations *)

(** While the client's lock is held the create route answers 429 at once
    and touches nothing. *)
Lemma denied {World : Type} `{Driver World} (r : Revision) (req : Request)
  (p : Process World) :
  lock_held p (ip req) ->
  exists res,
    run (router r PostSandbox req) p = (res, p) /\
    statusCode res = 429 /\
    setCookies res = [] /\
    answer_field "error" res
      = Some "A sandbox is already being created for this IP. Please wait.".
Proof.
  unfold lock_held. intros Hheld.
  destruct r; cbn [router kind_router k3d_router];
    unfold KindServer.POST_sandbox, K3dServer.POST_sandbox, route,
      KindServer.preventConcurrentRequests,
      K3dServer.preventConcurrentRequests;
    cbn [bind run]; rewrite Hheld; cbn;
    eexists; repeat split; reflexivity.
Qed.

Lemma lock_held_dec {World : Type} (p : Process World) clientIp :
  lock_held p clientIp \/ ~ lock_held p clientIp.
Proof.
  unfold lock_held.
  destruct (JsMap.get (creationLocks p) clientIp) as [[|]|];
    [now left|right; discriminate|right; discriminate].
Qed.

Lemma list_call_listing r id : listing_call (list_call r id) = true.
Proof. destruct r; reflexivity. Qed.

Lemma list_call_not_deletion r id k : deletion_call k (list_call r id) = false.
Proof. destruct r; reflexivity. Qed.

Lemma Prechecked_facts r req m pre m' :
  Prechecked r req m pre m' ->
  (forall c, In c pre -> exists id, fst c = list_call r id) /\
  (forall k, JsMap.get m k = None -> JsMap.get m' k = None) /\
  (forall k t, JsMap.get m' k = Some t -> JsMap.get m k = Some t).
Proof.
  intros [Hfalsy|id message Hcookie Hne|id stdout Hcookie Hne Hr Hl];
    repeat split; auto.
  - intros c [].
  - intros c [<-|[]]. now exists id.
  - intros k. apply get_delete_None.
  - intros k t Hget. destruct (String.eqb_spec k id) as [->|Hk].
    + rewrite get_delete_same in Hget. discriminate.
    + now rewrite get_delete_other in Hget.
  - intros c [<-|[]]. now exists id.
Qed.

Lemma forallb_In {X : Type} (f : X -> bool) (l : list X) x :
  forallb f l = true -> In x l -> f x = true.
Proof. intros Hall Hin. now apply (proj1 (forallb_forall f l) Hall). Qed.

Lemma count_positive_In {X : Type} (f : X -> bool) (l : list X) :
  count f l = 1%nat -> exists x, In x l /\ f x = true.
Proof.
  unfold count. destruct (filter f l) as [|x rest] eqn:E; [discriminate|].
  intros _. exists x. apply filter_In. rewrite E. now left.
Qed.

(** C5.  A create request in which a step of the creation fails -- any
    awaited call other than the listing of the reuse check is rejected --
    is answered with status 500 and the message of the creation failure,
    and no entry appears in the registry.  Conversely an entry that is in
    the registry after the request and was not before is the entry of the
    sandbox the response announces with status 200, the driver's creation
    call was fulfilled, and so was every other step. *)
Theorem C5_failed_creation_registers_nothing {World : Type} `{Driver World}
  (r : Revision) (req : Request) (p : Process World) :
  let out := run (router r PostSandbox req) p in
  (forall call message,
     In (call, Rejected message) (since p (snd out)) ->
     listing_call call = false ->
     statusCode (fst out) = 500 /\
     answer_field "error" (fst out)
       = Some ("Failed to create cluster: " ++ message) /\
     forall k, JsMap.get (sandboxes p) k = None ->
               JsMap.get (sandboxes (snd out)) k = None) /\
  (forall k t,
     JsMap.get (sandboxes (snd out)) k = Some t ->
     JsMap.get (sandboxes p) k <> Some t ->
     statusCode (fst out) = 200 /\
     answer_field "sandboxId" (fst out) = Some k /\
     (exists c, In c (since p (snd out)) /\
                creation_call (fst c) = true /\ fulfilled c = true) /\
     (forall c, In c (since p (snd out)) ->
                listing_call (fst c) = false -> fulfilled c = true)).
Proof.
  intros out. subst out.
  destruct (lock_held_dec p (ip req)) as [Hheld|Hfree].
  { destruct (denied r req p Hheld) as (res & -> & _). cbn [fst snd].
    unfold since. rewrite skipn_all. split.
    - intros call message [].
    - intros k t Hget Hnot. congruence. }
  destruct (post_sandbox_outcome r req p Hfree) as [_ Hout].
  destruct (run (router r PostSandbox req) p) as [res p']. cbn [fst snd] in *.
  destruct Hout as
    [id stdout Hcookie Hne Hlisted Hcalls Hreg Hst Hck Hmsg Hid
    |pre registry generated now made Hpre Hcalls Hfulfilled Hone Hnodel
       Hreg Hst Hck Hmsg Hid
    |pre registry made call0 message0 Hpre Hcalls Hfulfilled Hcall Hnodel
       Hreg Hst Herr].
  - rewrite (since_calls _ _ _ Hcalls). split.
    + intros call message [Heq|[]]. discriminate.
    + intros k t Hget Hnot. congruence.
  - rewrite (since_calls _ _ _ Hcalls).
    destruct (Prechecked_facts _ _ _ _ _ Hpre) as (Hlist & Hnone & Hsome).
    split.
    + intros call message Hin Hnl. apply in_app_or in Hin.
      destruct Hin as [Hin|Hin].
      * destruct (Hlist _ Hin) as (id & Hc). cbn [fst] in Hc. subst call.
        rewrite list_call_listing in Hnl. discriminate.
      * pose proof (forallb_In _ _ _ Hfulfilled Hin) as Hf. discriminate.
    + intros k t Hget Hnot.
      assert (k = "sb-" ++ generated) as ->.
      { destruct (String.eqb_spec k ("sb-" ++ generated)) as [|Hk]; auto.
        rewrite Hreg, get_set_other in Hget by auto.
        apply Hsome in Hget. contradiction. }
      repeat split; auto.
      * destruct (count_positive_In _ _ Hone) as (c & Hin & Hc).
        exists c. repeat split; auto.
        -- apply in_or_app. now right.
        -- now apply (forallb_In _ _ _ Hfulfilled).
      * intros c Hin Hnl. apply in_app_or in Hin. destruct Hin as [Hin|Hin].
        -- destruct (Hlist _ Hin) as (id & Hc). rewrite Hc in Hnl.
           rewrite list_call_listing in Hnl. discriminate.
        -- now apply (forallb_In _ _ _ Hfulfilled).
  - rewrite (since_calls _ _ _ Hcalls).
    destruct (Prechecked_facts _ _ _ _ _ Hpre) as (Hlist & Hnone & Hsome).
    split.
    + intros call message Hin Hnl. apply in_app_or in Hin.
      destruct Hin as [Hin|Hin].
      * destruct (Hlist _ Hin) as (id & Hc). cbn [fst] in Hc. subst call.
        rewrite list_call_listing in Hnl. discriminate.
      * apply in_app_or in Hin. destruct Hin as [Hin|[Heq|[]]].
        -- pose proof (forallb_In _ _ _ Hfulfilled Hin) as Hf. discriminate.
        -- injection Heq as <- <-. rewrite Hreg. auto.
    + intros k t Hget Hnot. rewrite Hreg in Hget. apply Hsome in Hget.
      contradiction.
Qed.

(** C6 (counterexample).  The k3d revision, a driver that fulfils
    [k3d cluster create] and then rejects the readiness wait: the request
    fails with status 500 after exactly these two calls, none of which
    asks the driver to delete the cluster that was just made. *)
Lemma C6_no_cleanup_after_failed_creation_counterexample :
  let w :=
    {| answers := [Fulfilled ""; Rejected "timed out waiting for the condition"];
       times := [0]; identifiers := ["abc1234567"] |} in
  let client :=
    {| ip := "10.0.0.7"; cookies_sandboxId := None; body := posted None |} in
  let out := run (router K3d PostSandbox client) (boot w) in
  statusCode (fst out) = 500 /\
  map (fun c => (creation_call (fst c), fulfilled c)) (calls (snd out))
    = [(true, true); (false, false)] /\
  existsb (fun c => deletion_call "sb-abc1234567" (fst c)) (calls (snd out))
    = false.
Proof. cbv zeta. repeat split; reflexivity. Qed.

(** C6 (amended).  Whatever the driver answers, and in particular when a
    creation fails after the driver's creation call was issued, the create
    route asks the driver for no deletion: the partially created cluster is
    left as it is. *)
Theorem C6_create_route_never_deletes {World : Type} `{Driver World}
  (r : Revision) (req : Request) (p : Process World) :
  forall c k,
    In c (since p (snd (run (router r PostSandbox req) p))) ->
    deletion_call k (fst c) = false.
Proof.
  intros c k.
  destruct (lock_held_dec p (ip req)) as [Hheld|Hfree].
  { destruct (denied r req p Hheld) as (res & -> & _). cbn [fst snd].
    unfold since. rewrite skipn_all. intros []. }
  destruct (post_sandbox_outcome r req p Hfree) as [_ Hout].
  destruct (run (router r PostSandbox req) p) as [res p']. cbn [fst snd] in *.
  destruct Hout as
    [id stdout Hcookie Hne Hlisted Hcalls Hreg Hst Hck Hmsg Hid
    |pre registry generated now made Hpre Hcalls Hfulfilled Hone Hnodel
       Hreg Hst Hck Hmsg Hid
    |pre registry made call0 message0 Hpre Hcalls Hfulfilled Hcall Hnodel
       Hreg Hst Herr];
    rewrite (since_calls _ _ _ Hcalls).
  - intros [<-|[]]. apply list_call_not_deletion.
  - destruct (Prechecked_facts _ _ _ _ _ Hpre) as (Hlist & _).
    intros Hin. apply in_app_or in Hin. destruct Hin as [Hin|Hin].
    + destruct (Hlist _ Hin) as (id & ->). apply list_call_not_deletion.
    + now apply Hnodel.
  - destruct (Prechecked_facts _ _ _ _ _ Hpre) as (Hlist & _).
    intros Hin. apply in_app_or in Hin. destruct Hin as [Hin|Hin].
    + destruct (Hlist _ Hin) as (id & ->). apply list_call_not_deletion.
    + now apply Hnodel.
Qed.

Lemma C5_failed_creation_registers_nothing_witness :
  let client :=
    {| ip := "10.0.0.7"; cookies_sandboxId := None; body := posted None |} in
  let failing :=
    boot {| answers := [Fulfilled ""; Rejected "timed out waiting"];
            times := [0]; identifiers := ["abc1234567"] |} in
  let working :=
    boot {| answers := [Fulfilled ""; Fulfilled ""];
            times := [0]; identifiers := ["abc1234567"] |} in
  let failed := run (router K3d PostSandbox client) failing in
  let created := run (router K3d PostSandbox client) working in
  (statusCode (fst failed) = 500 /\
   answer_field "error" (fst failed)
     = Some "Failed to create cluster: timed out waiting" /\
   forall k, JsMap.get (sandboxes failing) k = None ->
             JsMap.get (sandboxes (snd failed)) k = None) /\
  (statusCode (fst created) = 200 /\
   answer_field "sandboxId" (fst created) = Some "sb-abc1234567" /\
   (exists c, In c (since working (snd created)) /\
              creation_call (fst c) = true /\ fulfilled c = true) /\
   (forall c, In c (since working (snd created)) ->
              listing_call (fst c) = false -> fulfilled c = true)).
Proof.
  intros client failing working failed created. split.
  - apply (proj1 (C5_failed_creation_registers_nothing K3d client failing)
             (Execa "kubectl"
                ["--context"; "k3d-sb-abc1234567"; "wait";
                 "--for=condition=Ready"; "nodes"; "--all"; "--timeout=30s"])
             "timed out waiting").
    + vm_compute. right. left. reflexivity.
    + reflexivity.
  - apply (proj2 (C5_failed_creation_registers_nothing K3d client working)
             "sb-abc1234567" 0).
    + reflexivity.
    + vm_compute. discriminate.
Defined.

Lemma C6_create_route_never_deletes_witness :
  deletion_call "sb-abc1234567"
    (Execa "k3d"
       ["cluster"; "create"; "sb-abc1234567"; "--api-port"; "6443";
        "--k3s-arg"; "--disable=traefik@server:0"; "--wait"]) = false.
Proof.
  apply (C6_create_route_never_deletes K3d
           {| ip := "10.0.0.7"; cookies_sandboxId := None;
              body := posted None |}
           (boot {| answers := [Fulfilled ""; Rejected "timed out waiting"];
                    times := [0]; identifiers := ["abc1234567"] |})
           (Execa "k3d"
              ["cluster"; "create"; "sb-abc1234567"; "--api-port"; "6443";
               "--k3s-arg"; "--disable=traefik@server:0"; "--wait"],
            Fulfilled "")
           "sb-abc1234567").
  vm_compute. left. reflexivity.
Defined.

(* ================================================================== *)
(** * Executing commands *)

(** In the k3d revision the document of a successful execution carries the
    standard output of [kubectl], run in the context of the sandbox on the
    command split at its spaces. *)
Lemma k3d_exec_returns_stdout {World : Type} `{Driver World}
  (p : Process World) (clientIp id command listing stdout : string)
  (w1 w2 : World) :
  id <> "" -> command <> "" ->
  settle (list_call K3d id) (world p) = (Fulfilled listing, w1) ->
  listed id listing = true ->
  settle (Execa "kubectl"
            ("--context" :: ("k3d-" ++ id) :: Js.split command " "%char)) w1
    = (Fulfilled stdout, w2) ->
  let res :=
    fst (run (router K3d PostSandboxExec (bearer clientIp id (Some command)))
           p) in
  statusCode res = 200 /\
  answer_field "command" res = Some command /\
  answer_field "output" res = Some stdout.
Proof.
  intros Hid Hcommand Hlist Hlisted Hexec.
  cbn [router k3d_router]. unfold K3dServer.POST_sandbox_exec, route,
    K3dServer.validateSandbox, K3dServer.post_sandbox_exec,
    K3dServer.executeKubectlCommand.
  cbn [bearer cookies_sandboxId body].
  rewrite (truthy_Some id Hid), destructure_posted,
    (to_boolean_Text command Hcommand).
  cbn [negb bind run Js.text]. unfold awaited. cbn [list_call] in Hlist.
  rewrite Hlist. rewrite filter_nonempty. unfold listed in Hlisted.
  rewrite Hlisted. cbn [negb bind run world]. unfold awaited. cbn [world].
  unfold try_catch, and_then, await.
  cbn [bind run Js.interpolate Js.interpolates Js.split_of].
  unfold awaited. cbn [world]. rewrite Hexec. cbn. repeat split; reflexivity.
Qed.

(** In the kind revision the handler reads [.stdout] of what
    [executeKubectlCommand] returned, which is the standard output itself:
    the document of a successful execution has no [output] at all. *)
Lemma kind_exec_omits_output {World : Type} `{Driver World}
  (p : Process World) (clientIp id command listing stdout : string)
  (w1 w2 : World) :
  id <> "" -> command <> "" ->
  settle (list_call Kind id) (world p) = (Fulfilled listing, w1) ->
  settle (Execa "kubectl"
            ("--context" :: ("kind-" ++ id) :: Js.split command " "%char)) w1
    = (Fulfilled stdout, w2) ->
  let res :=
    fst (run (router Kind PostSandboxExec (bearer clientIp id (Some command)))
           p) in
  statusCode res = 200 /\
  answer_field "command" res = Some command /\
  answer_field "output" res = None.
Proof.
  intros Hid Hcommand Hlist Hexec.
  cbn [router kind_router]. unfold KindServer.POST_sandbox_exec, route,
    KindServer.validateSandbox, KindServer.post_sandbox_exec,
    KindServer.executeKubectlCommand.
  cbn [bearer cookies_sandboxId body].
  rewrite (truthy_Some id Hid), destructure_posted,
    (to_boolean_Text command Hcommand).
  cbn [negb bind run Js.text]. unfold awaited. cbn [list_call] in Hlist.
  rewrite Hlist. cbn [negb bind run world]. unfold awaited. cbn [world].
  unfold try_catch, and_then, await. cbn [bind run Js.split_of].
  unfold awaited. cbn [world]. rewrite Hexec. cbn. repeat split; reflexivity.
Qed.

(** C4 (evaluation at the failing input).  A host on which both tools know
    the cluster [sb-abc1234567], and the command [get pods]: [kubectl]
    prints its output for either revision, the k3d revision answers with
    that output, the kind revision answers 200 with a document that has no
    [output]. *)
Theorem C4_kind_revision_omits_output :
  let host :=
    {| kind_clusters := ["sb-abc1234567"]; k3d_clusters := ["sb-abc1234567"];
       files := JsMap.empty; time := 0; nanoid := [] |} in
  let req := bearer "10.0.0.7" "sb-abc1234567" (Some "get pods") in
  let kind_out := run (router Kind PostSandboxExec req) (boot host) in
  let k3d_out := run (router K3d PostSandboxExec req) (boot host) in
  (statusCode (fst kind_out) = 200 /\
   In (Execa "kubectl" ["--context"; "kind-sb-abc1234567"; "get"; "pods"],
       Fulfilled "No resources found in default namespace.")
      (calls (snd kind_out)) /\
   answer_field "output" (fst kind_out) = None) /\
  (statusCode (fst k3d_out) = 200 /\
   In (Execa "kubectl" ["--context"; "k3d-sb-abc1234567"; "get"; "pods"],
       Fulfilled "No resources found in default namespace.")
      (calls (snd k3d_out)) /\
   answer_field "output" (fst k3d_out)
     = Some "No resources found in default namespace.").
Proof.
  cbv zeta. repeat split; try reflexivity.
  - vm_compute. right. left. reflexivity.
  - vm_compute. right. left. reflexivity.
Qed.

(* ================================================================== *)
(** * Deleting a sandbox *)

Lemma validated_settles {World : Type} `{Driver World} (r : Revision)
  (id : string) (w : World) :
  id <> "" ->
  validates_live r id w ->
  exists listing w',
    settle (list_call r id) w = (Fulfilled listing, w') /\
    (r = K3d -> listed id listing = true).
Proof.
  intros Hne Hlive. destruct r.
  - apply kind_validates_live_iff in Hlive; auto.
    destruct Hlive as (listing & w' & Hsettle).
    exists listing, w'. split; auto. discriminate.
  - apply k3d_validates_live_iff in Hlive; auto.
    destruct Hlive as (listing & w' & Hsettle & Hlisted).
    exists listing, w'. split; auto.
Qed.

(** C7 (counterexample).  The sandbox [sb-abc1234567] is registered and
    validates as live, and the driver rejects the deletion call: the claim
    has the registry entry removed and the token cleared after the driver
    call, but the route answers 500, the entry is still registered and the
    response clears no cookie. *)
Lemma C7_delete_after_driver_failure_counterexample :
  let w :=
    {| answers := [Fulfilled "sb-abc1234567";
                   Rejected "Cannot connect to the Docker daemon"];
       times := []; identifiers := [] |} in
  let p := with_sandboxes (boot w) [("sb-abc1234567", 0)] in
  let out :=
    run (router K3d DeleteSandbox (bearer "10.0.0.7" "sb-abc1234567" None)) p in
  validates_live K3d "sb-abc1234567" (world p) /\
  In (delete_call K3d "sb-abc1234567",
      Rejected "Cannot connect to the Docker daemon") (calls (snd out)) /\
  statusCode (fst out) = 500 /\
  JsMap.get (sandboxes (snd out)) "sb-abc1234567" = Some 0 /\
  client_cookie (Some "sb-abc1234567") (setCookies (fst out))
    = Some "sb-abc1234567".
Proof.
  cbv zeta. repeat split; try reflexivity.
  - do 2 eexists. vm_compute. reflexivity.
  - vm_compute. right. left. reflexivity.
Qed.

(** C7 (amended).  A delete request whose sandbox validates as live asks
    the driver for the listing and then for the deletion, and follows the
    outcome of the deletion call: when it is fulfilled the route answers
    200, the registry has no entry for the sandbox and the cookie is
    cleared; when it is rejected the route answers 500 with the failure
    message, and the registry and the cookie stay as they were. *)
Theorem C7_delete_follows_driver {World : Type} `{Driver World} (r : Revision)
  (p : Process World) (clientIp id : string) (command : option string) :
  id <> "" ->
  validates_live r id (world p) ->
  let out := run (router r DeleteSandbox (bearer clientIp id command)) p in
  exists listing outcome,
    since p (snd out)
      = [(list_call r id, Fulfilled listing); (delete_call r id, outcome)] /\
    match outcome with
    | Fulfilled _ =>
        statusCode (fst out) = 200 /\
        JsMap.get (sandboxes (snd out)) id = None /\
        client_cookie (Some id) (setCookies (fst out)) = None
    | Rejected message =>
        statusCode (fst out) = 500 /\
        answer_field "error" (fst out)
          = Some ("Failed to delete cluster: " ++ message) /\
        sandboxes (snd out) = sandboxes p /\
        client_cookie (Some id) (setCookies (fst out)) = Some id
    end.
Proof.
  intros Hne Hlive.
  destruct (validated_settles r id (world p) Hne Hlive)
    as (listing & w1 & Hlist & Hlisted).
  exists listing.
  destruct r; cbn [router kind_router k3d_router].
  - unfold KindServer.DELETE_sandbox, route, KindServer.validateSandbox,
      KindServer.delete_sandbox, KindServer.deleteCluster.
    cbn [bearer cookies_sandboxId]. rewrite (truthy_Some id Hne).
    cbn [negb bind run Js.text]. unfold awaited. cbn [list_call] in Hlist.
    rewrite Hlist. cbn [bind run]. unfold try_catch, and_then, await.
    cbn [bind run]. unfold awaited. cbn [world].
    destruct (settle _ w1) as [[stdout|message] w2]; simpl.
    + exists (Fulfilled stdout). split.
      * since_simpl. reflexivity.
      * cbn. repeat split. apply get_delete_same.
    + exists (Rejected message). split.
      * since_simpl. reflexivity.
      * cbn. repeat split.
  - unfold K3dServer.DELETE_sandbox, route, K3dServer.validateSandbox,
      K3dServer.delete_sandbox, K3dServer.deleteCluster.
    cbn [bearer cookies_sandboxId]. rewrite (truthy_Some id Hne).
    cbn [negb bind run Js.text]. unfold awaited. cbn [list_call] in Hlist.
    rewrite Hlist. rewrite filter_nonempty. fold (listed id listing).
    rewrite (Hlisted eq_refl).
    cbn [negb bind run]. unfold try_catch, and_then, await.
    cbn [bind run]. unfold awaited. cbn [world].
    destruct (settle _ w1) as [[stdout|message] w2]; simpl.
    + exists (Fulfilled stdout). split.
      * since_simpl. reflexivity.
      * cbn. repeat split. apply get_delete_same.
    + exists (Rejected message). split.
      * since_simpl. reflexivity.
      * cbn. repeat split.
Qed.

Lemma C7_delete_follows_driver_witness :
  let w :=
    {| answers := [Fulfilled "sb-abc1234567"; Fulfilled ""];
       times := []; identifiers := [] |} in
  let p := with_sandboxes (boot w) [("sb-abc1234567", 0)] in
  let out :=
    run (router K3d DeleteSandbox (bearer "10.0.0.7" "sb-abc1234567" None)) p in
  exists listing outcome,
    since p (snd out)
      = [(list_call K3d "sb-abc1234567", Fulfilled listing);
         (delete_call K3d "sb-abc1234567", outcome)] /\
    match outcome with
    | Fulfilled _ =>
        statusCode (fst out) = 200 /\
        JsMap.get (sandboxes (snd out)) "sb-abc1234567" = None /\
        client_cookie (Some "sb-abc1234567") (setCookies (fst out)) = None
    | Rejected message =>
        statusCode (fst out) = 500 /\
        answer_field "error" (fst out)
          = Some ("Failed to delete cluster: " ++ message) /\
        sandboxes (snd out) = sandboxes p /\
        client_cookie (Some "sb-abc1234567") (setCookies (fst out))
          = Some "sb-abc1234567"
    end.
Proof.
  intros w p.
  apply (C7_delete_follows_driver K3d p "10.0.0.7" "sb-abc1234567" None).
  - discriminate.
  - do 2 eexists. vm_compute. reflexivity.
Defined.

Lemma list_call_not_exec r id : exec_call (list_call r id) = false.
Proof. destruct r; reflexivity. Qed.

(* ================================================================== *)
(** * Reuse and the registry *)

Lemma get_None_absent {V : Type} (m : JsMap.t V) key :
  JsMap.get m key = None -> ~ In key (map fst m).
Proof.
  induction m as [|[k v] rest IH]; cbn; [tauto|].
  destruct (String.eqb_spec k key); [discriminate|].
  intros Hnone [Heq|Hin]; [contradiction|]. now apply IH.
Qed.

(** The sweeper asks the driver only about sandboxes that have an entry in
    the registry. *)
Lemma sweep_calls {World : Type} `{Driver World} (r : Revision)
  (p : Process World) :
  forall c,
    In c (since p (snd (run (cleanupExpiredSandboxes r) p))) ->
    exists k, In k (map fst (sandboxes p)) /\ fst c = delete_call r k.
Proof.
  intros c.
  destruct (sweep_body_spec (World := World) r (fst (date_now (world p))))
    as (body & Hrun & Hbody).
  rewrite (Hrun p eq_refl).
  destruct (sweep_loop r _ body Hbody (JsMap.entries (sandboxes p))
              (with_world p (snd (date_now (world p)))))
    as (l & Hcalls & Hmap & _).
  cbn [calls with_world] in Hcalls. rewrite (since_calls _ _ _ Hcalls).
  intros Hin. apply (in_map fst) in Hin. rewrite Hmap in Hin.
  apply in_map_iff in Hin. destruct Hin as ([k T] & Heq & Hin).
  apply filter_In in Hin. destruct Hin as [Hin _].
  exists k. split; auto.
  change k with (fst (k, T)). now apply in_map.
Qed.

(** C10.  A create request that reuses the sandbox of its cookie -- the
    guard lets it pass and the sandbox validates as live -- answers with
    that sandbox after one call, the driver's listing; the registry after
    the request is the registry before it, entry for entry and timestamp for
    timestamp; the answer is the same whatever the registry holds, so a
    sandbox without an entry is reused all the same; and for such a sandbox
    a run of the sweeper after the request asks the driver for no
    deletion. *)
Theorem C10_reuse_leaves_registry {World : Type} `{Driver World}
  (r : Revision) (p : Process World) (clientIp id : string)
  (command : option string) :
  id <> "" ->
  ~ lock_held p clientIp ->
  validates_live r id (world p) ->
  let req := bearer clientIp id command in
  let out := run (router r PostSandbox req) p in
  answer_field "sandboxId" (fst out) = Some id /\
  (exists listing,
     since p (snd out) = [(list_call r id, Fulfilled listing)]) /\
  sandboxes (snd out) = sandboxes p /\
  (forall registry,
     fst (run (router r PostSandbox req) (with_sandboxes p registry))
     = fst out) /\
  (JsMap.get (sandboxes p) id = None ->
   forall c,
     In c (since (snd out) (snd (run (cleanupExpiredSandboxes r) (snd out)))) ->
     deletion_call id (fst c) = false).
Proof.
  intros Hne Hfree Hlive req out. subst req out.
  destruct (reuse_once r p clientIp id command Hne Hfree Hlive)
    as (listing & w' & res & _ & Hrun & Hres & _ & _ & _ & Hid).
  rewrite Hrun. cbn [fst snd].
  split; [exact Hid|]. split.
  { exists listing. unfold since. cbn [calls]. apply skipn_app_exact. }
  split; [reflexivity|]. split.
  - intros registry.
    destruct (reuse_once r (with_sandboxes p registry) clientIp id command
                Hne Hfree Hlive)
      as (listing' & w'' & res' & _ & Hrun' & Hres' & _).
    rewrite Hrun'. cbn [fst]. congruence.
  - intros Hnone c Hin.
    destruct (sweep_calls r _ c Hin) as (k & Hk & Hc).
    cbn [sandboxes] in Hk. rewrite Hc, deletion_call_delete_call.
    destruct (String.eqb_spec k id) as [->|]; auto.
    exfalso. now apply (get_None_absent _ _ Hnone).
Qed.

Lemma C10_reuse_leaves_registry_witness :
  let w :=
    {| answers := [Fulfilled "sb-abc1234567"; Fulfilled ""];
       times := [7200000]; identifiers := [] |} in
  let p := with_sandboxes (boot w) [("sb-zzz0000000", 0)] in
  let req := bearer "10.0.0.7" "sb-abc1234567" None in
  let out := run (router K3d PostSandbox req) p in
  answer_field "sandboxId" (fst out) = Some "sb-abc1234567" /\
  (exists listing,
     since p (snd out) = [(list_call K3d "sb-abc1234567", Fulfilled listing)]) /\
  sandboxes (snd out) = sandboxes p /\
  (forall registry,
     fst (run (router K3d PostSandbox req) (with_sandboxes p registry))
     = fst out) /\
  (forall c,
     In c (since (snd out)
             (snd (run (cleanupExpiredSandboxes K3d) (snd out)))) ->
     deletion_call "sb-abc1234567" (fst c) = false).
Proof.
  intros w p req out.
  destruct (C10_reuse_leaves_registry K3d p "10.0.0.7" "sb-abc1234567" None)
    as (Hid & Hcalls & Hreg & Hany & Hsweep).
  - discriminate.
  - unfold lock_held. simpl. discriminate.
  - do 2 eexists. vm_compute. reflexivity.
  - repeat split; auto.
Defined.

(* ================================================================== *)
(** * The admission guard under concurrent requests *)

Lemma LockFree_weaken {A : Type} (P : A -> Prop) (n m : nat) (t : Task A) :
  LockFree P n t -> (n <= m)%nat -> LockFree P m t.
Proof.
  intros Ht. revert m. induction Ht; intros m Hle;
    try (constructor; auto; fail).
  - destruct m as [|m]; [lia|]. constructor. intros r. apply H0. lia.
  - destruct m as [|m]; [lia|]. constructor. apply IHHt. lia.
Qed.

Lemma LockFree_bind {A B : Type} (P : A -> Prop) (Q : B -> Prop)
  (n m : nat) (t : Task A) (f : A -> Task B) :
  LockFree P n t ->
  (forall a, P a -> LockFree Q m (f a)) ->
  LockFree Q (n + m) (bind t f).
Proof.
  intros Ht Hf. induction Ht; cbn [bind Nat.add]; try (constructor; auto; fail).
  apply LockFree_weaken with (n := m); auto. lia.
Qed.

Lemma Releasing_weaken clientIp (n m : nat) (t : Task Res) :
  Releasing clientIp n t -> (n <= m)%nat -> Releasing clientIp m t.
Proof.
  intros Ht. revert m. induction Ht; intros m Hle;
    try (econstructor; eauto; fail).
  - destruct m as [|m]; [lia|]. constructor. intros r. apply H0. lia.
  - destruct m as [|m]; [lia|]. constructor. apply IHHt. lia.
Qed.

Lemma Releasing_bind {A : Type} (P : A -> Prop) clientIp (n m : nat)
  (t : Task A) (f : A -> Task Res) :
  LockFree P n t ->
  (forall a, P a -> Releasing clientIp m (f a)) ->
  Releasing clientIp (n + m) (bind t f).
Proof.
  intros Ht Hf. induction Ht; cbn [bind Nat.add]; try (constructor; auto; fail).
  apply Releasing_weaken with (n := m); auto. lia.
Qed.

(** Build the derivation that a handler is lock-free by walking its code. *)
Ltac lock_free :=
  repeat first
    [ progress cbn [bind for_of]
    | apply LockFree_Ret
    | apply LockFree_Await; intros [?|?]
    | apply LockFree_Sleep
    | apply LockFree_DateNow; intros ?
    | apply LockFree_GenerateId; intros ?
    | apply LockFree_SandboxesEntries; intros ?
    | apply LockFree_SandboxesSet
    | apply LockFree_SandboxesDelete
    | apply LockFree_Connected; intros [|]
    | match goal with
      | |- LockFree _ _ (if ?b then _ else _) => destruct b
      | |- LockFree _ _ (match ?c with
                         | Js.Normal _ => _
                         | Js.Throw _ => _
                         end) => destruct c
      end ].

Lemma createCluster_lock_free r id :
  LockFree (fun _ => True) 3 (createCluster r id).
Proof.
  destruct r; cbn [createCluster];
    unfold KindServer.createCluster, K3dServer.createCluster,
      try_catch, and_then, await, sleep, resolve, throw;
    lock_free; exact I.
Qed.

Lemma provision_lock_free r res :
  LockFree (fun res' => finishListeners res' = finishListeners res) 3
    (provision r res).
Proof.
  destruct r; cbn [provision];
    unfold KindServer.provision, K3dServer.provision;
    apply LockFree_GenerateId; intros generated;
    change 3%nat with (3 + 0)%nat;
    (eapply LockFree_bind;
     [apply (createCluster_lock_free Kind) || apply (createCluster_lock_free K3d)
     |intros [ok|message] _; apply LockFree_Ret; reflexivity]).
Qed.

Lemma post_sandbox_lock_free r req res :
  LockFree (fun res' => finishListeners res' = finishListeners res) 4
    (match r with
     | Kind => KindServer.post_sandbox req res
     | K3d => K3dServer.post_sandbox req res
     end).
Proof.
  destruct r; unfold KindServer.post_sandbox, K3dServer.post_sandbox;
    (destruct (Js.truthy (cookies_sandboxId req));
     [|apply LockFree_weaken with (n := 3%nat); [|lia]]).
  - apply LockFree_Await. intros [stdout|message].
    + apply LockFree_Ret. reflexivity.
    + apply LockFree_SandboxesDelete.
      apply (provision_lock_free Kind (clearCookie res "sandboxId")).
  - apply (provision_lock_free Kind).
  - apply LockFree_Await. intros [stdout|message].
    + destruct (0 <? _)%nat.
      * apply LockFree_Ret. reflexivity.
      * apply (provision_lock_free K3d).
    + apply LockFree_SandboxesDelete.
      apply (provision_lock_free K3d (clearCookie res "sandboxId")).
  - apply (provision_lock_free K3d).
Qed.

(** The create route has the shape of a guarded route. *)
Lemma create_route_admission r req :
  Admission (ip req) 4 (router r PostSandbox req).
Proof.
  assert (Hrelease : forall res,
    finishListeners res = [LocksDelete (ip req) (Ret tt)] ->
    Releasing (ip req) 0 (emit_finish res)).
  { intros res Hl. unfold emit_finish. rewrite Hl.
    apply Releasing_now with (res := res); reflexivity. }
  destruct r; cbn [router kind_router k3d_router];
    unfold KindServer.POST_sandbox, K3dServer.POST_sandbox, route,
      KindServer.preventConcurrentRequests,
      K3dServer.preventConcurrentRequests; cbn [bind];
    (constructor;
     [eexists; split; [reflexivity|split; reflexivity]
     |intros held Hheld; eexists; split;
      [destruct held as [[|]|]; [contradiction|reflexivity|reflexivity]|]]);
    change 4%nat with (4 + 0)%nat.
  - eapply Releasing_bind.
    + apply (post_sandbox_lock_free Kind).
    + intros res Hl. apply Hrelease. rewrite Hl. reflexivity.
  - eapply Releasing_bind.
    + apply (post_sandbox_lock_free K3d).
    + intros res Hl. apply Hrelease. rewrite Hl. reflexivity.
Qed.

Lemma emit_finish_quiet (res : Res) :
  finishListeners res = [] ->
  LockFree (fun res' => res' = res) 0 (emit_finish res).
Proof.
  unfold emit_finish. intros ->. apply LockFree_Connected.
  intros [|]; apply LockFree_Ret; reflexivity.
Qed.

Lemma run_emit_finish_quiet {World : Type} `{Driver World} (res : Res)
  (p : Process World) :
  finishListeners res = [] -> run (emit_finish res) p = (res, p).
Proof. unfold emit_finish. intros ->. reflexivity. Qed.

Lemma validateSandbox_lock_free r req res :
  LockFree (fun v => match v with
                     | Next res' | Answered res' =>
                         finishListeners res' = finishListeners res
                     end) 1 (validateSandbox r req res).
Proof.
  destruct r; cbn [validateSandbox];
    unfold KindServer.validateSandbox, K3dServer.validateSandbox;
    destruct (negb _); lock_free; reflexivity.
Qed.

Lemma exec_handler_lock_free r req res :
  LockFree (fun res' => finishListeners res' = finishListeners res) 1
    (match r with
     | Kind => KindServer.post_sandbox_exec req res
     | K3d => K3dServer.post_sandbox_exec req res
     end).
Proof.
  destruct r;
    unfold KindServer.post_sandbox_exec, K3dServer.post_sandbox_exec,
      KindServer.executeKubectlCommand, K3dServer.executeKubectlCommand,
      try_catch, and_then, await, resolve, throw, Js.interpolate;
    (destruct (Js.destructure "command" "req.body" (body req))
       as [command|message]; [|lock_free; reflexivity]);
    (destruct (negb (Js.to_boolean command)); [lock_free; reflexivity|]);
    try destruct (Js.interpolates command);
    destruct (Js.split_of "command" command " "%char);
    lock_free; reflexivity.
Qed.

Lemma delete_handler_lock_free r req res :
  LockFree (fun res' => finishListeners res' = finishListeners res) 1
    (match r with
     | Kind => KindServer.delete_sandbox req res
     | K3d => K3dServer.delete_sandbox req res
     end).
Proof.
  destruct r;
    unfold KindServer.delete_sandbox, K3dServer.delete_sandbox,
      KindServer.deleteCluster, K3dServer.deleteCluster,
      try_catch, and_then, await, resolve, throw;
    lock_free; reflexivity.
Qed.

Lemma validated_route_lock_free r (handler : Request -> Res -> Task Res) req :
  (forall res,
     LockFree (fun res' => finishListeners res' = finishListeners res) 1
       (handler req res)) ->
  LockFree (fun _ => True) 2 (route (validateSandbox r) handler req).
Proof.
  intros Hhandler. unfold route. change 2%nat with (1 + (1 + 0))%nat.
  eapply LockFree_bind; [apply validateSandbox_lock_free|].
  intros v Hv. eapply LockFree_bind.
  - instantiate (1 := fun res' => finishListeners res' = []).
    destruct v as [res|res]; cbn in Hv.
    + eapply LockFree_weaken; [|apply Nat.le_refl].
      specialize (Hhandler res). rewrite Hv in Hhandler. exact Hhandler.
    + apply LockFree_Ret. exact Hv.
  - intros res Hres. cbn beta in Hres. unfold emit_finish. rewrite Hres.
    apply LockFree_Connected. intros [|]; now apply LockFree_Ret.
Qed.

Lemma other_routes_lock_free r e req :
  e <> PostSandbox -> LockFree (fun _ => True) 2 (router r e req).
Proof.
  intros He. destruct e; [contradiction| |]; destruct r;
    cbn [router kind_router k3d_router];
    unfold KindServer.POST_sandbox_exec, K3dServer.POST_sandbox_exec,
      KindServer.DELETE_sandbox, K3dServer.DELETE_sandbox.
  - apply (validated_route_lock_free Kind). apply (exec_handler_lock_free Kind).
  - apply (validated_route_lock_free K3d). apply (exec_handler_lock_free K3d).
  - apply (validated_route_lock_free Kind).
    apply (delete_handler_lock_free Kind).
  - apply (validated_route_lock_free K3d).
    apply (delete_handler_lock_free K3d).
Qed.

Section Admission.
Context {World : Type} `{Driver World}.

Lemma advance_lock_free {A : Type} (P : A -> Prop) (n : nat) (t : Task A) :
  LockFree P n t ->
  forall p : Process World,
    creationLocks (snd (advance t p)) = creationLocks p /\
    match fst (advance t p) with
    | inl a => P a
    | inr s => exists m, (m < n)%nat /\ suspended_task (LockFree P) m s
    end.
Proof.
  induction 1 as
    [n a Ha|n call k Hk IH|n ms k Hk IH|n k Hk IH|n k Hk IH|n k Hk IH
    |n id at_ k Hk IH|n id k Hk IH|n k Hk IH]; intros p;
    cbn [advance fst snd].
  - auto.
  - split; auto. exists n. split; [lia|exact Hk].
  - split; auto. exists n. split; [lia|exact Hk].
  - destruct (date_now (world p)) as [now w]. exact (IH now (with_world p w)).
  - destruct (generate_id (world p)) as [id w]. exact (IH id (with_world p w)).
  - exact (IH _ p).
  - exact (IH (with_sandboxes p _)).
  - exact (IH (with_sandboxes p _)).
  - exact (IH true p).
Qed.

Lemma advance_releasing clientIp (n : nat) (t : Task Res) :
  Releasing clientIp n t ->
  forall p : Process World,
    match fst (advance t p) with
    | inl _ =>
        creationLocks (snd (advance t p))
        = JsMap.delete (creationLocks p) clientIp
    | inr s =>
        creationLocks (snd (advance t p)) = creationLocks p /\
        exists m, (m < n)%nat /\ suspended_task (Releasing clientIp) m s
    end.
Proof.
  induction 1 as
    [n k res Hopen Hclosed|n call k Hk IH|n ms k Hk IH|n k Hk IH|n k Hk IH
    |n k Hk IH|n id at_ k Hk IH|n id k Hk IH|n k Hk IH]; intros p;
    cbn [advance fst snd].
  - rewrite Hopen. reflexivity.
  - split; auto. exists n. split; [lia|exact Hk].
  - split; auto. exists n. split; [lia|exact Hk].
  - destruct (date_now (world p)) as [now w]. exact (IH now (with_world p w)).
  - destruct (generate_id (world p)) as [id w]. exact (IH id (with_world p w)).
  - exact (IH _ p).
  - exact (IH (with_sandboxes p _)).
  - exact (IH (with_sandboxes p _)).
  - exact (IH true p).
Qed.

Lemma wake_task {A : Type} (Q : nat -> Task A -> Prop) (n : nat)
  (s : Suspended A) (p : Process World) :
  suspended_task Q n s ->
  Q n (fst (wake s p)) /\
  creationLocks (snd (wake s p)) = creationLocks p.
Proof.
  destruct s as [call k|ms k]; cbn [suspended_task wake].
  - intros Hk. unfold awaited. destruct (settle call (world p)) as [r w].
    cbn [fst snd creationLocks]. auto.
  - auto.
Qed.

End Admission.

Lemma Endpoint_eq_dec (e e' : Endpoint) : {e = e'} + {e <> e'}.
Proof. decide equality. Defined.

Lemma creating_app clientIp l l' :
  creating clientIp (l ++ l')
  = (creating clientIp l + creating clientIp l')%nat.
Proof. unfold creating. apply count_app. Qed.

Lemma creating_cons clientIp pending l :
  creating clientIp (pending :: l)
  = ((if is_creation clientIp pending then 1 else 0) + creating clientIp l)%nat.
Proof.
  unfold creating, count. cbn [filter].
  destruct (is_creation clientIp pending); reflexivity.
Qed.

Lemma creating_remove_nth clientIp n l pending :
  nth_error l n = Some pending ->
  creating clientIp l
  = ((if is_creation clientIp pending then 1 else 0)
     + creating clientIp (remove_nth n l))%nat.
Proof.
  revert n. induction l as [|x l IH]; intros [|n]; cbn [nth_error remove_nth];
    try discriminate.
  - intros [= ->]. apply creating_cons.
  - intros Hnth. rewrite !creating_cons, (IH n Hnth). lia.
Qed.

Lemma creating_replace_nth clientIp n l pending pending' :
  nth_error l n = Some pending ->
  is_creation clientIp pending' = is_creation clientIp pending ->
  creating clientIp (replace_nth n pending' l) = creating clientIp l.
Proof.
  revert n. induction l as [|x l IH]; intros [|n]; cbn [nth_error replace_nth];
    try discriminate.
  - intros [= ->] Hsame. now rewrite !creating_cons, Hsame.
  - intros Hnth Hsame. rewrite !creating_cons, (IH n Hnth Hsame). lia.
Qed.

Lemma Forall_remove_nth {X : Type} (P : X -> Prop) n (l : list X) :
  Forall P l -> Forall P (remove_nth n l).
Proof.
  intros Hall. revert n. induction Hall; intros [|n]; cbn [remove_nth]; auto.
Qed.

Lemma Forall_replace_nth {X : Type} (P : X -> Prop) n (x : X) (l : list X) :
  Forall P l -> P x -> Forall P (replace_nth n x l).
Proof.
  intros Hall Hx. revert n.
  induction Hall; intros [|n]; cbn [replace_nth]; auto.
Qed.

Lemma nth_error_replace_nth {X : Type} n (x y : X) (l : list X) :
  nth_error l n = Some y -> nth_error (replace_nth n x l) n = Some x.
Proof.
  revert n. induction l as [|z l IH]; intros [|n]; cbn; try discriminate; auto.
Qed.

Lemma Forall_nth_error {X : Type} (P : X -> Prop) n (x : X) (l : list X) :
  Forall P l -> nth_error l n = Some x -> P x.
Proof.
  intros Hall Hnth. apply nth_error_In in Hnth.
  now apply (proj1 (Forall_forall P l) Hall).
Qed.

Lemma creating_positive clientIp l :
  (0 < creating clientIp l)%nat ->
  exists n pending,
    nth_error l n = Some pending /\ is_creation clientIp pending = true.
Proof.
  induction l as [|x l IH]; [cbn; lia|].
  rewrite creating_cons. destruct (is_creation clientIp x) eqn:E.
  - intros _. exists 0%nat, x. auto.
  - intros Hpos. destruct IH as (n & pending & Hnth & Hc); [lia|].
    exists (S n), pending. auto.
Qed.

Lemma is_creation_true clientIp pending :
  is_creation clientIp pending = true ->
  endpoint pending = PostSandbox /\ ip (request pending) = clientIp.
Proof.
  unfold is_creation. destruct (endpoint pending); try discriminate.
  intros Heq. split; auto. now apply String.eqb_eq.
Qed.

Section Invariant.
Context {World : Type} `{Driver World}.
Variable routes : Endpoint -> Request -> Task Res.
Hypothesis routes_create :
  forall req, Admission (ip req) 4 (routes PostSandbox req).
Hypothesis routes_other :
  forall e req, e <> PostSandbox -> LockFree (fun _ => True) 2 (routes e req).

Lemma invariant_intro (s s' : Server World) :
  Forall (well_suspended 4) (inflight s') ->
  (forall clientIp,
     creating clientIp (inflight s') = creating clientIp (inflight s) /\
     JsMap.get (creationLocks (process s')) clientIp
     = JsMap.get (creationLocks (process s)) clientIp) ->
  admission_invariant 4 s -> admission_invariant 4 s'.
Proof.
  intros Hall Hsame [_ Hinv]. split; auto.
  intros clientIp. destruct (Hsame clientIp) as [-> ->]. apply Hinv.
Qed.

Lemma not_creation_other clientIp pending :
  endpoint pending <> PostSandbox -> is_creation clientIp pending = false.
Proof. unfold is_creation. destruct (endpoint pending); congruence. Qed.

Lemma creating_snoc clientIp l pending :
  creating clientIp (l ++ [pending])
  = (creating clientIp l + (if is_creation clientIp pending then 1 else 0))%nat.
Proof. rewrite creating_app, creating_cons. cbn. lia. Qed.

Lemma advance_denied (res : Res) (p : Process World) :
  finishListeners res = [] -> advance (emit_finish res) p = (inl res, p).
Proof. unfold emit_finish. intros ->. reflexivity. Qed.

(** Every event in which no client closes its connection keeps the
    admission invariant. *)
Lemma step_invariant (ev : Event World) (s : Server World) :
  stays_connected ev = true ->
  admission_invariant 4 s -> admission_invariant 4 (step routes ev s).
Proof.
  intros Hconnected Hinv. pose proof Hinv as [Hall Hlocks].
  destruct ev as [e req|n|n|registry outside]; cbn [step].
  - (* a request arrives *)
    destruct (Endpoint_eq_dec e PostSandbox) as [->|He].
    + destruct (routes_create req) as [k Hdenied Hgranted].
      cbn [advance].
      destruct (Hlocks (ip req)) as [[Hnone Hfree]|[Hone Hheld]].
      * rewrite Hfree.
        destruct (Hgranted None) as (t & -> & Ht); [discriminate|].
        cbn [advance].
        pose proof (advance_releasing _ _ _ Ht
          (with_locks (process s)
             (JsMap.set (creationLocks (process s)) (ip req) true))) as Hadv.
        destruct (advance t _) as [[res|susp] p']; cbn [fst snd] in Hadv.
        -- split; cbn [inflight process]; auto.
           intros clientIp. rewrite Hadv. cbn [creationLocks with_locks].
           destruct (String.eqb_spec clientIp (ip req)) as [->|Hne].
           ++ left. split; auto. apply get_delete_same.
           ++ rewrite get_delete_other, get_set_other by auto. apply Hlocks.
        -- destruct Hadv as (Hl & m & Hm & Hsusp).
           split; cbn [inflight process].
           ++ apply Forall_app. split; auto. constructor; [|constructor].
              unfold well_suspended. cbn [endpoint request suspended].
              exists m. auto.
           ++ intros clientIp. rewrite Hl. cbn [creationLocks with_locks].
              rewrite creating_snoc. unfold is_creation.
              cbn [endpoint request].
              destruct (String.eqb_spec (ip req) clientIp) as [<-|Hne].
              ** right. rewrite Hnone. split; auto. apply get_set_same.
              ** rewrite get_set_other by auto.
                 rewrite Nat.add_0_r. apply Hlocks.
      * rewrite Hheld. destruct Hdenied as (res & -> & Hquiet & _).
        rewrite (advance_denied res _ Hquiet).
        apply invariant_intro with (s := s); [exact Hall| |exact Hinv].
        intros clientIp. split; reflexivity.
    + pose proof (advance_lock_free _ _ _ (routes_other e req He) (process s))
        as [Hl Hadv].
      destruct (advance (routes e req) (process s)) as [[res|susp] p'];
        cbn [fst snd] in *.
      * apply invariant_intro with (s := s); [exact Hall| |exact Hinv].
        intros clientIp. cbn [inflight process]. now rewrite Hl.
      * destruct Hadv as (m & Hm & Hsusp).
        apply invariant_intro with (s := s); [| |exact Hinv];
          cbn [inflight process].
        -- apply Forall_app. split; auto. constructor; [|constructor].
           unfold well_suspended. cbn [endpoint request suspended].
           destruct e; [contradiction|eauto|eauto].
        -- intros clientIp. rewrite Hl, creating_snoc.
           rewrite not_creation_other by exact He. split; auto.
  - (* what a suspended request awaits settles *)
    destruct (nth_error (inflight s) n) as [pending|] eqn:Hnth; auto.
    pose proof (Forall_nth_error _ _ _ _ Hall Hnth) as Hwell.
    unfold well_suspended in Hwell.
    destruct (Endpoint_eq_dec (endpoint pending) PostSandbox) as [He|He].
    + rewrite He in Hwell. destruct Hwell as (m & Hm & Hsusp).
      destruct (wake_task _ _ _ (process s) Hsusp) as [Ht Hl1].
      destruct (wake (suspended pending) (process s)) as [t p1].
      cbn [fst snd] in *.
      pose proof (advance_releasing _ _ _ Ht p1) as Hadv.
      assert (Hmine : is_creation (ip (request pending)) pending = true).
      { unfold is_creation. rewrite He. apply String.eqb_refl. }
      destruct (advance t p1) as [[res|susp] p']; cbn [fst snd] in Hadv.
      * split; cbn [inflight process].
        -- now apply Forall_remove_nth.
        -- intros clientIp. rewrite Hadv, Hl1.
           pose proof (creating_remove_nth clientIp _ _ _ Hnth) as Hcount.
           destruct (String.eqb_spec clientIp (ip (request pending)))
             as [->|Hne].
           ++ rewrite Hmine in Hcount. left. split.
              ** destruct (Hlocks (ip (request pending))) as [[Hz _]|[Ho _]];
                   lia.
              ** apply get_delete_same.
           ++ rewrite get_delete_other by auto.
              assert (Hnot : is_creation clientIp pending = false).
              { unfold is_creation. rewrite He.
                apply String.eqb_neq. congruence. }
              rewrite Hnot in Hcount. cbn in Hcount. rewrite <- Hcount.
              apply Hlocks.
      * destruct Hadv as (Hl & m' & Hm' & Hsusp').
        apply invariant_intro with (s := s); [| |exact Hinv];
          cbn [inflight process].
        -- apply Forall_replace_nth; auto. unfold well_suspended.
           cbn [endpoint request suspended]. rewrite He.
           exists m'. split; [lia|exact Hsusp'].
        -- intros clientIp. rewrite Hl, Hl1. split; auto.
           now apply creating_replace_nth with (pending := pending).
    + assert (Hfree : exists m,
                suspended_task (LockFree (fun _ => True)) m (suspended pending)).
      { destruct (endpoint pending); [contradiction|exact Hwell|exact Hwell]. }
      destruct Hfree as (m & Hsusp).
      destruct (wake_task _ _ _ (process s) Hsusp) as [Ht Hl1].
      destruct (wake (suspended pending) (process s)) as [t p1].
      cbn [fst snd] in *.
      pose proof (advance_lock_free _ _ _ Ht p1) as [Hl Hadv].
      destruct (advance t p1) as [[res|susp] p']; cbn [fst snd] in *.
      * apply invariant_intro with (s := s); [| |exact Hinv];
          cbn [inflight process].
        -- now apply Forall_remove_nth.
        -- intros clientIp. rewrite Hl, Hl1. split; auto.
           rewrite (creating_remove_nth clientIp _ _ _ Hnth).
           now rewrite not_creation_other by exact He.
      * destruct Hadv as (m' & Hm' & Hsusp').
        apply invariant_intro with (s := s); [| |exact Hinv];
          cbn [inflight process].
        -- apply Forall_replace_nth; auto. unfold well_suspended.
           cbn [endpoint request suspended].
           destruct (endpoint pending); [contradiction|eauto|eauto].
        -- intros clientIp. rewrite Hl, Hl1. split; auto.
           now apply creating_replace_nth with (pending := pending).
  - (* a client closes its connection *)
    discriminate.
  - (* something else changes the registry or the world *)
    apply invariant_intro with (s := s); [exact Hall| |exact Hinv].
    intros clientIp. split; reflexivity.
Qed.

Lemma steps_invariant (evs : list (Event World)) (s : Server World) :
  forallb stays_connected evs = true ->
  admission_invariant 4 s -> admission_invariant 4 (steps routes evs s).
Proof.
  revert s. induction evs as [|ev evs IH]; intros s Hconnected Hinv; auto.
  cbn [forallb] in Hconnected. apply andb_prop in Hconnected.
  destruct Hconnected as [Hev Hevs].
  cbn [steps fold_left]. apply IH; [exact Hevs|]. now apply step_invariant.
Qed.

Lemma listening_invariant (w : World) : admission_invariant 4 (listening w).
Proof.
  split; cbn; [constructor|]. intros clientIp. now left.
Qed.

(** The calls awaited by the request that holds a lock settle, and the
    lock is released: at most [k + 1] settlements when the request is
    suspended with [k] suspensions left after this one. *)
Lemma settles_release (k : nat) :
  forall (s : Server World) n pending,
    nth_error (inflight s) n = Some pending ->
    endpoint pending = PostSandbox ->
    suspended_task (Releasing (ip (request pending))) k (suspended pending) ->
    exists m, (m <= S k)%nat /\
      JsMap.get
        (creationLocks (process (steps routes (repeat (Settle n) m) s)))
        (ip (request pending)) = None.
Proof.
  induction k as [k IH] using lt_wf_ind.
  intros s n pending Hnth He Hsusp.
  destruct (wake_task _ _ _ (process s) Hsusp) as [Ht Hl1].
  pose proof (advance_releasing _ _ _ Ht (snd (wake (suspended pending)
                                                (process s)))) as Hadv.
  destruct (advance (fst (wake (suspended pending) (process s)))
              (snd (wake (suspended pending) (process s))))
    as [[res|susp] p'] eqn:Eadv; cbn [fst snd] in Hadv.
  - exists 1%nat. split; [lia|]. cbn [repeat steps fold_left step].
    rewrite Hnth.
    destruct (wake (suspended pending) (process s)) as [t p1].
    cbn [fst snd] in *. rewrite Eadv. cbn [process].
    rewrite Hadv. apply get_delete_same.
  - destruct Hadv as (Hl & m' & Hm' & Hsusp').
    set (pending' := {| endpoint := endpoint pending;
                        request := request pending; suspended := susp |}).
    set (s' := {| process := p';
                  inflight := replace_nth n pending' (inflight s);
                  outbox := outbox s |}).
    destruct (IH m' Hm' s' n pending') as (m & Hm & Hfree).
    + apply nth_error_replace_nth with (y := pending). exact Hnth.
    + exact He.
    + exact Hsusp'.
    + exists (S m). split; [lia|]. cbn [repeat steps fold_left step].
      rewrite Hnth.
      destruct (wake (suspended pending) (process s)) as [t p1].
      cbn [fst snd] in *. rewrite Eadv. exact Hfree.
Qed.

End Invariant.

(** A creation request that passes the guard does not answer in the turn
    in which it arrives: it waits for the first call it awaits. *)
Lemma creation_waits {World : Type} `{Driver World} (r : Revision)
  (req : Request) (p : Process World) :
  ~ lock_held p (ip req) ->
  exists waiting p',
    advance (router r PostSandbox req) p = (inr waiting, p').
Proof.
  intros Hfree.
  pose proof (lock_free_get p (ip req) Hfree) as Hget.
  destruct r; cbn [router kind_router k3d_router];
    unfold KindServer.POST_sandbox, K3dServer.POST_sandbox, route,
      KindServer.preventConcurrentRequests,
      K3dServer.preventConcurrentRequests,
      KindServer.post_sandbox, K3dServer.post_sandbox,
      KindServer.provision, K3dServer.provision,
      KindServer.createCluster, K3dServer.createCluster,
      try_catch, and_then, await;
    cbn [bind advance]; rewrite Hget; cbn [bind advance];
    (destruct (Js.truthy (cookies_sandboxId req)); cbn [bind advance];
     [eauto|]);
    cbn [world with_locks];
    destruct (generate_id (world p)) as [generated w];
    cbn [bind advance]; eauto.
Qed.

(** X16.  The admission guard while every client stays connected, for
    both revisions, any driver and any interleaving of arriving requests,
    settling calls and changes made by the sweeper or the outside world,
    from the moment the server starts listening:

    - per client, either no creation request is in flight and no lock is
      held, or exactly one is in flight and the lock is held;
    - a creation request that arrives while the lock of its client is free
      is let in: it takes the lock and waits in flight;
    - while the lock of a client is held, a further creation request of
      that client is answered at once with status 429 and the process is
      left as it is, so the driver is not called;
    - a held lock is released once the calls that its request awaits have
      settled, four of them at most, however they settle;
    - a request that passes the guard and runs to its end leaves no lock
      for its client and does not touch the locks of others. *)
Theorem X16_admission_guard_while_connected {World : Type} `{Driver World}
  (r : Revision) (w : World) (evs : list (Event World)) :
  forallb stays_connected evs = true ->
  let s := steps (router r) evs (listening w) in
  (forall clientIp,
     (creating clientIp (inflight s) = 0%nat /\
      JsMap.get (creationLocks (process s)) clientIp = None) \/
     (creating clientIp (inflight s) = 1%nat /\
      JsMap.get (creationLocks (process s)) clientIp = Some true)) /\
  (forall req,
     ~ lock_held (process s) (ip req) ->
     let s' := step (router r) (Arrive PostSandbox req) s in
     lock_held (process s') (ip req) /\
     exists waiting,
       inflight s'
       = (inflight s ++
          [{| endpoint := PostSandbox; request := req;
              suspended := waiting |}])%list) /\
  (forall req,
     lock_held (process s) (ip req) ->
     exists res,
       step (router r) (Arrive PostSandbox req) s
       = {| process := process s; inflight := inflight s;
            outbox := outbox s ++ [(PostSandbox, req, res)] |} /\
       statusCode res = 429) /\
  (forall clientIp,
     lock_held (process s) clientIp ->
     exists n m,
       (m <= 4)%nat /\
       ~ lock_held
           (process (steps (router r) (repeat (Settle n) m) s)) clientIp) /\
  (forall req (p : Process World),
     ~ lock_held p (ip req) ->
     let p' := snd (run (router r PostSandbox req) p) in
     JsMap.get (creationLocks p') (ip req) = None /\
     forall other,
       other <> ip req ->
       JsMap.get (creationLocks p') other = JsMap.get (creationLocks p) other).
Proof.
  intros Hconnected s.
  assert (Hinv : admission_invariant 4 s).
  { apply steps_invariant.
    - apply create_route_admission.
    - apply other_routes_lock_free.
    - exact Hconnected.
    - apply listening_invariant. }
  pose proof Hinv as [Hall Hlocks].
  split; [exact Hlocks|]. split; [|split; [|split]].
  - intros req Hfree s'.
    assert (Hinv' : admission_invariant 4 s').
    { apply step_invariant;
        [apply create_route_admission|apply other_routes_lock_free
        |reflexivity|exact Hinv]. }
    destruct (creation_waits r req (process s) Hfree)
      as (waiting & p' & Hwaits).
    assert (Hflight :
      inflight s'
      = (inflight s ++
         [{| endpoint := PostSandbox; request := req;
             suspended := waiting |}])%list).
    { subst s'. cbn [step]. rewrite Hwaits. reflexivity. }
    split; [|exists waiting; exact Hflight].
    destruct Hinv' as [_ Hlocks'].
    destruct (Hlocks' (ip req)) as [[Hnone _]|[_ Hheld]]; [|exact Hheld].
    rewrite Hflight, creating_app, creating_cons in Hnone.
    unfold is_creation in Hnone. cbn [endpoint request] in Hnone.
    rewrite String.eqb_refl in Hnone. lia.
  - intros req Hheld. unfold lock_held in Hheld. cbn [step].
    destruct (create_route_admission r req)
      as [k (res & Hk & Hquiet & Hst) _].
    exists res. split; [|exact Hst].
    cbn [advance]. rewrite Hheld, Hk, (advance_denied res _ Hquiet).
    reflexivity.
  - intros clientIp Hheld. unfold lock_held in *.
    destruct (Hlocks clientIp) as [[_ Hnone]|[Hone _]]; [congruence|].
    destruct (creating_positive clientIp (inflight s))
      as (n & pending & Hnth & Hmine); [lia|].
    apply is_creation_true in Hmine. destruct Hmine as [He Hip].
    pose proof (Forall_nth_error _ _ _ _ Hall Hnth) as Hwell.
    unfold well_suspended in Hwell. rewrite He in Hwell.
    destruct Hwell as (k & Hk & Hsusp).
    destruct (settles_release (router r) k s n pending Hnth He Hsusp)
      as (m & Hm & Hfree).
    exists n, m. split; [lia|]. rewrite <- Hip, Hfree. discriminate.
  - intros req p Hfree p'. subst p'.
    destruct (post_sandbox_outcome r req p Hfree) as [-> _]. split.
    + apply get_delete_same.
    + intros other Hne. now rewrite get_delete_other, get_set_other.
Qed.

Lemma X16_admission_guard_while_connected_witness :
  let w :=
    {| answers := [Fulfilled ""; Rejected "timed out waiting"];
       times := [0]; identifiers := ["abc1234567"; "klm1234567"] |} in
  let client :=
    {| ip := "10.0.0.7"; cookies_sandboxId := None; body := posted None |} in
  let other :=
    {| ip := "10.0.0.8"; cookies_sandboxId := None; body := posted None |} in
  let s := steps (router K3d) [Arrive PostSandbox client] (listening w) in
  (let s' := step (router K3d) (Arrive PostSandbox other) s in
   lock_held (process s') "10.0.0.8" /\
   exists waiting,
     inflight s'
     = (inflight s ++
        [{| endpoint := PostSandbox; request := other;
            suspended := waiting |}])%list) /\
  (exists res,
     step (router K3d) (Arrive PostSandbox client) s
     = {| process := process s; inflight := inflight s;
          outbox := outbox s ++ [(PostSandbox, client, res)] |} /\
     statusCode res = 429) /\
  (exists n m,
     (m <= 4)%nat /\
     ~ lock_held
         (process (steps (router K3d) (repeat (Settle n) m) s)) "10.0.0.7") /\
  (let p' := snd (run (router K3d PostSandbox client) (boot w)) in
   JsMap.get (creationLocks p') "10.0.0.7" = None /\
   forall other,
     other <> "10.0.0.7" ->
     JsMap.get (creationLocks p') other
     = JsMap.get (creationLocks (boot w)) other).
Proof.
  intros w client other s.
  destruct (X16_admission_guard_while_connected K3d w
              [Arrive PostSandbox client] eq_refl)
    as (_ & Hadmitted & Hdenied & Hreleased & Hrun).
  split; [|split; [|split]].
  - apply (Hadmitted other). vm_compute. discriminate.
  - apply (Hdenied client). reflexivity.
  - apply (Hreleased "10.0.0.7"). reflexivity.
  - apply (Hrun client (boot w)). unfold lock_held. simpl. discriminate.
Defined.

(* ================================================================== *)
(** * A client that closes its connection *)

Lemma LockFree_keeps {A : Type} (P : A -> Prop) (n : nat) (t : Task A)
  clientIp :
  LockFree P n t -> Keeps clientIp t.
Proof. induction 1; constructor; auto. Qed.

Lemma Releasing_keeps other clientIp (n : nat) (t : Task Res) :
  Releasing other n t -> other <> clientIp -> Keeps clientIp t.
Proof.
  intros Ht Hne.
  induction Ht as
    [n k res Hopen Hclosed|n call k Hk IH|n ms k Hk IH|n k Hk IH|n k Hk IH
    |n k Hk IH|n id at_ k Hk IH|n id k Hk IH|n k Hk IH];
    try (constructor; auto; fail).
  apply Keeps_Connected. intros [|].
  - rewrite Hopen. apply Keeps_LocksDelete; [exact Hne|constructor].
  - rewrite Hclosed. constructor.
Qed.

(** Once its connection is closed, the request that holds a lock touches
    no lock any more. *)
Lemma disconnect_releasing clientIp (n : nat) (t : Task Res) :
  Releasing clientIp n t -> LockFree (fun _ => True) n (disconnect t).
Proof.
  induction 1 as
    [n k res Hopen Hclosed|n call k Hk IH|n ms k Hk IH|n k Hk IH|n k Hk IH
    |n k Hk IH|n id at_ k Hk IH|n id k Hk IH|n k Hk IH];
    cbn [disconnect]; try (constructor; auto; fail).
  - rewrite Hclosed. cbn [disconnect]. now constructor.
  - apply IH.
Qed.

Lemma disconnect_keeps {A : Type} clientIp (t : Task A) :
  Keeps clientIp t -> Keeps clientIp (disconnect t).
Proof.
  induction 1; cbn [disconnect]; try (constructor; auto; fail).
  auto.
Qed.

Lemma Admission_keeps other clientIp (n : nat) (t : Task Res) :
  Admission other n t -> Keeps clientIp t.
Proof.
  intros [k (res & Hk & Hquiet & _) Hgranted].
  assert (Hdenied : Keeps clientIp (k (Some true))).
  { rewrite Hk. eapply LockFree_keeps. apply emit_finish_quiet, Hquiet. }
  destruct (String.eqb_spec other clientIp) as [->|Hne].
  - now apply Keeps_LocksGet_own.
  - apply Keeps_LocksGet. intros [[|]|]; [exact Hdenied| |].
    + destruct (Hgranted (Some false)) as (t' & -> & Ht); [discriminate|].
      apply Keeps_LocksSet; [exact Hne|].
      now apply Releasing_keeps with (other := other) (n := n).
    + destruct (Hgranted None) as (t' & -> & Ht); [discriminate|].
      apply Keeps_LocksSet; [exact Hne|].
      now apply Releasing_keeps with (other := other) (n := n).
Qed.

Lemma creating_two clientIp (l : list Pending) (n m : nat) (a b : Pending) :
  nth_error l n = Some a -> nth_error l m = Some b -> n <> m ->
  is_creation clientIp a = true -> is_creation clientIp b = true ->
  (2 <= creating clientIp l)%nat.
Proof.
  intros Hn Hm Hnm Ha Hb. revert n m Hn Hm Hnm.
  induction l as [|x l IH]; intros [|n] [|m]; cbn [nth_error];
    try discriminate; rewrite creating_cons.
  - congruence.
  - intros [= ->] Hm _. rewrite Ha.
    pose proof (creating_remove_nth clientIp m l b Hm) as Hc.
    rewrite Hb in Hc. lia.
  - intros Hn [= ->] _. rewrite Hb.
    pose proof (creating_remove_nth clientIp n l a Hn) as Hc.
    rewrite Ha in Hc. lia.
  - intros Hn Hm Hnm. assert (Hne : n <> m) by congruence.
    specialize (IH n m Hn Hm Hne). lia.
Qed.

Section LockedOut.
Context {World : Type} `{Driver World}.
Variable routes : Endpoint -> Request -> Task Res.
Hypothesis routes_create :
  forall req, Admission (ip req) 4 (routes PostSandbox req).
Hypothesis routes_other :
  forall e req, e <> PostSandbox -> LockFree (fun _ => True) 2 (routes e req).

Lemma routes_keep clientIp e req : Keeps clientIp (routes e req).
Proof.
  destruct (Endpoint_eq_dec e PostSandbox) as [->|He].
  - eapply Admission_keeps. apply routes_create.
  - eapply LockFree_keeps. now apply routes_other.
Qed.

Lemma advance_keeps {A : Type} clientIp (t : Task A) :
  Keeps clientIp t ->
  forall p : Process World,
    JsMap.get (creationLocks p) clientIp = Some true ->
    JsMap.get (creationLocks (snd (advance t p))) clientIp = Some true /\
    match fst (advance t p) with
    | inl _ => True
    | inr s => suspended_task (fun _ => Keeps clientIp) 0 s
    end.
Proof.
  induction 1 as
    [a|call k Hk IH|ms k Hk IH|k Hk IH|k Hk IH|k Hk IH|id at_ k Hk IH
    |id k Hk IH|k Hk IH|other k Hk IH|other v k Hne Hk IH|other k Hne Hk IH
    |k Hk IH]; intros p Hheld; cbn [advance fst snd].
  - auto.
  - split; [exact Hheld|exact Hk].
  - split; [exact Hheld|exact Hk].
  - destruct (date_now (world p)) as [now w].
    exact (IH now (with_world p w) Hheld).
  - destruct (generate_id (world p)) as [id w].
    exact (IH id (with_world p w) Hheld).
  - exact (IH _ p Hheld).
  - exact (IH (with_sandboxes p _) Hheld).
  - exact (IH (with_sandboxes p _) Hheld).
  - rewrite Hheld. exact (IH p Hheld).
  - exact (IH _ p Hheld).
  - apply IH. cbn [creationLocks with_locks].
    rewrite get_set_other by congruence. exact Hheld.
  - apply IH. cbn [creationLocks with_locks].
    rewrite get_delete_other by congruence. exact Hheld.
  - exact (IH true p Hheld).
Qed.

(** Once a client is locked out, no event lets it in again. *)
Lemma step_locked_out clientIp (ev : Event World) (s : Server World) :
  locked_out clientIp s -> locked_out clientIp (step routes ev s).
Proof.
  intros [Hheld Hall].
  destruct ev as [e req|n|n|registry outside]; cbn [step].
  - pose proof (advance_keeps clientIp _ (routes_keep clientIp e req)
                  (process s) Hheld) as [Hheld' Hsusp].
    destruct (advance (routes e req) (process s)) as [[res|susp] p'];
      cbn [fst snd] in *; split; cbn [process inflight]; auto.
    apply Forall_app. split; auto.
  - destruct (nth_error (inflight s) n) as [pending|] eqn:Hnth;
      [|split; assumption].
    pose proof (Forall_nth_error _ _ _ _ Hall Hnth) as Hpending.
    cbn beta in Hpending.
    destruct (wake_task _ _ _ (process s) Hpending) as [Ht Hlocks].
    destruct (wake (suspended pending) (process s)) as [t p1].
    cbn [fst snd] in *.
    assert (Hheld1 : JsMap.get (creationLocks p1) clientIp = Some true)
      by now rewrite Hlocks.
    pose proof (advance_keeps clientIp t Ht p1 Hheld1) as [Hheld' Hsusp].
    destruct (advance t p1) as [[res|susp] p']; cbn [fst snd] in *;
      split; cbn [process inflight]; auto.
    + now apply Forall_remove_nth.
    + now apply Forall_replace_nth.
  - destruct (nth_error (inflight s) n) as [pending|] eqn:Hnth;
      [|split; assumption].
    pose proof (Forall_nth_error _ _ _ _ Hall Hnth) as Hpending.
    cbn beta in Hpending.
    split; cbn [process inflight]; [exact Hheld|].
    apply Forall_replace_nth; [exact Hall|]. cbn [suspended].
    destruct (suspended pending) as [call k|ms k];
      cbn [hang_up suspended_task] in *.
    + intros r. apply disconnect_keeps, Hpending.
    + now apply disconnect_keeps.
  - split; assumption.
Qed.

Lemma steps_locked_out clientIp (evs : list (Event World))
  (s : Server World) :
  locked_out clientIp s -> locked_out clientIp (steps routes evs s).
Proof.
  revert s. induction evs as [|ev evs IH]; intros s Hout; auto.
  cbn [steps fold_left]. apply IH. now apply step_locked_out.
Qed.

(** A request that holds a lock and loses its connection locks its client
    out. *)
Lemma close_locks_out (s : Server World) (n : nat) (pending : Pending) :
  admission_invariant 4 s ->
  nth_error (inflight s) n = Some pending ->
  endpoint pending = PostSandbox ->
  locked_out (ip (request pending)) (step routes (Close n) s).
Proof.
  intros [Hall Hlocks] Hnth He. cbn [step]. rewrite Hnth.
  assert (Hmine : is_creation (ip (request pending)) pending = true).
  { unfold is_creation. rewrite He. apply String.eqb_refl. }
  pose proof (creating_remove_nth (ip (request pending)) _ _ _ Hnth)
    as Hcount.
  rewrite Hmine in Hcount.
  destruct (Hlocks (ip (request pending))) as [[Hnone _]|[Hone Hheld]];
    [lia|].
  split; cbn [process inflight]; [exact Hheld|].
  assert (Hothers : forall m other,
    nth_error (inflight s) m = Some other -> m <> n ->
    suspended_task (fun _ => Keeps (ip (request pending))) 0
      (suspended other)).
  { intros m other Hm Hmn.
    pose proof (Forall_nth_error _ _ _ _ Hall Hm) as Hwell.
    unfold well_suspended in Hwell.
    destruct (Endpoint_eq_dec (endpoint other) PostSandbox) as [Ho|Ho].
    - rewrite Ho in Hwell. destruct Hwell as (j & _ & Hsusp).
      assert (Hne : ip (request other) <> ip (request pending)).
      { intros Hsame.
        assert (Hother : is_creation (ip (request pending)) other = true).
        { unfold is_creation. rewrite Ho, Hsame. apply String.eqb_refl. }
        pose proof (creating_two _ _ _ _ _ _ Hnth Hm (not_eq_sym Hmn)
                      Hmine Hother).
        lia. }
      destruct (suspended other) as [call c|ms c]; cbn [suspended_task] in *.
      + intros r'. eapply Releasing_keeps; [apply Hsusp|exact Hne].
      + eapply Releasing_keeps; [apply Hsusp|exact Hne].
    - assert (Hfree : exists j,
        suspended_task (LockFree (fun _ => True)) j (suspended other)).
      { destruct (endpoint other); [contradiction|exact Hwell|exact Hwell]. }
      destruct Hfree as (j & Hsusp).
      destruct (suspended other) as [call c|ms c]; cbn [suspended_task] in *.
      + intros r'. eapply LockFree_keeps, Hsusp.
      + eapply LockFree_keeps, Hsusp. }
  pose proof (Forall_nth_error _ _ _ _ Hall Hnth) as Hwell.
  unfold well_suspended in Hwell. rewrite He in Hwell.
  destruct Hwell as (j & _ & Hsusp).
  assert (Hclosed :
    suspended_task (fun _ => Keeps (ip (request pending))) 0
      (hang_up (suspended pending))).
  { destruct (suspended pending) as [call c|ms c];
      cbn [hang_up suspended_task] in *.
    - intros r'. eapply LockFree_keeps, disconnect_releasing, Hsusp.
    - eapply LockFree_keeps, disconnect_releasing, Hsusp. }
  revert Hothers Hclosed Hnth. clear.
  generalize (inflight s) as l. intros l. revert n.
  induction l as [|x l IH]; intros [|n] Hothers Hclosed Hnth;
    cbn [replace_nth nth_error] in *; try discriminate.
  - constructor; [exact Hclosed|].
    apply Forall_forall. intros other Hin.
    apply In_nth_error in Hin. destruct Hin as (m & Hm).
    apply (Hothers (S m) other Hm). discriminate.
  - constructor.
    + apply (Hothers 0%nat x eq_refl). discriminate.
    + apply (IH n); auto.
      intros m other Hm Hmn. apply (Hothers (S m) other Hm). congruence.
Qed.

End LockedOut.

(** C9 (the lock of a client that hung up).  For both revisions, any
    driver and any request to create a sandbox: the request arrives at a
    server that has just started listening, passes the guard and waits for
    the driver, and the client closes the connection.  Whatever happens
    afterwards -- the driver's calls settle, the request runs to its end
    and answers, other requests arrive, the sweeper runs -- the creation
    lock of that client stays held: the response that is ended on the
    closed connection never emits [finish], which is the one place where
    the lock is deleted.  From then on every creation request of that
    client, whatever it carries, is answered at once with status 429 and
    leaves the process as it is. *)
Theorem C9_closed_connection_keeps_lock {World : Type} `{Driver World}
  (r : Revision) (w : World) (req : Request) (evs : list (Event World)) :
  let s :=
    steps (router r) (Arrive PostSandbox req :: Close 0 :: evs)
      (listening w) in
  lock_held (process s) (ip req) /\
  forall cookie payload,
    let again :=
      {| ip := ip req; cookies_sandboxId := cookie; body := payload |} in
    exists res,
      step (router r) (Arrive PostSandbox again) s
      = {| process := process s; inflight := inflight s;
           outbox := outbox s ++ [(PostSandbox, again, res)] |} /\
      statusCode res = 429.
Proof.
  intros s.
  assert (Hout : locked_out (ip req) s).
  { subst s. cbn [steps fold_left].
    apply steps_locked_out;
      [apply create_route_admission|apply other_routes_lock_free|].
    set (s1 := step (router r) (Arrive PostSandbox req) (listening w)).
    assert (Hinv : admission_invariant 4 s1).
    { apply step_invariant;
        [apply create_route_admission|apply other_routes_lock_free
        |reflexivity|apply listening_invariant]. }
    destruct (creation_waits r req (boot w)) as (waiting & p' & Hwaits).
    { unfold lock_held. cbn. discriminate. }
    assert (Hnth : nth_error (inflight s1) 0
                   = Some {| endpoint := PostSandbox; request := req;
                             suspended := waiting |}).
    { subst s1. cbn [step listening process]. rewrite Hwaits. reflexivity. }
    exact (close_locks_out (router r) s1 0 _ Hinv Hnth eq_refl). }
  destruct Hout as [Hheld _]. split; [exact Hheld|].
  intros cookie payload again. unfold lock_held in Hheld. cbn [step].
  destruct (create_route_admission r again)
    as [k (res & Hk & Hquiet & Hst) _].
  exists res. split; [|exact Hst].
  cbn [advance]. subst again. cbn [ip].
  rewrite Hheld, Hk, (advance_denied res _ Hquiet). reflexivity.
Qed.

(** The same on a host on which every call of the driver succeeds: the
    creation runs to its end after the client hung up, the sandbox is
    registered and the answer is written for nobody; no request is in
    flight any more, and yet the lock is held and the next request of the
    client is turned away. *)
Lemma C9_closed_connection_keeps_lock_witness :
  let client :=
    {| ip := "10.0.0.7"; cookies_sandboxId := None; body := posted None |} in
  let s :=
    steps (router K3d)
      [Arrive PostSandbox client; Close 0; Settle 0; Settle 0; Settle 0]
      (listening (fresh_host ["abc1234567"])) in
  (inflight s = [] /\
   map (fun answer => statusCode (snd answer)) (outbox s) = [200] /\
   map fst (sandboxes (process s)) = ["sb-abc1234567"]) /\
  lock_held (process s) "10.0.0.7" /\
  exists res,
    step (router K3d) (Arrive PostSandbox client) s
    = {| process := process s; inflight := inflight s;
         outbox := outbox s ++ [(PostSandbox, client, res)] |} /\
    statusCode res = 429.
Proof.
  intros client s. split; [repeat split; reflexivity|].
  destruct (C9_closed_connection_keeps_lock K3d
              (fresh_host ["abc1234567"]) client
              [Settle 0; Settle 0; Settle 0]) as [Hheld Hdenied].
  split; [exact Hheld|]. exact (Hdenied None (posted None)).
Defined.

(* ================================================================== *)
(** * Strings as the server uses them *)

Lemma prefix_occurs (t s : string) :
  String.prefix t s = true <-> exists after, s = t ++ after.
Proof.
  revert s. induction t as [|a t IH]; intros s; cbn.
  - destruct s; split; eauto.
  - destruct s as [|b s]; cbn.
    + split; [discriminate|]. intros (after & Heq). discriminate.
    + destruct (Ascii.ascii_dec a b) as [->|Hne].
      * rewrite IH. split; intros (after & Heq); exists after.
        -- now rewrite Heq.
        -- now injection Heq.
      * split; [discriminate|]. intros (after & Heq).
        injection Heq as Hab _. congruence.
Qed.

(** [s.includes(t)] holds exactly when [t] occurs in [s]. *)
Lemma includes_occurs (s t : string) :
  Js.includes s t = true <-> occurs_in t s.
Proof.
  unfold occurs_in. split.
  - induction s as [|c s IH]; cbn [Js.includes].
    + destruct (String.prefix t "") eqn:E; [|discriminate].
      intros _. apply prefix_occurs in E. destruct E as (after & Heq).
      exists "", after. exact Heq.
    + destruct (String.prefix t (String c s)) eqn:E.
      * intros _. apply prefix_occurs in E. destruct E as (after & Heq).
        exists "", after. exact Heq.
      * intros Hin. destruct (IH Hin) as (before & after & Heq).
        exists (String c before), after. cbn. now rewrite Heq.
  - intros (before & after & Heq). subst s.
    induction before as [|c before IH].
    + assert (E : String.prefix t ("" ++ t ++ after) = true).
      { apply prefix_occurs. now exists after. }
      cbn [append] in *. destruct (t ++ after); cbn [Js.includes];
        now rewrite E.
    + cbn [append Js.includes]. rewrite IH.
      now destruct (String.prefix t _).
Qed.

Lemma split_nonempty (s : string) (sep : ascii) : Js.split s sep <> [].
Proof.
  destruct s as [|c s]; cbn; [discriminate|].
  destruct (Ascii.eqb c sep); [discriminate|].
  destruct (Js.split s sep); discriminate.
Qed.

(** Joining the pieces with the separator gives the string back. *)
Lemma split_join (s : string) (sep : ascii) :
  String.concat (String sep "") (Js.split s sep) = s.
Proof.
  induction s as [|c s IH]; cbn [Js.split]; [reflexivity|].
  pose proof (split_nonempty s sep) as Hne.
  destruct (Ascii.eqb_spec c sep) as [->|Hc].
  - destruct (Js.split s sep) as [|piece pieces]; [contradiction|].
    change (String.concat (String sep "") ("" :: piece :: pieces))
      with ("" ++ String sep "" ++
            String.concat (String sep "") (piece :: pieces)).
    now rewrite IH.
  - destruct (Js.split s sep) as [|piece pieces]; [contradiction|].
    rewrite <- IH. destruct pieces; reflexivity.
Qed.

(** No piece contains the separator. *)
Lemma split_pieces (s : string) (sep : ascii) :
  Forall (fun piece => ~ In sep (characters piece)) (Js.split s sep).
Proof.
  induction s as [|c s IH]; cbn [Js.split].
  - constructor; [intros []|constructor].
  - pose proof (split_nonempty s sep) as Hne.
    destruct (Ascii.eqb_spec c sep) as [->|Hc].
    + constructor; [intros []|exact IH].
    + destruct (Js.split s sep) as [|piece pieces]; [contradiction|].
      inversion IH as [|? ? Hpiece Hrest]; subst.
      constructor; auto. cbn. intros [Heq|Hin]; auto.
Qed.

(* ================================================================== *)
(** * The validated routes *)

(** What [validateSandbox] does with a request that carries a cookie: it
    awaits the listing; a live sandbox is handed on with nothing changed, a
    dead one is answered 404 with the cookie cleared and the registry entry
    removed. *)
Lemma validate_run {World : Type} `{Driver World} (r : Revision)
  (req : Request) (res : Res) (p : Process World) (id : string) :
  cookies_sandboxId req = Some id -> id <> "" ->
  exists outcome w',
    settle (list_call r id) (world p) = (outcome, w') /\
    ((validates_live r id (world p) /\
      run (validateSandbox r req res) p
      = (Next res,
         {| sandboxes := sandboxes p; creationLocks := creationLocks p;
            world := w';
            calls := calls p ++ [(list_call r id, outcome)] |})) \/
     (~ validates_live r id (world p) /\
      run (validateSandbox r req res) p
      = (Answered (not_found res),
         {| sandboxes := JsMap.delete (sandboxes p) id;
            creationLocks := creationLocks p;
            world := w';
            calls := calls p ++ [(list_call r id, outcome)] |}))).
Proof.
  intros Hcookie Hne.
  destruct (settle (list_call r id) (world p)) as [outcome w'] eqn:Hsettle.
  exists outcome, w'. split; [reflexivity|].
  destruct r; cbn [validateSandbox list_call] in *.
  - pose proof (kind_validates_live_iff (world p) id Hne) as Hiff.
    unfold KindServer.validateSandbox. rewrite Hcookie, (truthy_Some id Hne).
    cbn [negb run Js.text]. unfold awaited. rewrite Hsettle.
    destruct outcome as [listing|message]; cbn.
    + left. split; [apply Hiff; eauto|reflexivity].
    + right. split; [|reflexivity].
      intros Hlive. apply Hiff in Hlive.
      destruct Hlive as (? & ? & Heq). rewrite Hsettle in Heq. discriminate.
  - pose proof (k3d_validates_live_iff (world p) id Hne) as Hiff.
    unfold K3dServer.validateSandbox. rewrite Hcookie, (truthy_Some id Hne).
    cbn [negb run Js.text]. unfold awaited. rewrite Hsettle.
    destruct outcome as [listing|message].
    + rewrite filter_nonempty. fold (listed id listing).
      destruct (listed id listing) eqn:Hlisted; cbn.
      * left. split; [apply Hiff; eauto|reflexivity].
      * right. split; [|reflexivity].
        intros Hlive. apply Hiff in Hlive.
        destruct Hlive as (? & ? & Heq & Hl). rewrite Hsettle in Heq.
        injection Heq as <- <-. congruence.
    + cbn. right. split; [|reflexivity].
      intros Hlive. apply Hiff in Hlive.
      destruct Hlive as (? & ? & Heq & _). rewrite Hsettle in Heq.
      discriminate.
Qed.

Lemma validate_no_cookie {World : Type} `{Driver World} (r : Revision)
  (req : Request) (res : Res) (p : Process World) :
  Js.truthy (cookies_sandboxId req) = false ->
  run (validateSandbox r req res) p
  = (Answered
       (json (status res 401)
          [("error", "Sandbox not found. Create a new sandbox first.")]), p).
Proof.
  intros Hfalsy.
  destruct r; cbn [validateSandbox];
    unfold KindServer.validateSandbox, K3dServer.validateSandbox;
    rewrite Hfalsy; reflexivity.
Qed.

(** The routes behind [validateSandbox], as a route of the selected
    revision. *)
Lemma validated_route r e :
  e <> PostSandbox ->
  router r e
  = route (validateSandbox r)
      (match e with
       | DeleteSandbox => delete_sandbox r
       | _ => post_sandbox_exec r
       end).
Proof. intros He. destruct e, r; try contradiction; reflexivity. Qed.

Lemma run_lock_free {World : Type} `{Driver World} {A : Type}
  (P : A -> Prop) (n : nat) (t : Task A) :
  LockFree P n t ->
  forall p : Process World,
    creationLocks (snd (run t p)) = creationLocks p /\ P (fst (run t p)).
Proof.
  induction 1 as
    [n a Ha|n call k Hk IH|n ms k Hk IH|n k Hk IH|n k Hk IH|n k Hk IH
    |n id at_ k Hk IH|n id k Hk IH|n k Hk IH]; intros p; cbn [run fst snd].
  - auto.
  - unfold awaited. destruct (settle call (world p)) as [r w].
    exact (IH r _).
  - apply IH.
  - destruct (date_now (world p)) as [now w]. exact (IH now (with_world p w)).
  - destruct (generate_id (world p)) as [id w]. exact (IH id (with_world p w)).
  - exact (IH _ p).
  - exact (IH (with_sandboxes p _)).
  - exact (IH (with_sandboxes p _)).
  - exact (IH true p).
Qed.

Lemma handler_lock_free r e req res :
  LockFree (fun res' => finishListeners res' = finishListeners res) 1
    (match e with
     | DeleteSandbox => delete_sandbox r
     | _ => post_sandbox_exec r
     end req res).
Proof.
  destruct e, r;
    first [ apply (exec_handler_lock_free Kind)
          | apply (exec_handler_lock_free K3d)
          | apply (delete_handler_lock_free Kind)
          | apply (delete_handler_lock_free K3d) ].
Qed.

(** A validated route, case by case: without cookie, with the cookie of a
    dead sandbox, with the cookie of a live one. *)
Lemma validated_route_run {World : Type} `{Driver World} (r : Revision)
  (e : Endpoint) (req : Request) (p : Process World) :
  e <> PostSandbox ->
  let handler := match e with
                 | DeleteSandbox => delete_sandbox r
                 | _ => post_sandbox_exec r
                 end in
  (Js.truthy (cookies_sandboxId req) = false ->
   exists res,
     run (router r e req) p = (res, p) /\
     statusCode res = 401 /\ setCookies res = []) /\
  (forall id,
     cookies_sandboxId req = Some id -> id <> "" ->
     exists outcome w',
       settle (list_call r id) (world p) = (outcome, w') /\
       let p1 :=
         {| sandboxes := sandboxes p; creationLocks := creationLocks p;
            world := w';
            calls := calls p ++ [(list_call r id, outcome)] |} in
       (~ validates_live r id (world p) ->
        run (router r e req) p
        = (not_found new_res,
           with_sandboxes p1 (JsMap.delete (sandboxes p) id))) /\
       (validates_live r id (world p) ->
        run (router r e req) p = run (handler req new_res) p1)).
Proof.
  intros He handler. rewrite (validated_route r e He). fold handler.
  split.
  - intros Hfalsy. eexists. unfold route. rewrite run_bind.
    rewrite (validate_no_cookie r req new_res p Hfalsy). cbn.
    repeat split; reflexivity.
  - intros id Hcookie Hne.
    destruct (validate_run r req new_res p id Hcookie Hne)
      as (outcome & w' & Hsettle & Hcases).
    exists outcome, w'. split; [exact Hsettle|]. cbv zeta. split.
    + intros Hdead. destruct Hcases as [[Hlive _]|[_ Hrun]]; [contradiction|].
      unfold route. rewrite run_bind, Hrun. reflexivity.
    + intros Hlive. destruct Hcases as [[_ Hrun]|[Hdead _]]; [|contradiction].
      unfold route. rewrite run_bind, Hrun. cbn [bind]. rewrite run_bind.
      match goal with |- context [run (handler req new_res) ?q] =>
        pose proof (run_lock_free _ _ _ (handler_lock_free r e req new_res) q)
          as [_ Hl];
        destruct (run (handler req new_res) q) as [res' p'] eqn:Hh
      end.
      fold handler in Hl. rewrite Hh in Hl. cbn [fst] in Hl.
      rewrite run_emit_finish_quiet by exact Hl. reflexivity.
Qed.

Lemma command_text_Some req command :
  command_text req = Some command ->
  Js.destructure "command" "req.body" (body req)
  = Js.Normal (Js.Text command) /\ command <> "".
Proof.
  unfold command_text.
  destruct (Js.destructure "command" "req.body" (body req))
    as [[| |b|n|text|items|members]|message]; try discriminate.
  destruct (String.eqb_spec text "") as [->|Hne]; [discriminate|].
  intros [= ->]. auto.
Qed.

Lemma command_text_bearer clientIp id command :
  command <> "" -> command_text (bearer clientIp id (Some command)) = Some command.
Proof.
  intros Hne. unfold command_text. cbn [bearer body].
  rewrite destructure_posted.
  destruct (String.eqb_spec command ""); congruence.
Qed.

(** The exec handler on a request that carries a command: it awaits
    [kubectl] once, in the context of the cookie's sandbox, and answers
    according to how that call settles. *)
Lemma exec_handler_run {World : Type} `{Driver World} (r : Revision)
  (req : Request) (res : Res) (p : Process World) (id command : string) :
  cookies_sandboxId req = Some id ->
  command_text req = Some command ->
  exists outcome w' res',
    settle (kubectl_call r id command) (world p) = (outcome, w') /\
    run (post_sandbox_exec r req res) p
    = (res',
       {| sandboxes := sandboxes p; creationLocks := creationLocks p;
          world := w';
          calls := calls p ++ [(kubectl_call r id command, outcome)] |}) /\
    setCookies res' = setCookies res /\
    match outcome with
    | Fulfilled stdout =>
        statusCode res' = statusCode res /\
        answer_field "command" res' = Some command /\
        answer_field "output" res'
        = match r with
          | K3d => Some stdout
          | Kind => None
          end
    | Rejected message =>
        statusCode res' = 500 /\
        answer_field "error" res'
        = Some ("Error executing command: " ++ message)
    end.
Proof.
  intros Hcookie Htext.
  destruct (command_text_Some req command Htext) as [Hcommand Hne].
  destruct (settle (kubectl_call r id command) (world p))
    as [outcome w'] eqn:Hsettle.
  exists outcome, w'.
  destruct r; unfold kubectl_call, context_of in *; cbn [post_sandbox_exec];
    unfold KindServer.post_sandbox_exec, K3dServer.post_sandbox_exec,
      KindServer.executeKubectlCommand, K3dServer.executeKubectlCommand,
      try_catch, and_then, await;
    rewrite Hcookie, Hcommand, (to_boolean_Text command Hne);
    cbn [negb bind run Js.text Js.interpolate Js.interpolates Js.split_of];
    unfold awaited; rewrite Hsettle;
    destruct outcome as [stdout|message]; cbn;
    eexists; repeat split; reflexivity.
Qed.

(** The exec handler on a request that brings no command text: it awaits
    nothing and leaves the process as it is.  It answers 400 when the body
    holds no command or a falsy one, and 500 when the command cannot be
    read from the body or is a truthy value that is no text. *)
Lemma exec_handler_no_text {World : Type} `{Driver World} (r : Revision)
  (req : Request) (res : Res) (p : Process World) :
  command_text req = None ->
  exists res',
    run (post_sandbox_exec r req res) p = (res', p) /\
    setCookies res' = setCookies res /\
    match Js.destructure "command" "req.body" (body req) with
    | Js.Normal command =>
        if Js.to_boolean command then statusCode res' = 500
        else res' = json (status res 400) [("error", "Command not provided")]
    | Js.Throw message => res' = json (status res 500) [("error", message)]
    end.
Proof.
  unfold command_text. intros Hmissing.
  destruct r; cbn [post_sandbox_exec];
    unfold KindServer.post_sandbox_exec, K3dServer.post_sandbox_exec,
      KindServer.executeKubectlCommand, K3dServer.executeKubectlCommand,
      try_catch, and_then, Js.interpolate;
    (destruct (Js.destructure "command" "req.body" (body req))
      as [[| |[|]|n|text|items|members]|message];
     [..|eexists; repeat split; reflexivity]);
    cbn [Js.to_boolean negb] in *;
    try (eexists; repeat split; reflexivity);
    try (destruct (QArith_base.Qeq_bool n _); cbn [negb];
         eexists; repeat split; reflexivity);
    try (destruct (String.eqb text ""); [|discriminate]; cbn [negb];
         eexists; repeat split; reflexivity);
    try (destruct (Js.interpolates _); eexists; repeat split; reflexivity).
Qed.

(** The delete handler: it awaits the driver's deletion call and follows
    its outcome. *)
Lemma delete_handler_run {World : Type} `{Driver World} (r : Revision)
  (req : Request) (res : Res) (p : Process World) (id : string) :
  cookies_sandboxId req = Some id ->
  exists outcome w' res',
    settle (delete_call r id) (world p) = (outcome, w') /\
    run (delete_sandbox r req res) p
    = (res',
       {| sandboxes := match outcome with
                       | Fulfilled _ => JsMap.delete (sandboxes p) id
                       | Rejected _ => sandboxes p
                       end;
          creationLocks := creationLocks p;
          world := w';
          calls := calls p ++ [(delete_call r id, outcome)] |}) /\
    match outcome with
    | Fulfilled _ =>
        statusCode res' = statusCode res /\
        setCookies res' = (setCookies res ++ [ClearCookie "sandboxId"])%list
    | Rejected message =>
        statusCode res' = 500 /\
        setCookies res' = setCookies res /\
        answer_field "error" res'
        = Some ("Failed to delete cluster: " ++ message)
    end.
Proof.
  intros Hcookie.
  destruct (settle (delete_call r id) (world p)) as [outcome w'] eqn:Hsettle.
  exists outcome, w'.
  destruct r; unfold delete_call in *; cbn [delete_sandbox];
    unfold KindServer.delete_sandbox, K3dServer.delete_sandbox,
      KindServer.deleteCluster, K3dServer.deleteCluster,
      try_catch, and_then, await;
    rewrite Hcookie; cbn [bind run Js.text]; unfold awaited; rewrite Hsettle;
    destruct outcome as [stdout|message]; cbn;
    eexists; repeat split; reflexivity.
Qed.

Lemma kubectl_call_not_creation r id command :
  creation_call (kubectl_call r id command) = false.
Proof. reflexivity. Qed.

Lemma delete_call_not_creation r id : creation_call (delete_call r id) = false.
Proof. destruct r; reflexivity. Qed.

Lemma get_delete_Some {V : Type} (m : JsMap.t V) key k t :
  JsMap.get (JsMap.delete m key) k = Some t -> JsMap.get m k = Some t.
Proof.
  destruct (String.eqb_spec k key) as [->|Hk].
  - rewrite get_delete_same. discriminate.
  - now rewrite get_delete_other.
Qed.

(** What a validated route can do to the process: it awaits calls that are
    no creation calls, and the registry it leaves holds no entry that was
    not there. *)
Lemma validated_route_frame {World : Type} `{Driver World} (r : Revision)
  (e : Endpoint) (req : Request) (p : Process World) :
  e <> PostSandbox ->
  let p' := snd (run (router r e req) p) in
  exists l,
    calls p' = (calls p ++ l)%list /\
    (forall c, In c l -> creation_call (fst c) = false) /\
    (forall k t, JsMap.get (sandboxes p') k = Some t ->
                 JsMap.get (sandboxes p) k = Some t).
Proof.
  intros He.
  destruct (validated_route_run r e req p He) as [Hnone Hsome].
  destruct (truthy_cases (cookies_sandboxId req))
    as [(id & Hcookie & Hne & _)|Hfalsy].
  - destruct (Hsome id Hcookie Hne) as (outcome & w' & Hsettle & Hdead & Hlive).
    destruct (validate_run r req new_res p id Hcookie Hne)
      as (_ & _ & _ & [[Hl _]|[Hd _]]).
    + cbv zeta. rewrite (Hlive Hl).
      destruct e; [contradiction| |].
      * destruct (command_text req) as [command|] eqn:Hcommand.
        -- match goal with |- context [run _ ?q] =>
             destruct (exec_handler_run r req new_res q id command
                         Hcookie Hcommand)
               as (o & w2 & res' & _ & -> & _)
           end.
           cbn [snd calls sandboxes].
           exists [(list_call r id, outcome); (kubectl_call r id command, o)].
           split; [now rewrite <- app_assoc|]. split; auto.
           intros c [<-|[<-|[]]]; cbn [fst];
             [apply list_call_not_creation|reflexivity].
        -- match goal with |- context [run _ ?q] =>
             destruct (exec_handler_no_text r req new_res q Hcommand)
               as (res' & -> & _)
           end.
           cbn [snd calls sandboxes]. exists [(list_call r id, outcome)].
           split; auto. split; auto.
           intros c [<-|[]]. apply list_call_not_creation.
      * match goal with |- context [run _ ?q] =>
          destruct (delete_handler_run r req new_res q id Hcookie)
            as (o & w2 & res' & _ & -> & _)
        end.
        cbn [snd calls sandboxes].
        exists [(list_call r id, outcome); (delete_call r id, o)].
        split; [now rewrite <- app_assoc|]. split.
        -- intros c [<-|[<-|[]]]; cbn [fst];
             [apply list_call_not_creation|apply delete_call_not_creation].
        -- destruct o; auto. intros k t. apply get_delete_Some.
    + cbv zeta. rewrite (Hdead Hd). cbn [snd calls sandboxes with_sandboxes].
      exists [(list_call r id, outcome)]. split; auto. split.
      * intros c [<-|[]]. apply list_call_not_creation.
      * intros k t. apply get_delete_Some.
  - destruct (Hnone Hfalsy) as (res & -> & _). cbn [snd].
    exists []. rewrite app_nil_r. split; auto. split; auto.
    intros c [].
Qed.

(* ================================================================== *)
(** * A request to execute without command text *)

(** C8 (counterexample).  Two execute requests without command text whose
    cookie names a sandbox that validates as live.  The first posts an
    empty object: it is rejected with status 400, but only after the
    validation has asked the Cluster Driver for its listing.  The second
    arrives without a parsed body: reading the command from it throws
    inside the handler's [try], and the answer is 500, no client error. *)
Lemma C8_missing_command_counterexample :
  let w :=
    {| answers := [Fulfilled "sb-abc1234567"]; times := [];
       identifiers := [] |} in
  let empty :=
    run (router K3d PostSandboxExec (bearer "10.0.0.7" "sb-abc1234567" None))
        (boot w) in
  let bodiless :=
    run (router K3d PostSandboxExec
           {| ip := "10.0.0.7"; cookies_sandboxId := Some "sb-abc1234567";
              body := Js.Absent |})
        (boot w) in
  (statusCode (fst empty) = 400 /\
   answer_field "error" (fst empty) = Some "Command not provided" /\
   calls (snd empty)
   = [(Execa "k3d" ["cluster"; "list"], Fulfilled "sb-abc1234567")] /\
   existsb (fun c => driver_call (fst c)) (calls (snd empty)) = true) /\
  (statusCode (fst bodiless) = 500 /\
   calls (snd bodiless)
   = [(Execa "k3d" ["cluster"; "list"], Fulfilled "sb-abc1234567")]).
Proof. cbv zeta. repeat split; reflexivity. Qed.

(** C8 (amended).  An execute request without command text never reaches
    the driver's execute-in-context operation.  Without a cookie it is
    answered 401 without any call; otherwise the validation asks the
    driver for its listing, the one call of the request, and the answer is
    404 when the sandbox does not validate as live.  When it does, the
    handler answers 400 "Command not provided" if the body holds no command
    or a falsy one, and 500 if the command cannot be read because the
    request has no parsed body, or is a truthy value that is no text. *)
Theorem C8_missing_command {World : Type} `{Driver World} (r : Revision)
  (req : Request) (p : Process World) :
  command_text req = None ->
  let out := run (router r PostSandboxExec req) p in
  (forall c, In c (since p (snd out)) -> exec_call (fst c) = false) /\
  (Js.truthy (cookies_sandboxId req) = false ->
   statusCode (fst out) = 401 /\ since p (snd out) = []) /\
  (forall id,
     cookies_sandboxId req = Some id -> id <> "" ->
     (exists outcome, since p (snd out) = [(list_call r id, outcome)]) /\
     (validates_live r id (world p) ->
      match Js.destructure "command" "req.body" (body req) with
      | Js.Normal command =>
          if Js.to_boolean command then statusCode (fst out) = 500
          else statusCode (fst out) = 400 /\
               answer_field "error" (fst out) = Some "Command not provided"
      | Js.Throw message =>
          statusCode (fst out) = 500 /\
          answer_field "error" (fst out) = Some message
      end) /\
     (~ validates_live r id (world p) -> statusCode (fst out) = 404)).
Proof.
  intros Hmissing.
  destruct (validated_route_run r PostSandboxExec req p) as [Hnone Hsome];
    [discriminate|].
  destruct (truthy_cases (cookies_sandboxId req))
    as [(id & Hcookie & Hne & Htruthy & _)|Hfalsy].
  - assert (Hshape :
      let out := run (router r PostSandboxExec req) p in
      (exists outcome, since p (snd out) = [(list_call r id, outcome)]) /\
      (validates_live r id (world p) ->
       match Js.destructure "command" "req.body" (body req) with
       | Js.Normal command =>
           if Js.to_boolean command then statusCode (fst out) = 500
           else statusCode (fst out) = 400 /\
                answer_field "error" (fst out) = Some "Command not provided"
       | Js.Throw message =>
           statusCode (fst out) = 500 /\
           answer_field "error" (fst out) = Some message
       end) /\
      (~ validates_live r id (world p) -> statusCode (fst out) = 404)).
    { destruct (Hsome id Hcookie Hne) as (outcome & w' & _ & Hdead & Hlive).
      destruct (validate_run r req new_res p id Hcookie Hne)
        as (_ & _ & _ & [[Hl _]|[Hd _]]); cbv zeta.
      - rewrite (Hlive Hl).
        match goal with |- context [run _ ?q] =>
          destruct (exec_handler_no_text r req new_res q Hmissing)
            as (res' & -> & _ & Hanswer)
        end.
        cbn [fst snd]. split; [|split; [|contradiction]].
        + exists outcome. unfold since. cbn [calls]. apply skipn_app_exact.
        + intros _.
          destruct (Js.destructure "command" "req.body" (body req))
            as [command|message];
            [destruct (Js.to_boolean command)|]; subst; auto.
      - rewrite (Hdead Hd). cbn [fst snd]. split; [|split; [contradiction|]].
        + exists outcome. unfold since. cbn [calls with_sandboxes].
          apply skipn_app_exact.
        + reflexivity. }
    cbv zeta in *. destruct Hshape as ((outcome & Hsince) & Hlive & Hdead).
    split; [|split].
    + rewrite Hsince. intros c [<-|[]]. apply list_call_not_exec.
    + rewrite Htruthy. discriminate.
    + intros id' Hcookie' Hne'. rewrite Hcookie in Hcookie'.
      injection Hcookie' as <-. eauto.
  - destruct (Hnone Hfalsy) as (res & Hrun & Hst & _).
    cbv zeta. rewrite Hrun. cbn [fst snd].
    assert (Hsince : since p p = []) by (unfold since; apply skipn_all).
    split; [|split]; auto.
    + rewrite Hsince. intros c [].
    + intros id Hcookie Hne. rewrite Hcookie in Hfalsy.
      rewrite (truthy_Some id Hne) in Hfalsy. discriminate.
Qed.

Lemma C8_missing_command_witness :
  let w :=
    {| answers := [Fulfilled "sb-abc1234567"]; times := [];
       identifiers := [] |} in
  let empty := bearer "10.0.0.7" "sb-abc1234567" None in
  let bodiless :=
    {| ip := "10.0.0.7"; cookies_sandboxId := Some "sb-abc1234567";
       body := Js.Absent |} in
  let out := run (router K3d PostSandboxExec empty) (boot w) in
  let out' := run (router K3d PostSandboxExec bodiless) (boot w) in
  ((forall c, In c (since (boot w) (snd out)) -> exec_call (fst c) = false) /\
   (exists outcome,
      since (boot w) (snd out) = [(list_call K3d "sb-abc1234567", outcome)]) /\
   statusCode (fst out) = 400 /\
   answer_field "error" (fst out) = Some "Command not provided") /\
  ((forall c, In c (since (boot w) (snd out')) -> exec_call (fst c) = false) /\
   (exists outcome,
      since (boot w) (snd out') = [(list_call K3d "sb-abc1234567", outcome)]) /\
   statusCode (fst out') = 500).
Proof.
  intros w empty bodiless out out'.
  assert (Hlive : validates_live K3d "sb-abc1234567" (world (boot w))).
  { do 2 eexists. vm_compute. reflexivity. }
  split.
  - destruct (C8_missing_command K3d empty (boot w) eq_refl)
      as (Hexec & _ & Hcookie).
    destruct (Hcookie "sb-abc1234567" eq_refl) as (Hcalls & Hanswer & _);
      [discriminate|].
    split; [exact Hexec|]. split; [exact Hcalls|]. exact (Hanswer Hlive).
  - destruct (C8_missing_command K3d bodiless (boot w) eq_refl)
      as (Hexec & _ & Hcookie).
    destruct (Hcookie "sb-abc1234567" eq_refl) as (Hcalls & Hanswer & _);
      [discriminate|].
    split; [exact Hexec|]. split; [exact Hcalls|].
    exact (proj1 (Hanswer Hlive)).
Defined.

(** X1.  A request to execute or to delete whose cookie names a sandbox
    that does not validate as live is answered 404 after one call, the
    driver's listing: the handler is not run, the response clears the
    cookie, and the registry loses the entry of that sandbox and no
    other. *)
Theorem X1_dead_sandbox_is_reconciled {World : Type} `{Driver World}
  (r : Revision) (e : Endpoint) (req : Request) (p : Process World)
  (id : string) :
  e <> PostSandbox ->
  cookies_sandboxId req = Some id -> id <> "" ->
  ~ validates_live r id (world p) ->
  let out := run (router r e req) p in
  statusCode (fst out) = 404 /\
  client_cookie (Some id) (setCookies (fst out)) = None /\
  (exists outcome, since p (snd out) = [(list_call r id, outcome)]) /\
  JsMap.get (sandboxes (snd out)) id = None /\
  (forall k, k <> id ->
     JsMap.get (sandboxes (snd out)) k = JsMap.get (sandboxes p) k) /\
  creationLocks (snd out) = creationLocks p.
Proof.
  intros He Hcookie Hne Hdead out. subst out.
  destruct (validated_route_run r e req p He) as [_ Hsome].
  destruct (Hsome id Hcookie Hne) as (outcome & w' & _ & Hrun & _).
  rewrite (Hrun Hdead). cbn [fst snd]. repeat split.
  - exists outcome. unfold since. cbn [calls with_sandboxes].
    apply skipn_app_exact.
  - apply get_delete_same.
  - intros k Hk. now apply get_delete_other.
Qed.

Lemma X1_dead_sandbox_is_reconciled_witness :
  let w :=
    {| answers := [Fulfilled "NAME   SERVERS   AGENTS   LOADBALANCER"];
       times := []; identifiers := [] |} in
  let p := with_sandboxes (boot w) [("sb-abc1234567", 0); ("sb-zzz0000000", 5)] in
  let out :=
    run (router K3d DeleteSandbox (bearer "10.0.0.7" "sb-abc1234567" None)) p in
  statusCode (fst out) = 404 /\
  client_cookie (Some "sb-abc1234567") (setCookies (fst out)) = None /\
  (exists outcome,
     since p (snd out) = [(list_call K3d "sb-abc1234567", outcome)]) /\
  JsMap.get (sandboxes (snd out)) "sb-abc1234567" = None /\
  (forall k, k <> "sb-abc1234567" ->
     JsMap.get (sandboxes (snd out)) k = JsMap.get (sandboxes p) k) /\
  creationLocks (snd out) = creationLocks p.
Proof.
  intros w p.
  apply (X1_dead_sandbox_is_reconciled K3d DeleteSandbox
           (bearer "10.0.0.7" "sb-abc1234567" None) p "sb-abc1234567").
  - discriminate.
  - reflexivity.
  - discriminate.
  - intros (res & q & Hrun). vm_compute in Hrun. discriminate.
Defined.

(** X2.  A request to execute or to delete that carries no cookie, or an
    empty one, is answered 401 without any call, and the process -- the
    registry, the locks, the world -- is left exactly as it was. *)
Theorem X2_no_cookie_is_unauthorized {World : Type} `{Driver World}
  (r : Revision) (e : Endpoint) (req : Request) (p : Process World) :
  e <> PostSandbox ->
  Js.truthy (cookies_sandboxId req) = false ->
  snd (run (router r e req) p) = p /\
  statusCode (fst (run (router r e req) p)) = 401 /\
  setCookies (fst (run (router r e req) p)) = [].
Proof.
  intros He Hfalsy.
  destruct (validated_route_run r e req p He) as [Hnone _].
  destruct (Hnone Hfalsy) as (res & -> & Hst & Hck). auto.
Qed.

Lemma X2_no_cookie_is_unauthorized_witness :
  let req :=
    {| ip := "10.0.0.7"; cookies_sandboxId := Some "";
       body := posted (Some "get pods") |} in
  let p := boot (fresh_host []) in
  snd (run (router Kind PostSandboxExec req) p) = p /\
  statusCode (fst (run (router Kind PostSandboxExec req) p)) = 401 /\
  setCookies (fst (run (router Kind PostSandboxExec req) p)) = [].
Proof.
  intros req p.
  apply (X2_no_cookie_is_unauthorized Kind PostSandboxExec req p).
  - discriminate.
  - reflexivity.
Defined.

Lemma kubectl_call_not_list r id command r' id' :
  kubectl_call r id command <> list_call r' id'.
Proof. destruct r'; discriminate. Qed.

(** The execute route on a live sandbox with a command. *)
Lemma exec_route_run {World : Type} `{Driver World} (r : Revision)
  (p : Process World) (clientIp id command : string) :
  id <> "" -> command <> "" ->
  validates_live r id (world p) ->
  let out :=
    run (router r PostSandboxExec (bearer clientIp id (Some command))) p in
  exists listed ran,
    since p (snd out)
    = [(list_call r id, listed); (kubectl_call r id command, ran)] /\
    sandboxes (snd out) = sandboxes p /\
    creationLocks (snd out) = creationLocks p /\
    setCookies (fst out) = [] /\
    match ran with
    | Fulfilled stdout =>
        statusCode (fst out) = 200 /\
        answer_field "command" (fst out) = Some command /\
        answer_field "output" (fst out)
        = match r with
          | K3d => Some stdout
          | Kind => None
          end
    | Rejected message =>
        statusCode (fst out) = 500 /\
        answer_field "error" (fst out)
        = Some ("Error executing command: " ++ message)
    end.
Proof.
  intros Hid Hcommand Hlive out. subst out.
  set (req := bearer clientIp id (Some command)).
  destruct (validated_route_run r PostSandboxExec req p) as [_ Hsome];
    [discriminate|].
  destruct (Hsome id eq_refl Hid) as (listed & w1 & _ & _ & Hrun).
  rewrite (Hrun Hlive).
  match goal with |- context [run _ ?q] =>
    destruct (exec_handler_run r req new_res q id command eq_refl
                (command_text_bearer clientIp id command Hcommand))
      as (ran & w2 & res' & _ & -> & Hck & Hans)
  end.
  exists listed, ran. cbn [fst snd sandboxes creationLocks]. split.
  - unfold since. cbn [calls]. rewrite <- app_assoc. apply skipn_app_exact.
  - repeat split; auto.
Qed.

(** X3.  When [kubectl] fails for a command sent to a live sandbox, the
    execute route answers 500 with the driver's message behind "Error
    executing command: ", and changes nothing: the registry, the locks and
    the cookie stay as they were. *)
Theorem X3_exec_failure_is_reported {World : Type} `{Driver World}
  (r : Revision) (p : Process World) (clientIp id command message : string) :
  id <> "" -> command <> "" ->
  validates_live r id (world p) ->
  let out :=
    run (router r PostSandboxExec (bearer clientIp id (Some command))) p in
  In (kubectl_call r id command, Rejected message) (since p (snd out)) ->
  statusCode (fst out) = 500 /\
  answer_field "error" (fst out)
    = Some ("Error executing command: " ++ message) /\
  sandboxes (snd out) = sandboxes p /\
  creationLocks (snd out) = creationLocks p /\
  client_cookie (Some id) (setCookies (fst out)) = Some id.
Proof.
  intros Hid Hcommand Hlive out Hin.
  destruct (exec_route_run r p clientIp id command Hid Hcommand Hlive)
    as (listed & ran & Hsince & Hreg & Hlocks & Hck & Hans).
  fold out in Hsince, Hreg, Hlocks, Hck, Hans.
  rewrite Hsince in Hin. destruct Hin as [Heq|[Heq|[]]].
  - injection Heq as Hcall _. symmetry in Hcall.
    now apply kubectl_call_not_list in Hcall.
  - injection Heq as ->. destruct Hans as [Hst Herr].
    rewrite Hck. auto.
Qed.

Lemma X3_exec_failure_is_reported_witness :
  let w :=
    {| answers := [Fulfilled "sb-abc1234567";
                   Rejected "error: the server doesn't have a resource type"];
       times := []; identifiers := [] |} in
  let p := with_sandboxes (boot w) [("sb-abc1234567", 0)] in
  let out :=
    run (router K3d PostSandboxExec
           (bearer "10.0.0.7" "sb-abc1234567" (Some "get pod"))) p in
  statusCode (fst out) = 500 /\
  answer_field "error" (fst out)
    = Some ("Error executing command: "
            ++ "error: the server doesn't have a resource type") /\
  sandboxes (snd out) = sandboxes p /\
  creationLocks (snd out) = creationLocks p /\
  client_cookie (Some "sb-abc1234567") (setCookies (fst out))
    = Some "sb-abc1234567".
Proof.
  intros w p.
  apply (X3_exec_failure_is_reported K3d p "10.0.0.7" "sb-abc1234567"
           "get pod").
  - discriminate.
  - discriminate.
  - do 2 eexists. vm_compute. reflexivity.
  - vm_compute. right. left. reflexivity.
Defined.

(** X4.  A command sent to a live sandbox reaches [kubectl] whole: after
    the listing the route awaits one call of [kubectl], whose arguments are
    [--context], the context of the sandbox, and the pieces of the command
    between its spaces; joined by single spaces the pieces give the command
    back, and no piece contains a space (two spaces in a row give an empty
    argument). *)
Theorem X4_command_reaches_kubectl_whole {World : Type} `{Driver World}
  (r : Revision) (p : Process World) (clientIp id command : string) :
  id <> "" -> command <> "" ->
  validates_live r id (world p) ->
  let out :=
    run (router r PostSandboxExec (bearer clientIp id (Some command))) p in
  exists listed ran args,
    since p (snd out)
    = [(list_call r id, listed);
       (Execa "kubectl" ("--context" :: context_of r id :: args), ran)] /\
    String.concat " " args = command /\
    Forall (fun arg => ~ In " "%char (characters arg)) args.
Proof.
  intros Hid Hcommand Hlive out.
  destruct (exec_route_run r p clientIp id command Hid Hcommand Hlive)
    as (listed & ran & Hsince & _).
  exists listed, ran, (Js.split command " "%char).
  split; [exact Hsince|]. split.
  - apply split_join.
  - apply split_pieces.
Qed.

Lemma X4_command_reaches_kubectl_whole_witness :
  let w :=
    {| answers := [Fulfilled "sb-abc1234567"; Fulfilled ""];
       times := []; identifiers := [] |} in
  let out :=
    run (router Kind PostSandboxExec
           (bearer "10.0.0.7" "sb-abc1234567" (Some "get pods  -A")))
        (boot w) in
  exists listed ran args,
    since (boot w) (snd out)
    = [(list_call Kind "sb-abc1234567", listed);
       (Execa "kubectl"
          ("--context" :: context_of Kind "sb-abc1234567" :: args), ran)] /\
    String.concat " " args = "get pods  -A" /\
    Forall (fun arg => ~ In " "%char (characters arg)) args.
Proof.
  intros w.
  apply (X4_command_reaches_kubectl_whole Kind (boot w) "10.0.0.7"
           "sb-abc1234567" "get pods  -A").
  - discriminate.
  - discriminate.
  - do 2 eexists. vm_compute. reflexivity.
Defined.

(** X5.  The routes to execute and to delete never touch the creation
    locks, never ask the driver to create a cluster and never add an entry
    to the registry: every entry the registry holds after such a request
    was there before, with the same creation time. *)
Theorem X5_validated_routes_only_remove {World : Type} `{Driver World}
  (r : Revision) (e : Endpoint) (req : Request) (p : Process World) :
  e <> PostSandbox ->
  let p' := snd (run (router r e req) p) in
  creationLocks p' = creationLocks p /\
  (forall c, In c (since p p') -> creation_call (fst c) = false) /\
  (forall k t, JsMap.get (sandboxes p') k = Some t ->
               JsMap.get (sandboxes p) k = Some t).
Proof.
  intros He p'. subst p'. split.
  - apply (run_lock_free _ _ _ (other_routes_lock_free r e req He) p).
  - destruct (validated_route_frame r e req p He) as (l & Hcalls & Hno & Hreg).
    rewrite (since_calls _ _ _ Hcalls). auto.
Qed.

Lemma X5_validated_routes_only_remove_witness :
  let w :=
    {| answers := [Fulfilled "sb-abc1234567"; Fulfilled ""];
       times := []; identifiers := [] |} in
  let p :=
    with_locks (with_sandboxes (boot w) [("sb-abc1234567", 0)])
      [("10.0.0.7", true)] in
  let p' :=
    snd (run (router K3d DeleteSandbox
                (bearer "10.0.0.7" "sb-abc1234567" None)) p) in
  creationLocks p' = creationLocks p /\
  (forall c, In c (since p p') -> creation_call (fst c) = false) /\
  (forall k t, JsMap.get (sandboxes p') k = Some t ->
               JsMap.get (sandboxes p) k = Some t).
Proof.
  intros w p.
  apply (X5_validated_routes_only_remove K3d DeleteSandbox
           (bearer "10.0.0.7" "sb-abc1234567" None) p).
  discriminate.
Defined.

(* ================================================================== *)
(** * More on the sweeper *)

(** X6.  One run of the sweeper awaits exactly the driver's deletion calls
    of the entries that exceed the lifetime at the time it read, one per
    entry and in the order of the registry, however the earlier calls
    settle: a failed deletion does not stop the run.  The run leaves the
    creation locks alone and adds no entry to the registry. *)
Theorem X6_sweeper_attempts_every_expired_entry {World : Type}
  `{Driver World} (r : Revision) (p : Process World) :
  let now := fst (date_now (world p)) in
  let p' := snd (run (cleanupExpiredSandboxes r) p) in
  map fst (since p p')
  = map (fun entry => delete_call r (fst entry))
        (filter (expired now) (JsMap.entries (sandboxes p))) /\
  creationLocks p' = creationLocks p /\
  (forall k, JsMap.get (sandboxes p) k = None ->
             JsMap.get (sandboxes p') k = None).
Proof.
  intros now p'. subst p'.
  destruct (sweep_body_spec (World := World) r now) as (body & Hrun & Hbody).
  rewrite (Hrun p eq_refl).
  destruct (sweep_loop r now body Hbody (JsMap.entries (sandboxes p))
              (with_world p (snd (date_now (world p)))))
    as (l & Hcalls & Hmap & Hlocks & Hmono & _).
  cbn [calls sandboxes creationLocks with_world] in *.
  rewrite (since_calls _ _ _ Hcalls). auto.
Qed.

Lemma X6_sweeper_attempts_every_expired_entry_witness :
  let w :=
    {| answers := [Rejected "ERROR: no such cluster"; Fulfilled ""];
       times := [4000000]; identifiers := [] |} in
  let p :=
    with_sandboxes (boot w)
      [("sb-old0000001", 0); ("sb-new0000001", 3000000);
       ("sb-old0000002", 100)] in
  let p' := snd (run (cleanupExpiredSandboxes K3d) p) in
  map fst (since p p')
  = map (fun entry => delete_call K3d (fst entry))
        (filter (expired 4000000) (JsMap.entries (sandboxes p))) /\
  creationLocks p' = creationLocks p /\
  (forall k, JsMap.get (sandboxes p) k = None ->
             JsMap.get (sandboxes p') k = None).
Proof.
  intros w p.
  exact (X6_sweeper_attempts_every_expired_entry K3d p).
Defined.

(** X7.  After a run of the sweeper in which the driver fulfilled every
    deletion call, the registry (one entry per key) holds exactly the
    entries it held before that do not exceed the lifetime, each with its
    creation time unchanged. *)
Theorem X7_sweeper_leaves_the_young {World : Type} `{Driver World}
  (r : Revision) (p : Process World) :
  unique_keys (sandboxes p) ->
  let now := fst (date_now (world p)) in
  let p' := snd (run (cleanupExpiredSandboxes r) p) in
  forallb fulfilled (since p p') = true ->
  forall k T,
    JsMap.get (sandboxes p') k = Some T <->
    JsMap.get (sandboxes p) k = Some T /\ now - T <= SANDBOX_LIFETIME_MS.
Proof.
  intros Huniq now p' Hall k T.
  destruct (sweep_entry r p Huniq) as (_ & Hmono & _ & Hold & Hyoung).
  fold now p' in Hmono, Hold, Hyoung.
  assert (Hcase : forall T', JsMap.get (sandboxes p) k = Some T' ->
            (now - T' <= SANDBOX_LIFETIME_MS /\
             JsMap.get (sandboxes p') k = Some T') \/
            (now - T' > SANDBOX_LIFETIME_MS /\
             JsMap.get (sandboxes p') k = None)).
  { intros T' Hget. destruct (Z_le_gt_dec (now - T') SANDBOX_LIFETIME_MS)
      as [Hle|Hgt].
    - left. split; auto.
    - right. split; auto.
      destruct (Hold k T' Hget Hgt) as (outcome & Hin & Hout).
      pose proof (forallb_In _ _ _ Hall Hin) as Hf.
      destruct outcome; [exact Hout|discriminate]. }
  split.
  - intros Hafter.
    destruct (JsMap.get (sandboxes p) k) as [T'|] eqn:Hget.
    + destruct (Hcase T' eq_refl) as [[Hle Hsame]|[_ Hgone]]; [|congruence].
      rewrite Hsame in Hafter. injection Hafter as <-. auto.
    + rewrite (Hmono k Hget) in Hafter. discriminate.
  - intros [Hget Hle]. now apply Hyoung.
Qed.

Lemma X7_sweeper_leaves_the_young_witness :
  let w :=
    {| answers := [Fulfilled ""; Fulfilled ""]; times := [4000000];
       identifiers := [] |} in
  let p :=
    with_sandboxes (boot w)
      [("sb-old0000001", 0); ("sb-new0000001", 3000000);
       ("sb-old0000002", 100)] in
  let p' := snd (run (cleanupExpiredSandboxes Kind) p) in
  (JsMap.get (sandboxes p') "sb-new0000001" = Some 3000000 <->
   JsMap.get (sandboxes p) "sb-new0000001" = Some 3000000 /\
   4000000 - 3000000 <= SANDBOX_LIFETIME_MS) /\
  (JsMap.get (sandboxes p') "sb-old0000002" = Some 100 <->
   JsMap.get (sandboxes p) "sb-old0000002" = Some 100 /\
   4000000 - 100 <= SANDBOX_LIFETIME_MS).
Proof.
  intros w p.
  assert (Huniq : unique_keys (sandboxes p)).
  { unfold unique_keys. cbn.
    repeat constructor; cbn; intuition discriminate. }
  split.
  - exact (X7_sweeper_leaves_the_young Kind p Huniq eq_refl
             "sb-new0000001" 3000000).
  - exact (X7_sweeper_leaves_the_young Kind p Huniq eq_refl
             "sb-old0000002" 100).
Defined.

(* ================================================================== *)
(** * Validation by substring *)

(** X8.  In the k3d revision a cookie validates as live exactly when
    [k3d cluster list] succeeds and the cookie's text occurs somewhere in
    one of the lines it prints: the name of a cluster need not equal the
    cookie, and any other text of a line does as well. *)
Theorem X8_k3d_validation_is_by_substring {World : Type} `{Driver World}
  (w : World) (id : string) :
  id <> "" ->
  validates_live K3d id w <->
  exists stdout w',
    settle (Execa "k3d" ["cluster"; "list"]) w = (Fulfilled stdout, w') /\
    exists line,
      In line (Js.split stdout "010"%char) /\ occurs_in id line.
Proof.
  intros Hne. rewrite (k3d_validates_live_iff w id Hne).
  unfold listed. split.
  - intros (stdout & w' & Hsettle & Hex). exists stdout, w'. split; auto.
    apply existsb_exists in Hex. destruct Hex as (line & Hin & Hinc).
    exists line. split; auto. now apply includes_occurs.
  - intros (stdout & w' & Hsettle & line & Hin & Hocc).
    exists stdout, w'. split; auto.
    apply existsb_exists. exists line. split; auto.
    now apply includes_occurs.
Qed.

Lemma X8_k3d_validation_is_by_substring_witness :
  let host :=
    {| kind_clusters := []; k3d_clusters := ["sb-abc1234567"];
       files := JsMap.empty; time := 0; nanoid := [] |} in
  validates_live K3d "sb-abc" host /\ validates_live K3d "AGENTS" host.
Proof.
  intros host. split.
  - apply (X8_k3d_validation_is_by_substring host "sb-abc");
      [discriminate|].
    do 2 eexists. split; [reflexivity|].
    exists "sb-abc1234567   1/1       0/0      true". split.
    + vm_compute. right. left. reflexivity.
    + exists "", "1234567   1/1       0/0      true". reflexivity.
  - apply (X8_k3d_validation_is_by_substring host "AGENTS");
      [discriminate|].
    do 2 eexists. split; [reflexivity|].
    exists "NAME   SERVERS   AGENTS   LOADBALANCER". split.
    + vm_compute. left. reflexivity.
    + exists "NAME   SERVERS   ", "   LOADBALANCER". reflexivity.
Defined.

(* ================================================================== *)
(** * More on the create route *)

(** X9.  When the create route announces a new sandbox, the identifier in
    the answer, the cookie the client is left with and the key registered
    are one and the same, and it starts with [sb-]. *)
Theorem X9_created_sandbox_is_named_once {World : Type} `{Driver World}
  (r : Revision) (req : Request) (p : Process World) :
  ~ lock_held p (ip req) ->
  let out := run (router r PostSandbox req) p in
  statusCode (fst out) = 200 ->
  answer_field "message" (fst out) = Some "Sandbox created successfully" ->
  exists id createdAt,
    answer_field "sandboxId" (fst out) = Some id /\
    client_cookie (cookies_sandboxId req) (setCookies (fst out)) = Some id /\
    JsMap.get (sandboxes (snd out)) id = Some createdAt /\
    String.prefix "sb-" id = true.
Proof.
  intros Hfree out Hst Hmsg. subst out.
  destruct (post_sandbox_outcome r req p Hfree) as [_ Hout].
  destruct (run (router r PostSandbox req) p) as [res p']. cbn [fst snd] in *.
  destruct Hout as
    [id stdout Hcookie Hne Hlisted Hcalls Hreg Hst' Hck Hmsg' Hid
    |pre registry generated now made Hpre Hcalls Hfulfilled Hone Hnodel
       Hreg Hst' Hck Hmsg' Hid
    |pre registry made call0 message0 Hpre Hcalls Hfulfilled Hcall Hnodel
       Hreg Hst' Herr].
  - rewrite Hmsg in Hmsg'. discriminate.
  - exists ("sb-" ++ generated), now.
    split; [exact Hid|]. split; [exact Hck|].
    split; [rewrite Hreg; apply get_set_same|].
    apply prefix_occurs. now exists generated.
  - rewrite Hst in Hst'. discriminate.
Qed.

Lemma X9_created_sandbox_is_named_once_witness :
  let client :=
    {| ip := "10.0.0.7"; cookies_sandboxId := Some "sb-old0000001";
       body := posted None |} in
  let out :=
    run (router K3d PostSandbox client) (boot (fresh_host ["abc1234567"])) in
  exists id createdAt,
    answer_field "sandboxId" (fst out) = Some id /\
    client_cookie (Some "sb-old0000001") (setCookies (fst out)) = Some id /\
    JsMap.get (sandboxes (snd out)) id = Some createdAt /\
    String.prefix "sb-" id = true.
Proof.
  intros client.
  apply (X9_created_sandbox_is_named_once K3d client
           (boot (fresh_host ["abc1234567"]))).
  - unfold lock_held. simpl. discriminate.
  - reflexivity.
  - reflexivity.
Defined.

(** Provisioning at the end of the create route, with the lock released:
    either it fails and leaves the registry and the cookies of the response
    as they were, or it registers the new sandbox and adds its cookie. *)
Lemma provision_finish {World : Type} `{Driver World} (r : Revision)
  (res0 : Res) (p0 : Process World) (clientIp : string) :
  finishListeners res0 = [LocksDelete clientIp (Ret tt)] ->
  let out := run (res <- provision r res0 ;; emit_finish res) p0 in
  (statusCode (fst out) = 500 /\
   sandboxes (snd out) = sandboxes p0 /\
   setCookies (fst out) = setCookies res0) \/
  (statusCode (fst out) = statusCode res0 /\
   exists id createdAt,
     sandboxes (snd out) = JsMap.set (sandboxes p0) id createdAt /\
     setCookies (fst out)
     = (setCookies res0 ++ [SetCookie "sandboxId" id SANDBOX_LIFETIME_MS])%list /\
     answer_field "sandboxId" (fst out) = Some id).
Proof.
  intros Hlisten out. subst out. rewrite run_bind.
  pose proof (provision_outcome r res0 p0) as (_ & Hf & Hcases).
  destruct (run (provision r res0) p0) as [res' p']. cbn [fst snd] in *.
  unfold emit_finish. rewrite Hf, Hlisten. cbn [for_of bind run fst snd].
  cbn [sandboxes with_locks].
  destruct Hcases as
    [(generated & now & made & _ & _ & _ & _ & Hs & Hst & Hck & _ & Hid)
    |(made & call & message & _ & _ & _ & _ & Hs & Hst & Hck & _)].
  - right. split; auto. exists ("sb-" ++ generated), now. auto.
  - left. auto.
Qed.

(** X10.  A create request whose cookie names a sandbox for which the
    listing fails gives the cookie up before it provisions: the registry
    entry of that sandbox is removed and the response clears the cookie.
    If provisioning then fails the client is left with status 500 and no
    sandbox at all; if it succeeds the response sets the cookie of the new
    sandbox after clearing the old one. *)
Theorem X10_failed_listing_gives_up_the_cookie {World : Type} `{Driver World}
  (r : Revision) (p : Process World) (clientIp id message : string)
  (command : option string) (w1 : World) :
  id <> "" ->
  ~ lock_held p clientIp ->
  settle (list_call r id) (world p) = (Rejected message, w1) ->
  let out := run (router r PostSandbox (bearer clientIp id command)) p in
  (statusCode (fst out) = 500 /\
   sandboxes (snd out) = JsMap.delete (sandboxes p) id /\
   setCookies (fst out) = [ClearCookie "sandboxId"] /\
   client_cookie (Some id) (setCookies (fst out)) = None) \/
  (statusCode (fst out) = 200 /\
   exists new createdAt,
     sandboxes (snd out)
     = JsMap.set (JsMap.delete (sandboxes p) id) new createdAt /\
     setCookies (fst out)
     = [ClearCookie "sandboxId";
        SetCookie "sandboxId" new SANDBOX_LIFETIME_MS] /\
     answer_field "sandboxId" (fst out) = Some new).
Proof.
  intros Hne Hfree Hsettle out. subst out.
  pose proof (lock_free_get p clientIp Hfree) as Hget.
  assert (Hgoal : forall t : Task Res,
    t = (res <- provision r
                  (clearCookie (on_finish new_res
                                  (LocksDelete clientIp (Ret tt)))
                     "sandboxId") ;;
         emit_finish res) ->
    forall p0 : Process World,
      sandboxes p0 = JsMap.delete (sandboxes p) id ->
      (statusCode (fst (run t p0)) = 500 /\
       sandboxes (snd (run t p0)) = JsMap.delete (sandboxes p) id /\
       setCookies (fst (run t p0)) = [ClearCookie "sandboxId"] /\
       client_cookie (Some id) (setCookies (fst (run t p0))) = None) \/
      (statusCode (fst (run t p0)) = 200 /\
       exists new createdAt,
         sandboxes (snd (run t p0))
         = JsMap.set (JsMap.delete (sandboxes p) id) new createdAt /\
         setCookies (fst (run t p0))
         = [ClearCookie "sandboxId";
            SetCookie "sandboxId" new SANDBOX_LIFETIME_MS] /\
         answer_field "sandboxId" (fst (run t p0)) = Some new)).
  { intros t -> p0 Hreg.
    destruct (provision_finish r
                (clearCookie (on_finish new_res
                                (LocksDelete clientIp (Ret tt))) "sandboxId")
                p0 clientIp eq_refl)
      as [(Hst & Hs & Hck)|(Hst & new & createdAt & Hs & Hck & Hid)].
    - left. rewrite Hst, Hs, Hck, Hreg. repeat split; reflexivity.
    - right. rewrite Hst, Hs, Hck, Hid, Hreg. split; [reflexivity|].
      exists new, createdAt. repeat split; reflexivity. }
  destruct r; cbn [router kind_router k3d_router list_call] in *.
  - unfold KindServer.POST_sandbox, route,
      KindServer.preventConcurrentRequests, KindServer.post_sandbox.
    cbn [bearer ip cookies_sandboxId]. rewrite (truthy_Some id Hne).
    cbn [bind run]. rewrite Hget. cbn [bind run Js.text].
    unfold awaited. cbn [with_locks world]. rewrite Hsettle.
    cbn [bind run]. apply Hgoal; reflexivity.
  - unfold K3dServer.POST_sandbox, route,
      K3dServer.preventConcurrentRequests, K3dServer.post_sandbox.
    cbn [bearer ip cookies_sandboxId]. rewrite (truthy_Some id Hne).
    cbn [bind run]. rewrite Hget. cbn [bind run Js.text].
    unfold awaited. cbn [with_locks world]. rewrite Hsettle.
    cbn [bind run]. apply Hgoal; reflexivity.
Qed.

Lemma X10_failed_listing_gives_up_the_cookie_witness :
  let w :=
    {| answers := [Rejected "Cannot connect to the Docker daemon";
                   Rejected "Cannot connect to the Docker daemon"];
       times := []; identifiers := ["abc1234567"] |} in
  let p := with_sandboxes (boot w) [("sb-old0000001", 0)] in
  let out :=
    run (router K3d PostSandbox (bearer "10.0.0.7" "sb-old0000001" None)) p in
  (statusCode (fst out) = 500 /\
   sandboxes (snd out) = JsMap.delete (sandboxes p) "sb-old0000001" /\
   setCookies (fst out) = [ClearCookie "sandboxId"] /\
   client_cookie (Some "sb-old0000001") (setCookies (fst out)) = None) \/
  (statusCode (fst out) = 200 /\
   exists new createdAt,
     sandboxes (snd out)
     = JsMap.set (JsMap.delete (sandboxes p) "sb-old0000001") new createdAt /\
     setCookies (fst out)
     = [ClearCookie "sandboxId";
        SetCookie "sandboxId" new SANDBOX_LIFETIME_MS] /\
     answer_field "sandboxId" (fst out) = Some new).
Proof.
  intros w p.
  apply (X10_failed_listing_gives_up_the_cookie K3d p "10.0.0.7"
           "sb-old0000001" "Cannot connect to the Docker daemon" None
           {| answers := [Rejected "Cannot connect to the Docker daemon"];
              times := []; identifiers := ["abc1234567"] |}).
  - discriminate.
  - unfold lock_held. simpl. discriminate.
  - reflexivity.
Defined.

(** X11.  In the k3d revision a create request whose cookie names a
    sandbox that a successful listing does not show provisions a new
    sandbox without giving the old one up: the registry keeps every entry
    it had, the old sandbox's included, and the response clears no cookie.
    If provisioning fails the client keeps the cookie of the sandbox that
    is not listed. *)
Theorem X11_k3d_unlisted_sandbox_stays_registered {World : Type}
  `{Driver World} (p : Process World) (clientIp id stdout : string)
  (command : option string) (w1 : World) :
  id <> "" ->
  ~ lock_held p clientIp ->
  settle (list_call K3d id) (world p) = (Fulfilled stdout, w1) ->
  listed id stdout = false ->
  let out := run (router K3d PostSandbox (bearer clientIp id command)) p in
  (statusCode (fst out) = 500 /\
   sandboxes (snd out) = sandboxes p /\
   setCookies (fst out) = [] /\
   client_cookie (Some id) (setCookies (fst out)) = Some id) \/
  (statusCode (fst out) = 200 /\
   exists new createdAt,
     sandboxes (snd out) = JsMap.set (sandboxes p) new createdAt /\
     setCookies (fst out) = [SetCookie "sandboxId" new SANDBOX_LIFETIME_MS] /\
     answer_field "sandboxId" (fst out) = Some new).
Proof.
  intros Hne Hfree Hsettle Hlisted out. subst out.
  pose proof (lock_free_get p clientIp Hfree) as Hget.
  cbn [router k3d_router list_call] in *.
  unfold K3dServer.POST_sandbox, route,
    K3dServer.preventConcurrentRequests, K3dServer.post_sandbox.
  cbn [bearer ip cookies_sandboxId]. rewrite (truthy_Some id Hne).
  cbn [bind run]. rewrite Hget. cbn [bind run Js.text].
  unfold awaited. cbn [with_locks world]. rewrite Hsettle.
  rewrite filter_positive. fold (listed id stdout). rewrite Hlisted.
  match goal with |- context [run _ ?q] => set (p0 := q) end.
  destruct (provision_finish K3d
              (on_finish new_res (LocksDelete clientIp (Ret tt)))
              p0 clientIp eq_refl)
    as [(Hst & Hs & Hck)|(Hst & new & createdAt & Hs & Hck & Hid)].
  - left. cbn [provision] in *. rewrite Hst, Hs, Hck.
    repeat split; reflexivity.
  - right. cbn [provision] in *. rewrite Hst, Hs, Hck, Hid.
    split; [reflexivity|]. exists new, createdAt. repeat split; reflexivity.
Qed.

Lemma X11_k3d_unlisted_sandbox_stays_registered_witness :
  let w :=
    {| answers := [Fulfilled "NAME   SERVERS   AGENTS   LOADBALANCER";
                   Rejected "Cannot connect to the Docker daemon"];
       times := []; identifiers := ["abc1234567"] |} in
  let p := with_sandboxes (boot w) [("sb-old0000001", 0)] in
  let out :=
    run (router K3d PostSandbox (bearer "10.0.0.7" "sb-old0000001" None)) p in
  (statusCode (fst out) = 500 /\
   sandboxes (snd out) = sandboxes p /\
   setCookies (fst out) = [] /\
   client_cookie (Some "sb-old0000001") (setCookies (fst out))
   = Some "sb-old0000001") \/
  (statusCode (fst out) = 200 /\
   exists new createdAt,
     sandboxes (snd out) = JsMap.set (sandboxes p) new createdAt /\
     setCookies (fst out) = [SetCookie "sandboxId" new SANDBOX_LIFETIME_MS] /\
     answer_field "sandboxId" (fst out) = Some new).
Proof.
  intros w p.
  apply (X11_k3d_unlisted_sandbox_stays_registered p "10.0.0.7"
           "sb-old0000001" "NAME   SERVERS   AGENTS   LOADBALANCER" None
           {| answers := [Rejected "Cannot connect to the Docker daemon"];
              times := []; identifiers := ["abc1234567"] |}).
  - discriminate.
  - unfold lock_held. simpl. discriminate.
  - reflexivity.
  - reflexivity.
Defined.

(** X12.  Admission is per client.  Whatever requests are in flight and
    whatever locks other clients hold, a creation request of a client whose
    own lock is free is let in: it takes the client's lock, leaves the
    locks of the others as they are, and waits in flight for the first call
    it awaits; it is not answered yet, and nothing was awaited or
    registered on its way there. *)
Theorem X12_admission_is_per_client {World : Type} `{Driver World}
  (r : Revision) (s : Server World) (req : Request) :
  ~ lock_held (process s) (ip req) ->
  let s' := step (router r) (Arrive PostSandbox req) s in
  (exists waiting,
     inflight s'
     = (inflight s ++
        [{| endpoint := PostSandbox; request := req;
            suspended := waiting |}])%list) /\
  outbox s' = outbox s /\
  lock_held (process s') (ip req) /\
  (forall other, other <> ip req ->
     JsMap.get (creationLocks (process s')) other
     = JsMap.get (creationLocks (process s)) other) /\
  calls (process s') = calls (process s) /\
  sandboxes (process s') = sandboxes (process s).
Proof.
  intros Hfree s'. subst s'.
  pose proof (lock_free_get (process s) (ip req) Hfree) as Hget.
  assert (Hlocks :
    JsMap.get (JsMap.set (creationLocks (process s)) (ip req) true) (ip req)
    = Some true) by apply get_set_same.
  assert (Hothers : forall other, other <> ip req ->
    JsMap.get (JsMap.set (creationLocks (process s)) (ip req) true) other
    = JsMap.get (creationLocks (process s)) other)
    by (intros other Hne; now apply get_set_other).
  cbn [step].
  destruct r; cbn [router kind_router k3d_router].
  - unfold KindServer.POST_sandbox, route,
      KindServer.preventConcurrentRequests, KindServer.post_sandbox,
      KindServer.provision, KindServer.createCluster,
      try_catch, and_then, await.
    cbn [bind advance]. rewrite Hget. cbn [bind advance].
    destruct (Js.truthy (cookies_sandboxId req)); cbn [bind advance].
    + cbn [inflight outbox process creationLocks calls sandboxes
           with_locks]. unfold lock_held. cbn [creationLocks]. eauto 10.
    + cbn [world with_locks].
      destruct (generate_id (world (process s))) as [generated w].
      cbn [bind advance inflight outbox process].
      unfold lock_held. cbn [creationLocks calls sandboxes with_locks
                             with_world]. eauto 10.
  - unfold K3dServer.POST_sandbox, route,
      K3dServer.preventConcurrentRequests, K3dServer.post_sandbox,
      K3dServer.provision, K3dServer.createCluster,
      try_catch, and_then, await.
    cbn [bind advance]. rewrite Hget. cbn [bind advance].
    destruct (Js.truthy (cookies_sandboxId req)); cbn [bind advance].
    + cbn [inflight outbox process creationLocks calls sandboxes
           with_locks]. unfold lock_held. cbn [creationLocks]. eauto 10.
    + cbn [world with_locks].
      destruct (generate_id (world (process s))) as [generated w].
      cbn [bind advance inflight outbox process].
      unfold lock_held. cbn [creationLocks calls sandboxes with_locks
                             with_world]. eauto 10.
Qed.

Lemma X12_admission_is_per_client_witness :
  let w := fresh_host ["abc1234567"; "klm1234567"] in
  let first :=
    {| ip := "10.0.0.7"; cookies_sandboxId := None; body := posted None |} in
  let second :=
    {| ip := "10.0.0.8"; cookies_sandboxId := None; body := posted None |} in
  let s := steps (router K3d) [Arrive PostSandbox first] (listening w) in
  let s' := step (router K3d) (Arrive PostSandbox second) s in
  (exists waiting,
     inflight s'
     = (inflight s ++
        [{| endpoint := PostSandbox; request := second;
            suspended := waiting |}])%list) /\
  outbox s' = outbox s /\
  lock_held (process s') "10.0.0.8" /\
  (forall other, other <> "10.0.0.8" ->
     JsMap.get (creationLocks (process s')) other
     = JsMap.get (creationLocks (process s)) other) /\
  calls (process s') = calls (process s) /\
  sandboxes (process s') = sandboxes (process s).
Proof.
  intros w first second s.
  apply (X12_admission_is_per_client K3d s second).
  vm_compute. discriminate.
Defined.

(** X13.  The create route answers 429 exactly when the lock of the
    client is held when the request arrives; otherwise it answers 200 or
    500. *)
Theorem X13_create_route_statuses {World : Type} `{Driver World}
  (r : Revision) (req : Request) (p : Process World) :
  let status := statusCode (fst (run (router r PostSandbox req) p)) in
  (status = 429 <-> lock_held p (ip req)) /\
  (status = 200 \/ status = 429 \/ status = 500).
Proof.
  intros status. subst status.
  destruct (lock_held_dec p (ip req)) as [Hheld|Hfree].
  - destruct (denied r req p Hheld) as (res & -> & Hst & _).
    cbn [fst]. rewrite Hst. split; [tauto|auto].
  - destruct (post_sandbox_outcome r req p Hfree) as [_ Hout].
    destruct (run (router r PostSandbox req) p) as [res p'].
    cbn [fst snd] in *.
    assert (Hst : statusCode res = 200 \/ statusCode res = 500).
    { destruct Hout; auto. }
    split; [|tauto].
    split; [|contradiction].
    intros H429. destruct Hst as [Hst|Hst]; rewrite Hst in H429;
      discriminate.
Qed.

Lemma X13_create_route_statuses_witness :
  let w :=
    {| answers := []; times := []; identifiers := [] |} in
  let p := with_locks (boot w) [("10.0.0.7", true)] in
  let req :=
    {| ip := "10.0.0.7"; cookies_sandboxId := None; body := posted None |} in
  let status := statusCode (fst (run (router Kind PostSandbox req) p)) in
  (status = 429 <-> lock_held p "10.0.0.7") /\
  (status = 200 \/ status = 429 \/ status = 500).
Proof.
  intros w p req.
  exact (X13_create_route_statuses Kind req p).
Defined.

(* ================================================================== *)
(** * Creating and deleting clusters *)

Lemma delete_absent {V : Type} (m : JsMap.t V) key :
  JsMap.get m key = None -> JsMap.delete m key = m.
Proof.
  induction m as [|[k v] rest IH]; cbn; auto.
  destruct (String.eqb k key); [discriminate|].
  intros Hnone. now rewrite IH.
Qed.

(** X14.  [deleteCluster] awaits one call, the driver's deletion of the
    cluster.  When it is fulfilled the function returns, the registry has
    no entry for the sandbox and every other entry is as it was; for a
    sandbox that had no entry the registry is unchanged, so deleting what
    is already gone is no error.  When it is rejected the function throws
    "Failed to delete cluster: " with the driver's message and the registry
    is unchanged. *)
Theorem X14_deleteCluster_follows_the_driver {World : Type} `{Driver World}
  (r : Revision) (id : string) (p : Process World) :
  let out := run (deleteCluster r id) p in
  exists outcome,
    since p (snd out) = [(delete_call r id, outcome)] /\
    (forall k, k <> id ->
       JsMap.get (sandboxes (snd out)) k = JsMap.get (sandboxes p) k) /\
    match outcome with
    | Fulfilled _ =>
        fst out = Js.Normal tt /\
        JsMap.get (sandboxes (snd out)) id = None /\
        (JsMap.get (sandboxes p) id = None ->
         sandboxes (snd out) = sandboxes p)
    | Rejected message =>
        fst out = Js.Throw ("Failed to delete cluster: " ++ message) /\
        sandboxes (snd out) = sandboxes p
    end.
Proof.
  destruct r; cbn [deleteCluster delete_call];
    unfold KindServer.deleteCluster, K3dServer.deleteCluster,
      try_catch, and_then, await;
    cbn [bind run]; unfold awaited;
    destruct (settle _ (world p)) as [[stdout|message] w]; cbn;
    eexists; (split; [since_simpl; reflexivity|]); cbn;
    (split; [intros k Hk; try reflexivity; now apply get_delete_other|]);
    repeat split; try apply get_delete_same; try apply delete_absent.
Qed.

Lemma X14_deleteCluster_follows_the_driver_witness :
  let w :=
    {| answers := [Fulfilled ""]; times := []; identifiers := [] |} in
  let p := with_sandboxes (boot w) [("sb-zzz0000000", 5)] in
  let out := run (deleteCluster K3d "sb-abc1234567") p in
  exists outcome,
    since p (snd out) = [(delete_call K3d "sb-abc1234567", outcome)] /\
    (forall k, k <> "sb-abc1234567" ->
       JsMap.get (sandboxes (snd out)) k = JsMap.get (sandboxes p) k) /\
    match outcome with
    | Fulfilled _ =>
        fst out = Js.Normal tt /\
        JsMap.get (sandboxes (snd out)) "sb-abc1234567" = None /\
        (JsMap.get (sandboxes p) "sb-abc1234567" = None ->
         sandboxes (snd out) = sandboxes p)
    | Rejected message =>
        fst out = Js.Throw ("Failed to delete cluster: " ++ message) /\
        sandboxes (snd out) = sandboxes p
    end.
Proof.
  intros w p.
  exact (X14_deleteCluster_follows_the_driver K3d "sb-abc1234567" p).
Defined.

(** The awaited calls of [createCluster] in the kind revision: it writes
    the configuration, creates the cluster from it and removes the file,
    and stops at the first call that is rejected. *)
Lemma kind_createCluster_trace {World : Type} `{Driver World}
  (id : string) (p : Process World) :
  let out := run (KindServer.createCluster id) p in
  let write := WriteFile (configPath id) (KindServer.config_of id) in
  let create :=
    Execa "kind" ["create"; "cluster"; "--config"; configPath id] in
  let remove := Unlink (configPath id) in
  (exists m,
     since p (snd out) = [(write, Rejected m)] /\
     fst out = Js.Throw ("Failed to create cluster: " ++ m) /\
     sandboxes (snd out) = sandboxes p) \/
  (exists o m,
     since p (snd out) = [(write, Fulfilled o); (create, Rejected m)] /\
     fst out = Js.Throw ("Failed to create cluster: " ++ m) /\
     sandboxes (snd out) = sandboxes p) \/
  (exists o o' m,
     since p (snd out)
     = [(write, Fulfilled o); (create, Fulfilled o'); (remove, Rejected m)] /\
     fst out = Js.Throw ("Failed to create cluster: " ++ m) /\
     sandboxes (snd out) = sandboxes p) \/
  (exists o o' o'' now,
     since p (snd out)
     = [(write, Fulfilled o); (create, Fulfilled o'); (remove, Fulfilled o'')]
     /\ fst out = Js.Normal true /\
     sandboxes (snd out) = JsMap.set (sandboxes p) id now).
Proof.
  unfold KindServer.createCluster, configPath. simpl.
  next_call.
  2: { left. eexists. split; [since_simpl; reflexivity|]. auto. }
  next_call.
  2: { right. left. do 2 eexists.
       split; [since_simpl; reflexivity|]. auto. }
  next_call.
  2: { right. right. left. do 3 eexists.
       split; [since_simpl; reflexivity|]. auto. }
  next_clock. right. right. right. do 4 eexists.
  split; [since_simpl; reflexivity|]. auto.
Qed.

(** X15.  [createCluster] of the kind revision and its configuration file
    [/tmp/ID-config.yaml]: when [kind create cluster] is rejected the file
    is not removed -- no [unlink] is awaited; and when the cluster was
    created but removing the file is rejected, [createCluster] throws and
    registers nothing although the driver's creation call was fulfilled. *)
Theorem X15_kind_config_file_and_failures {World : Type} `{Driver World}
  (id : string) (p : Process World) :
  let out := run (KindServer.createCluster id) p in
  let create :=
    Execa "kind" ["create"; "cluster"; "--config"; configPath id] in
  (forall m, In (create, Rejected m) (since p (snd out)) ->
     forall c, In c (since p (snd out)) -> fst c <> Unlink (configPath id)) /\
  (forall m, In (Unlink (configPath id), Rejected m) (since p (snd out)) ->
     (exists o, In (create, Fulfilled o) (since p (snd out))) /\
     fst out = Js.Throw ("Failed to create cluster: " ++ m) /\
     sandboxes (snd out) = sandboxes p).
Proof.
  intros out create.
  destruct (kind_createCluster_trace id p)
    as [(m0 & Hs & Hres & Hreg)
       |[(o & m0 & Hs & Hres & Hreg)
        |[(o & o' & m0 & Hs & Hres & Hreg)
         |(o & o' & o'' & now & Hs & Hres & Hreg)]]];
    fold out create in Hs, Hres, Hreg; rewrite Hs; split.
  - intros m [Heq|[]]. discriminate.
  - intros m [Heq|[]]. discriminate.
  - intros m _ c [<-|[<-|[]]]; discriminate.
  - intros m [Heq|[Heq|[]]]; discriminate.
  - intros m [Heq|[Heq|[Heq|[]]]]; discriminate.
  - intros m [Heq|[Heq|[Heq|[]]]]; try discriminate.
    injection Heq as <-. split; [|auto].
    exists o'. right. left. reflexivity.
  - intros m [Heq|[Heq|[Heq|[]]]]; discriminate.
  - intros m [Heq|[Heq|[Heq|[]]]]; discriminate.
Qed.

Lemma X15_kind_config_file_and_failures_witness :
  let id := "sb-abc1234567" in
  let create :=
    Execa "kind" ["create"; "cluster"; "--config"; configPath id] in
  let failing :=
    boot {| answers := [Fulfilled ""; Rejected "ERROR: failed to create cluster"];
            times := []; identifiers := [] |} in
  let orphaning :=
    boot {| answers := [Fulfilled ""; Fulfilled ""; Rejected "EPERM"];
            times := []; identifiers := [] |} in
  (forall c,
     In c (since failing (snd (run (KindServer.createCluster id) failing))) ->
     fst c <> Unlink (configPath id)) /\
  ((exists o,
      In (create, Fulfilled o)
         (since orphaning (snd (run (KindServer.createCluster id) orphaning))))
   /\ fst (run (KindServer.createCluster id) orphaning)
      = Js.Throw ("Failed to create cluster: " ++ "EPERM") /\
   sandboxes (snd (run (KindServer.createCluster id) orphaning))
   = sandboxes orphaning).
Proof.
  intros id create failing orphaning. split.
  - apply (proj1 (X15_kind_config_file_and_failures id failing)
             "ERROR: failed to create cluster").
    vm_compute. right. left. reflexivity.
  - apply (proj2 (X15_kind_config_file_and_failures id orphaning) "EPERM").
    vm_compute. right. right. left. reflexivity.
Defined.
